(** * GeniusBaby Cosmetics storefront: catalogue listing, product creation, slugs

    A shallow embedding of [src/app.py]: the [/products] listing (the query
    builder, the sort table, pagination), the [/admin/new] product creation
    and [slugify], with the properties the specification states about them.

    Conventions.
    - Python [int] is [Z].  Text is [string]; a character of the model is a
      code point below 256, so [is_space] below is [str.isspace] on that
      range and the order on strings is Python's code-point order.
    - What Python and MongoDB supply ([int], [float], the order on numbers,
      text search, Unicode normalisation) is an interface: the definitions
      take it as a parameter and every theorem holds for all its
      implementations.  [Ref] gives one implementation to run the
      definitions on concrete requests.
    - An unhandled exception of a view is the result [Raise]. *)

From Stdlib Require Import ZArith List String Ascii Bool Lia Sorted Permutation QArith Qround.
Import ListNotations.

Local Open Scope string_scope.
Local Open Scope Z_scope.

(* ================================================================== *)
(** * Definitions *)
(* ================================================================== *)

(** ** Python text *)

Module PyStr.

Definition code (c : ascii) : N := N_of_ascii c.

Definition in_range (lo hi : N) (c : ascii) : bool :=
  (N.leb lo (code c) && N.leb (code c) hi)%bool.

(** [str.isspace] for code points below 256: TAB..CR, FS..US, SPACE,
    NEL (0x85) and NBSP (0xA0). *)
Definition is_space (c : ascii) : bool :=
  (in_range 9 13 c || in_range 28 32 c || N.eqb (code c) 133 || N.eqb (code c) 160)%bool.

Definition is_digit (c : ascii) : bool := in_range 48 57 c.
Definition is_upper (c : ascii) : bool := in_range 65 90 c.
Definition is_lower (c : ascii) : bool := in_range 97 122 c.

(** The character class [[a-zA-Z0-9]] of the pattern in [slugify]. *)
Definition is_alnum (c : ascii) : bool :=
  (is_lower c || is_upper c || is_digit c)%bool.

Definition is_hyphen (c : ascii) : bool := Ascii.eqb c "-".

Definition is_ascii (c : ascii) : bool := N.ltb (code c) 128.

(** What a slug is made of: [a-z], [0-9] and the hyphen. *)
Definition is_slug_char (c : ascii) : bool :=
  (is_lower c || is_digit c || is_hyphen c)%bool.

(** [str.lower] on one character: [A-Z], and the upper-case letters of the
    Latin-1 block (0xC0..0xDE without the multiplication sign 0xD7). *)
Definition lower_char (c : ascii) : ascii :=
  if (is_upper c || (in_range 192 222 c && negb (N.eqb (code c) 215)))%bool
  then ascii_of_N (code c + 32)
  else c.

Fixpoint lower (s : string) : string :=
  match s with
  | EmptyString => EmptyString
  | String c r => String (lower_char c) (lower r)
  end.

Fixpoint all_chars (f : ascii -> bool) (s : string) : bool :=
  match s with
  | EmptyString => true
  | String c r => (f c && all_chars f r)%bool
  end.

(** [s.lstrip(chars)], the characters to remove given as a predicate. *)
Fixpoint lstrip_by (f : ascii -> bool) (s : string) : string :=
  match s with
  | EmptyString => EmptyString
  | String c r => if f c then lstrip_by f r else s
  end.

(** [s.rstrip(chars)]: a character goes when it is to be removed and
    everything after it went. *)
Fixpoint rstrip_by (f : ascii -> bool) (s : string) : string :=
  match s with
  | EmptyString => EmptyString
  | String c r =>
      match rstrip_by f r with
      | EmptyString => if f c then EmptyString else String c EmptyString
      | String d r' => String c (String d r')
      end
  end.

Definition strip_by (f : ascii -> bool) (s : string) : string :=
  rstrip_by f (lstrip_by f s).

(** [s.strip()] *)
Definition strip (s : string) : string := strip_by is_space s.

(** Truth value of a string: [if s:]. *)
Definition truthy (s : string) : bool :=
  match s with EmptyString => false | String _ _ => true end.

End PyStr.

(** ** [slugify] *)

Module Slug.
Import PyStr.

(** [re.sub(r"[^a-zA-Z0-9]+", "-", s)]: every maximal run of characters
    outside the class becomes one hyphen.  [in_run] says that the run the
    scan is in has already produced its hyphen. *)
Fixpoint sub_runs (in_run : bool) (s : string) : string :=
  match s with
  | EmptyString => EmptyString
  | String c r =>
      if is_alnum c then String c (sub_runs false r)
      else if in_run then sub_runs true r
      else String "-" (sub_runs true r)
  end.

Definition re_sub_non_alnum (s : string) : string := sub_runs false s.

Section WithNormalizer.

(** [unicodedata.normalize("NFKD", s).encode("ascii", "ignore").decode("ascii")],
    which needs the Unicode decomposition tables. *)
Variable nfkd_ascii : string -> string.

(** [slugify], src/app.py 257-261. *)
Definition slugify (s : string) : string :=
  let s := nfkd_ascii s in
  lower (strip_by is_hyphen (re_sub_non_alnum s)).

End WithNormalizer.

(** The well-formed intermediate strings: characters of the class and
    hyphens, no two hyphens in a row; with [after_hyphen] set, no hyphen at
    the front either. *)
Fixpoint shape (after_hyphen : bool) (s : string) : bool :=
  match s with
  | EmptyString => true
  | String c r =>
      if is_alnum c then shape false r
      else (is_hyphen c && negb after_hyphen && shape true r)%bool
  end.

End Slug.

(** ** Exceptions *)

Inductive exn : Type := ValueError.

Inductive result (A : Type) : Type :=
| Ok (a : A)
| Raise (e : exn).

Arguments Ok {A} a.
Arguments Raise {A} e.

Definition bind {A B : Type} (c : result A) (k : A -> result B) : result B :=
  match c with
  | Ok a => k a
  | Raise e => Raise e
  end.

Definition map_result {A B : Type} (f : A -> B) (c : result A) : result B :=
  bind c (fun a => Ok (f a)).

(** A conversion that raises [ValueError] where the parser gives nothing. *)
Definition or_value_error {A : Type} (o : option A) : result A :=
  match o with
  | Some a => Ok a
  | None => Raise ValueError
  end.

Declare Scope result_scope.
Delimit Scope result_scope with result.
Notation "x <- c ;; k" := (bind c (fun x => k))
  (at level 61, c at next level, right associativity) : result_scope.

(** ** What Python supplies *)

(** Python's numbers as the views use them.  [int_of_str] and
    [float_of_str] are [int(s)] and [float(s)] on a string, [None] where
    they raise [ValueError]; [float_of_int] is [float(n)]; [float_4_8] is
    the literal [4.8]; [num_le] is [<=] on numbers, which is also the order
    the store uses for [$gte], [$lte] and for sorting on a numeric field. *)
Class PyNum : Type := {
  float : Type;
  int_of_str : string -> option Z;
  float_of_str : string -> option float;
  float_of_int : Z -> float;
  float_4_8 : float;
  num_le : float -> float -> bool
}.

(** ** The product store *)

Section Catalog.

Context {num : PyNum}.

(** A product document, with the fields [admin_new] and the seeders write.
    [None] stands for a field that is null or missing. *)
Record product : Type := {
  name : string;
  slug : string;
  brand : option string;
  category : option string;
  price : float;
  sale_price : float;
  description : string;
  ingredients : string;
  skin_type : string;
  image_url : option string;
  rating : float;
  stock : Z;
  is_featured : bool;
  created_at : Z;
  updated_at : Z
}.

(** The store's text index: whether a document matches a [$text] search,
    and the [textScore] it gets. *)
Class TextIndex : Type := {
  text_match : string -> product -> bool;
  text_score : string -> product -> float
}.

Context {txt : TextIndex}.

(** The value of the [price] key of a filter: [{"$gte": .., "$lte": ..}],
    each key present or not. *)
Record price_filter : Type := {
  gte : option float;
  lte : option float
}.

(** The filter document that [products] builds; a key that is absent is
    [None]. *)
Record filters : Type := {
  f_category : option string;
  f_brand : option string;
  f_price : option price_filter;
  f_text : option string
}.

Definition no_filters : filters :=
  {| f_category := None; f_brand := None; f_price := None; f_text := None |}.

Definition set_category (v : string) (f : filters) : filters :=
  {| f_category := Some v; f_brand := f_brand f; f_price := f_price f; f_text := f_text f |}.

Definition set_brand (v : string) (f : filters) : filters :=
  {| f_category := f_category f; f_brand := Some v; f_price := f_price f; f_text := f_text f |}.

Definition set_price (v : price_filter) (f : filters) : filters :=
  {| f_category := f_category f; f_brand := f_brand f; f_price := Some v; f_text := f_text f |}.

Definition set_text (v : string) (f : filters) : filters :=
  {| f_category := f_category f; f_brand := f_brand f; f_price := f_price f; f_text := Some v |}.

Definition opt_string_eqb (a b : option string) : bool :=
  match a, b with
  | Some x, Some y => String.eqb x y
  | None, None => true
  | _, _ => false
  end.

(** [{"field": v}]: the field equals the string [v]. *)
Definition field_is (v : option string) (field : option string) : bool :=
  match v with
  | None => true
  | Some s => opt_string_eqb field (Some s)
  end.

Definition price_in (pf : price_filter) (x : float) : bool :=
  (match gte pf with None => true | Some lo => num_le lo x end
   && match lte pf with None => true | Some hi => num_le x hi end)%bool.

Definition matches_price (f : filters) (p : product) : bool :=
  match f_price f with
  | None => true
  | Some pf => price_in pf (price p)
  end.

Definition matches_text (f : filters) (p : product) : bool :=
  match f_text f with
  | None => true
  | Some q => text_match q p
  end.

(** A document matches a filter document when it matches every key of it. *)
Definition matches (f : filters) (p : product) : bool :=
  (field_is (f_category f) (category p)
   && field_is (f_brand f) (brand p)
   && matches_price f p
   && matches_text f p)%bool.

(** [collection.find(filters)] and [collection.count_documents(filters)] *)
Definition find (store : list product) (f : filters) : list product :=
  filter (matches f) store.

Definition count_documents (store : list product) (f : filters) : Z :=
  Z.of_nat (List.length (find store f)).

(** [collection.find_one({"slug": s})] *)
Definition find_one_by_slug (store : list product) (s : string) : option product :=
  List.find (fun p => String.eqb (slug p) s) store.

Definition opt_string_dec (a b : option string) : {a = b} + {a <> b}.
Proof. decide equality. apply String.string_dec. Defined.

(** The value of the string field called [field]. *)
Definition str_field (field : string) (p : product) : option string :=
  if String.eqb field "category" then category p
  else if String.eqb field "brand" then brand p
  else if String.eqb field "name" then Some (name p)
  else if String.eqb field "slug" then Some (slug p)
  else None.

(** [collection.distinct(field)] for a string field: each value once. *)
Definition distinct (store : list product) (field : string) : list (option string) :=
  nodup opt_string_dec (map (str_field field) store).

(** [collection.insert_one(doc)] *)
Definition insert_one (store : list product) (doc : product) : list product :=
  store ++ [doc].

Inductive direction : Type := ASCENDING | DESCENDING.

(** The store's order on the values of the field called [field].  A field
    that no document has compares equal everywhere. *)
Definition key_le (field : string) (a b : product) : bool :=
  if String.eqb field "created_at" then Z.leb (created_at a) (created_at b)
  else if String.eqb field "price" then num_le (price a) (price b)
  else if String.eqb field "rating" then num_le (rating a) (rating b)
  else if String.eqb field "name" then String.leb (name a) (name b)
  else true.

Definition sort_le (spec : string * direction) (a b : product) : bool :=
  match snd spec with
  | ASCENDING => key_le (fst spec) a b
  | DESCENDING => key_le (fst spec) b a
  end.

End Catalog.

(** Sorting: insertion into a sorted list, the new element before the
    first one it is not greater than, so that equal keys keep their order
    (as [sorted] does; for a cursor, ties stay in the order of the store). *)
Fixpoint insert_by {A : Type} (le : A -> A -> bool) (x : A) (l : list A) : list A :=
  match l with
  | [] => [x]
  | y :: r => if le x y then x :: l else y :: insert_by le x r
  end.

Definition sort_by {A : Type} (le : A -> A -> bool) (l : list A) : list A :=
  fold_right (insert_by le) [] l.

(** The order of Python on strings, by code points. *)
Definition string_le (a b : string) : Prop := String.leb a b = true.

(** [sorted(l)] on strings *)
Definition sorted (l : list string) : list string := sort_by String.leb l.

(** [cursor.sort([(field, dir)])], [cursor.skip(n)], [cursor.limit(n)].
    A limit of 0 is no limit, and a negative one counts as its absolute
    value.  Numbers are unbounded here; the driver itself takes integers of
    at most 64 bits. *)
Definition cursor_sort {num : PyNum} (spec : string * direction)
  (l : list product) : list product :=
  sort_by (sort_le spec) l.

Definition cursor_skip {A : Type} (n : Z) (l : list A) : list A :=
  skipn (Z.to_nat n) l.

Definition cursor_limit {A : Type} (n : Z) (l : list A) : list A :=
  if n =? 0 then l else firstn (Z.to_nat (Z.abs n)) l.

(** ** Configuration (src/config.py) *)

Record config : Type := {
  ADMIN_TOKEN : string;
  PER_PAGE : Z
}.

(** The values when the environment sets neither variable. *)
Definition default_config : config :=
  {| ADMIN_TOKEN := "evalynemwende20"; PER_PAGE := 12 |}.

(** ** The catalogue listing: [products], src/app.py 79-152 *)

Section Listing.
Import PyStr.

Context {num : PyNum} {txt : TextIndex}.

(** The query string of a request: each parameter given or not. *)
Record listing_args : Type := {
  arg_q : option string;
  arg_category : option string;
  arg_brand : option string;
  arg_min_price : option string;
  arg_max_price : option string;
  arg_sort : option string;
  arg_page : option string;
  arg_per_page : option string
}.

(** [request.args.get(key, default)] with a string default *)
Definition get_or (v : option string) (default : string) : string :=
  match v with
  | Some s => s
  | None => default
  end.

(** [int(request.args.get(key, default))] with an integer default *)
Definition int_arg (v : option string) (default : Z) : result Z :=
  match v with
  | Some s => or_value_error (int_of_str s)
  | None => Ok default
  end.

Definition empty_price_filter : price_filter := {| gte := None; lte := None |}.

Definition set_gte (x : float) (pf : price_filter) : price_filter :=
  {| gte := Some x; lte := lte pf |}.

Definition set_lte (x : float) (pf : price_filter) : price_filter :=
  {| gte := gte pf; lte := Some x |}.

(** [if price_filter:], a dictionary being true when it has a key. *)
Definition price_filter_truthy (pf : price_filter) : bool :=
  match gte pf, lte pf with
  | None, None => false
  | _, _ => true
  end.

(** Lines 95-105: each bound is tried when its string is not empty, and a
    [ValueError] of [float] is passed over. *)
Definition build_price_filter (min_price max_price : string) : price_filter :=
  let price_filter := empty_price_filter in
  let price_filter :=
    if truthy min_price then
      match float_of_str min_price with
      | Some x => set_gte x price_filter
      | None => price_filter
      end
    else price_filter in
  let price_filter :=
    if truthy max_price then
      match float_of_str max_price with
      | Some x => set_lte x price_filter
      | None => price_filter
      end
    else price_filter in
  price_filter.

(** Lines 90-112, on the trimmed parameters. *)
Definition build_filters (q category brand min_price max_price : string) : filters :=
  let filters := no_filters in
  let filters := if truthy category then set_category category filters else filters in
  let filters := if truthy brand then set_brand brand filters else filters in
  let price_filter := build_price_filter min_price max_price in
  let filters :=
    if price_filter_truthy price_filter then set_price price_filter filters
    else filters in
  let filters := if truthy q then set_text q filters else filters in
  filters.

(** Lines 115-122. *)
Definition sort_map : list (string * (string * direction)) :=
  [ ("newest", ("created_at", DESCENDING));
    ("price_asc", ("price", ASCENDING));
    ("price_desc", ("price", DESCENDING));
    ("rating", ("rating", DESCENDING));
    ("name_asc", ("name", ASCENDING));
    ("name_desc", ("name", DESCENDING)) ].

(** [d.get(key, default)] *)
Fixpoint dict_get {V : Type} (d : list (string * V)) (key : string) (default : V) : V :=
  match d with
  | [] => default
  | (k, v) :: r => if String.eqb k key then v else dict_get r key default
  end.

(** A document as [find] returns it: with its [score] when the projection
    [{"score": {"$meta": "textScore"}}] was given, that is when [q] is not
    empty. *)
Record item : Type := {
  doc : product;
  score : option float
}.

Definition project (q : string) (p : product) : item :=
  {| doc := p; score := if truthy q then Some (text_score q p) else None |}.

(** Line 134. [Z.div] rounds down, as [//] does. *)
Definition pages_of (total per_page : Z) : Z := (total + per_page - 1) / per_page.

(** [[c for c in values if c]]: null and the empty string are false. *)
Definition truthy_values (values : list (option string)) : list string :=
  flat_map (fun v => match v with
                     | Some s => if truthy s then [s] else []
                     | None => []
                     end) values.

(** The keyword arguments of [render_template("products.html", ...)]. *)
Record listing : Type := {
  ctx_items : list item;
  ctx_total : Z;
  ctx_page : Z;
  ctx_pages : Z;
  ctx_per_page : Z;
  ctx_q : string;
  ctx_category : string;
  ctx_brand : string;
  ctx_min_price : string;
  ctx_max_price : string;
  ctx_sort : string;
  ctx_categories : list string;
  ctx_brands : list string
}.

Local Open Scope result_scope.

Definition products (cfg : config) (store : list product) (args : listing_args)
  : result listing :=
  let q := strip (get_or (arg_q args) "") in
  let category := strip (get_or (arg_category args) "") in
  let brand := strip (get_or (arg_brand args) "") in
  let min_price := strip (get_or (arg_min_price args) "") in
  let max_price := strip (get_or (arg_max_price args) "") in
  let sort := strip (get_or (arg_sort args) "newest") in
  n <- int_arg (arg_page args) 1 ;;
  let page := Z.max 1 n in
  m <- int_arg (arg_per_page args) (PER_PAGE cfg) ;;
  let per_page := Z.max 1 (Z.min 60 m) in
  let filters := build_filters q category brand min_price max_price in
  let sort_spec := dict_get sort_map sort ("created_at", DESCENDING) in
  let total := count_documents store filters in
  let cursor :=
    cursor_limit per_page
      (cursor_skip ((page - 1) * per_page)
         (cursor_sort sort_spec (find store filters))) in
  let items := map (project q) cursor in
  let pages := pages_of total per_page in
  let categories := distinct store "category" in
  let brands := distinct store "brand" in
  Ok {| ctx_items := items;
        ctx_total := total;
        ctx_page := page;
        ctx_pages := pages;
        ctx_per_page := per_page;
        ctx_q := q;
        ctx_category := category;
        ctx_brand := brand;
        ctx_min_price := min_price;
        ctx_max_price := max_price;
        ctx_sort := sort;
        ctx_categories := sorted (truthy_values categories);
        ctx_brands := sorted (truthy_values brands) |}.

(** What a listing computes from the store: the rendered context without
    the request parameters that it echoes back to the form. *)
Definition query_result (c : listing)
  : list item * Z * Z * Z * Z * list string * list string :=
  (ctx_items c, ctx_total c, ctx_page c, ctx_pages c, ctx_per_page c,
   ctx_categories c, ctx_brands c).

(** The filter document and the sort specification of a request, as
    [products] computes them. *)
Definition request_filters (args : listing_args) : filters :=
  build_filters (strip (get_or (arg_q args) ""))
    (strip (get_or (arg_category args) ""))
    (strip (get_or (arg_brand args) ""))
    (strip (get_or (arg_min_price args) ""))
    (strip (get_or (arg_max_price args) "")).

Definition request_sort (args : listing_args) : string * direction :=
  dict_get sort_map (strip (get_or (arg_sort args) "newest")) ("created_at", DESCENDING).

(** The same request with one parameter replaced. *)
Definition with_min_price (v : option string) (a : listing_args) : listing_args :=
  {| arg_q := arg_q a; arg_category := arg_category a; arg_brand := arg_brand a;
     arg_min_price := v; arg_max_price := arg_max_price a; arg_sort := arg_sort a;
     arg_page := arg_page a; arg_per_page := arg_per_page a |}.

Definition with_max_price (v : option string) (a : listing_args) : listing_args :=
  {| arg_q := arg_q a; arg_category := arg_category a; arg_brand := arg_brand a;
     arg_min_price := arg_min_price a; arg_max_price := v; arg_sort := arg_sort a;
     arg_page := arg_page a; arg_per_page := arg_per_page a |}.

Definition with_sort (v : option string) (a : listing_args) : listing_args :=
  {| arg_q := arg_q a; arg_category := arg_category a; arg_brand := arg_brand a;
     arg_min_price := arg_min_price a; arg_max_price := arg_max_price a; arg_sort := v;
     arg_page := arg_page a; arg_per_page := arg_per_page a |}.

(** A rendered context with one of the echoed parameters replaced. *)
Definition echo_min_price (v : string) (c : listing) : listing :=
  {| ctx_items := ctx_items c; ctx_total := ctx_total c; ctx_page := ctx_page c;
     ctx_pages := ctx_pages c; ctx_per_page := ctx_per_page c; ctx_q := ctx_q c;
     ctx_category := ctx_category c; ctx_brand := ctx_brand c;
     ctx_min_price := v; ctx_max_price := ctx_max_price c; ctx_sort := ctx_sort c;
     ctx_categories := ctx_categories c; ctx_brands := ctx_brands c |}.

Definition echo_max_price (v : string) (c : listing) : listing :=
  {| ctx_items := ctx_items c; ctx_total := ctx_total c; ctx_page := ctx_page c;
     ctx_pages := ctx_pages c; ctx_per_page := ctx_per_page c; ctx_q := ctx_q c;
     ctx_category := ctx_category c; ctx_brand := ctx_brand c;
     ctx_min_price := ctx_min_price c; ctx_max_price := v; ctx_sort := ctx_sort c;
     ctx_categories := ctx_categories c; ctx_brands := ctx_brands c |}.

Definition echo_sort (v : string) (c : listing) : listing :=
  {| ctx_items := ctx_items c; ctx_total := ctx_total c; ctx_page := ctx_page c;
     ctx_pages := ctx_pages c; ctx_per_page := ctx_per_page c; ctx_q := ctx_q c;
     ctx_category := ctx_category c; ctx_brand := ctx_brand c;
     ctx_min_price := ctx_min_price c; ctx_max_price := ctx_max_price c; ctx_sort := v;
     ctx_categories := ctx_categories c; ctx_brands := ctx_brands c |}.

End Listing.

(** ** Product creation: [admin_new], src/app.py 201-237 *)

Section Admin.
Import PyStr.

Context {num : PyNum}.

(** [unicodedata.normalize("NFKD", s).encode("ascii", "ignore").decode("ascii")] *)
Variable nfkd_ascii : string -> string.

Inductive http_method : Type := GET | POST.

(** The fields of the posted form, each given or not. *)
Record form_data : Type := {
  form_name : option string;
  form_slug : option string;
  form_brand : option string;
  form_category : option string;
  form_price : option string;
  form_sale_price : option string;
  form_description : option string;
  form_ingredients : option string;
  form_skin_type : option string;
  form_image_url : option string;
  form_rating : option string;
  form_stock : option string;
  form_is_featured : option string
}.

Record admin_request : Type := {
  method : http_method;
  header_admin_token : option string;
  arg_token : option string;
  form : form_data
}.

Inductive endpoint : Type :=
| to_admin_new
| to_product_detail (slug_or_id : string).

(** What the view answers: [abort(code)], a rendered template, or a
    redirect to [url_for(endpoint)] after [flash(message, category)]. *)
Inductive response : Type :=
| Abort (code : Z)
| Render (template : string)
| Redirect (target : endpoint) (message : string) (flash_category : string).

(** [a or b] where [a] is a string or [None] *)
Definition or_else (a : option string) (b : option string) : option string :=
  match a with
  | Some s => if truthy s then Some s else b
  | None => b
  end.

(** [a or b] where [b] is a string *)
Definition or_string (a : option string) (b : string) : string :=
  match a with
  | Some s => if truthy s then s else b
  | None => b
  end.

(** [float(form.get(key, default) or fallback)] *)
Definition float_field (v : option string) (default : string) (fallback : float)
  : result float :=
  let s := get_or v default in
  if truthy s then or_value_error (float_of_str s) else Ok fallback.

(** [int(form.get(key, default) or fallback)] *)
Definition int_field (v : option string) (default : string) (fallback : Z)
  : result Z :=
  let s := get_or v default in
  if truthy s then or_value_error (int_of_str s) else Ok fallback.

(** [bool(form.get(key))] *)
Definition bool_field (v : option string) : bool :=
  match v with
  | Some s => truthy s
  | None => false
  end.

(** [url_for("static", filename="img/placeholder.svg")] *)
Definition placeholder_url : string := "/static/img/placeholder.svg".

Local Open Scope result_scope.

(** Lines 214-230: the document of a posted form.  [t_created] and
    [t_updated] are the two readings of [datetime.utcnow()]. *)
Definition new_doc (f : form_data) (name : string) (t_created t_updated : Z)
  : result product :=
  let slug := Slug.slugify nfkd_ascii (or_string (form_slug f) name) in
  let brand := strip (get_or (form_brand f) "") in
  let category := strip (get_or (form_category f) "") in
  price <- float_field (form_price f) "0" (float_of_int 0) ;;
  sale_price <- float_field (form_sale_price f) "0" (float_of_int 0) ;;
  let description := strip (get_or (form_description f) "") in
  let ingredients := strip (get_or (form_ingredients f) "") in
  let skin_type := strip (get_or (form_skin_type f) "") in
  let image_url :=
    or_string (Some (strip (get_or (form_image_url f) ""))) placeholder_url in
  rating <- float_field (form_rating f) "4.8" float_4_8 ;;
  stock <- int_field (form_stock f) "100" 100 ;;
  Ok {| name := name;
        slug := slug;
        brand := Some brand;
        category := Some category;
        price := price;
        sale_price := sale_price;
        description := description;
        ingredients := ingredients;
        skin_type := skin_type;
        image_url := Some image_url;
        rating := rating;
        stock := stock;
        is_featured := bool_field (form_is_featured f);
        created_at := t_created;
        updated_at := t_updated |}.

(** The view.  It answers and leaves a store, the collection
    [app.mongo.products]; an exception leaves the store as it was. *)
Definition admin_new (cfg : config) (t_created t_updated : Z)
  (store : list product) (req : admin_request)
  : result response * list product :=
  let token := or_else (header_admin_token req) (arg_token req) in
  if negb (opt_string_eqb token (Some (ADMIN_TOKEN cfg))) then
    (Ok (Abort 403), store)
  else
    match method req with
    | GET => (Ok (Render "admin_new_product.html"), store)
    | POST =>
        let form := form req in
        let name := strip (get_or (form_name form) "") in
        if negb (truthy name) then
          (Ok (Redirect to_admin_new "Name is required" "warning"), store)
        else
          match new_doc form name t_created t_updated with
          | Raise e => (Raise e, store)
          | Ok doc =>
              match find_one_by_slug store (slug doc) with
              | Some existing =>
                  (Ok (Redirect to_admin_new
                         "A product with that slug already exists." "danger"),
                   store)
              | None =>
                  (Ok (Redirect (to_product_detail (slug doc))
                         "Product created." "success"),
                   insert_one store doc)
              end
          end
    end.

(** The invariant of the product store in the specification: slugs are
    unique, prices and sale prices are not negative. *)
Definition non_negative (x : float) : Prop := num_le (float_of_int 0) x = true.

Definition unique_slugs (store : list product) : Prop := NoDup (map slug store).

Definition store_invariant (store : list product) : Prop :=
  unique_slugs store
  /\ Forall (fun p => non_negative (price p) /\ non_negative (sale_price p)) store.

End Admin.

(** ** A reference implementation of the interfaces

    Enough of Python and of the store to run the views: integers and plain
    decimal numerals with their exact values, a text search by substring of
    the name, and the ASCII encoding that drops what is not ASCII. *)

Module Ref.
Import PyStr.

Definition digit_value (c : ascii) : Z := Z.of_N (code c) - 48.

(** The white space that [int] and [float] pass over at both ends. *)
Definition is_blank (c : ascii) : bool :=
  (in_range 9 13 c || N.eqb (code c) 32 || N.eqb (code c) 133 || N.eqb (code c) 160)%bool.

(** Digits, with single underscores allowed between two of them. *)
Fixpoint digitpart (acc : Z) (s : string) : option Z :=
  match s with
  | EmptyString => None
  | String c r =>
      if is_digit c then
        let acc := acc * 10 + digit_value c in
        match r with
        | EmptyString => Some acc
        | String d r' => if Ascii.eqb d "_" then digitpart acc r' else digitpart acc r
        end
      else None
  end.

Definition signed {A : Type} (opp : A -> A) (parse : string -> option A) (s : string)
  : option A :=
  match s with
  | EmptyString => None
  | String c r =>
      if Ascii.eqb c "-" then option_map opp (parse r)
      else if Ascii.eqb c "+" then parse r
      else parse s
  end.

Definition parse_int (s : string) : option Z :=
  signed Z.opp (digitpart 0) (strip_by is_blank s).

(** The digits after the point: [n / d] is the value read so far. *)
Fixpoint fraction (n : Z) (d : positive) (s : string) : option Q :=
  match s with
  | EmptyString => Some (n # d)
  | String c r =>
      if is_digit c then fraction (n * 10 + digit_value c) (d * 10) r else None
  end.

(** One digit or more, then possibly a point and more digits. *)
Fixpoint numeral (acc : Z) (seen_digit : bool) (s : string) : option Q :=
  match s with
  | EmptyString => if seen_digit then Some (acc # 1) else None
  | String c r =>
      if is_digit c then numeral (acc * 10 + digit_value c) true r
      else if (Ascii.eqb c "." && seen_digit)%bool then fraction acc 1 r
      else None
  end.

Definition parse_float (s : string) : option Q :=
  signed Qopp (numeral 0 false) (strip_by is_blank s).

#[export] Instance num : PyNum := {|
  float := Q;
  int_of_str := parse_int;
  float_of_str := parse_float;
  float_of_int := inject_Z;
  float_4_8 := (24 # 5)%Q;
  num_le := Qle_bool
|}.

Fixpoint contains (q s : string) : bool :=
  (String.prefix q s
   || match s with
      | EmptyString => false
      | String _ r => contains q r
      end)%bool.

#[export] Instance txt : TextIndex := {|
  text_match := fun q p => contains q (name p);
  text_score := fun _ _ => 1%Q
|}.

(** [s.encode("ascii", "ignore").decode("ascii")] *)
Fixpoint ascii_only (s : string) : string :=
  match s with
  | EmptyString => EmptyString
  | String c r => if is_ascii c then String c (ascii_only r) else ascii_only r
  end.

(** A product as the seeders make them, the fields that the examples do
    not look at left empty. *)
Definition sample (name slug brand category : string) (price : Q) (created_at : Z)
  : product :=
  {| name := name; slug := slug; brand := Some brand; category := Some category;
     price := price; sale_price := price; description := ""; ingredients := "";
     skin_type := ""; image_url := None; rating := 24 # 5; stock := 100;
     is_featured := false; created_at := created_at; updated_at := created_at |}.

Definition catalog : list product :=
  [ sample "Velvet Matte" "velvet-matte" "LuxeLily" "Lipstick" (750 # 1) 10;
    sample "Glow Serum" "glow-serum" "AuraGlow" "Serum" (1200 # 1) 20;
    sample "Ruby Shine" "ruby-shine" "GeniusBaby" "Lipstick" (60 # 1) 30;
    sample "Sun Shield" "sun-shield" "SafariGlow" "" (990 # 1) 40 ].

Definition no_args : listing_args :=
  {| arg_q := None; arg_category := None; arg_brand := None; arg_min_price := None;
     arg_max_price := None; arg_sort := None; arg_page := None; arg_per_page := None |}.

(** Requests for the examples. *)
Definition mixed_args : listing_args :=
  {| arg_q := None; arg_category := Some "Lipstick"; arg_brand := Some " ";
     arg_min_price := None; arg_max_price := None; arg_sort := None;
     arg_page := Some "-3"; arg_per_page := Some "1000" |}.

Definition inverted_range : listing_args :=
  with_min_price (Some "100") (with_max_price (Some "50") no_args).

Definition admin_post (f : form_data) : admin_request :=
  {| method := POST; header_admin_token := Some "evalynemwende20";
     arg_token := None; form := f |}.

Definition soap (price : string) : form_data :=
  {| form_name := Some "Soap"; form_slug := None; form_brand := None;
     form_category := None; form_price := Some price; form_sale_price := None;
     form_description := None; form_ingredients := None; form_skin_type := None;
     form_image_url := None; form_rating := None; form_stock := None;
     form_is_featured := None |}.

Definition slugs_of (r : result listing) : result (list string) :=
  map_result (fun c => map (fun it => slug (doc it)) (ctx_items c)) r.

End Ref.

(** The ceiling of a quotient as the specification words it, on the
    rationals. *)
Definition ceiling_of_quotient (total per_page : Z) : Z :=
  Qceiling (inject_Z total / inject_Z per_page).

(** ** What a listing owes to the store *)

Module Contract.

Section WithStore.

Context {num : PyNum} {txt : TextIndex}.

(** A rendered listing returns the documents that [keep] selects: the
    total counts them, the items are the page cut out of them once sorted,
    the page holds as many of them as the limit and the skip leave, each a
    document of the store that [keep] selects, and a first page that is
    long enough for all of them shows exactly them. *)
Definition returns_the_matches (store : list product) (order : string * direction)
  (keep : product -> bool) (ctx : listing) : Prop :=
  ctx_total ctx = Z.of_nat (List.length (filter keep store))
  /\ map doc (ctx_items ctx)
     = cursor_limit (ctx_per_page ctx)
         (cursor_skip ((ctx_page ctx - 1) * ctx_per_page ctx)
            (cursor_sort order (filter keep store)))
  /\ Z.of_nat (List.length (ctx_items ctx))
     = Z.max 0 (Z.min (ctx_per_page ctx)
                  (ctx_total ctx - (ctx_page ctx - 1) * ctx_per_page ctx))
  /\ (forall p, In p (map doc (ctx_items ctx)) -> In p store /\ keep p = true)
  /\ (ctx_page ctx = 1 -> ctx_total ctx <= ctx_per_page ctx ->
      Permutation (map doc (ctx_items ctx)) (filter keep store)
      /\ forall p, In p (map doc (ctx_items ctx)) <-> In p store /\ keep p = true).

(** The documents of the category [c]. *)
Definition of_category (c : string) (p : product) : bool :=
  opt_string_eqb (category p) (Some c).

End WithStore.

(** Two price ranges on the reference catalogue. *)
Definition from_50_to_800 : listing_args :=
  with_min_price (Some "50") (with_max_price (Some " 800 ") Ref.no_args).

Definition up_to_800 : listing_args :=
  with_max_price (Some "800") Ref.no_args.

End Contract.

(** ** More of Python's text operations *)

Module PyText.
Import PyStr.

(** [s.startswith(p)] *)
Fixpoint startswith (p s : string) : bool :=
  match p, s with
  | EmptyString, _ => true
  | String a p', String b s' => (Ascii.eqb a b && startswith p' s')%bool
  | String _ _, EmptyString => false
  end.

(** [needle in s] *)
Fixpoint contains (needle s : string) : bool :=
  (startswith needle s
   || match s with
      | EmptyString => false
      | String _ r => contains needle r
      end)%bool.

(** [s[n:]] *)
Fixpoint drop (n : nat) (s : string) : string :=
  match n, s with
  | O, _ => s
  | S k, String _ r => drop k r
  | S _, EmptyString => EmptyString
  end.

(** [s.endswith(p)] *)
Definition endswith (p s : string) : bool :=
  String.eqb (drop (String.length s - String.length p) s) p.

(** [s.split(sep)] for a separator of one character: never an empty
    list, the empty string gives one empty part. *)
Fixpoint split_on (sep : ascii) (s : string) : list string :=
  match s with
  | EmptyString => [EmptyString]
  | String c r =>
      if Ascii.eqb c sep then EmptyString :: split_on sep r
      else match split_on sep r with
           | h :: t => String c h :: t
           | [] => [String c EmptyString]
           end
  end.

(** The word that is being read at the front of [s] (empty when [s] starts
    with white space or is empty), and the words after it. *)
Fixpoint words_from (s : string) : string * list string :=
  match s with
  | EmptyString => (EmptyString, [])
  | String c r =>
      let (w, ws) := words_from r in
      if is_space c then (EmptyString, if truthy w then w :: ws else ws)
      else (String c w, ws)
  end.

(** [s.split()]: the words between runs of white space. *)
Definition split_words (s : string) : list string :=
  let (w, ws) := words_from s in
  if truthy w then w :: ws else ws.

(** Two characters that match under [re.I]: equal up to the case of a
    letter.  This is the whole of it for code points below 256; beyond
    them [re.I] lets the letter [s] of a pattern match the long s
    (U+017F) as well, and no other letter of the patterns of src/aa.py
    has such a second form. *)
Definition same_letter (a b : ascii) : bool :=
  Ascii.eqb (lower_char a) (lower_char b).

(** A literal of a pattern at the front of [s]: what follows it.  With
    [ignore_case] the letters match in either case. *)
Fixpoint literal (ignore_case : bool) (p s : string) : option string :=
  match p, s with
  | EmptyString, _ => Some s
  | String a p', String b s' =>
      if (if ignore_case then same_letter a b else Ascii.eqb a b)
      then literal ignore_case p' s' else None
  | String _ _, EmptyString => None
  end.

(** The first [n] characters of [s] (all of it when it is shorter). *)
Fixpoint take (n : nat) (s : string) : string :=
  match n, s with
  | O, _ => EmptyString
  | S k, String c r => String c (take k r)
  | S _, EmptyString => EmptyString
  end.

End PyText.

(** ** The phone number of a payment: [_format_phone], src/payments_mpesa.py 34-37 *)

Module Mpesa.
Import PyStr PyText.

(** [\d{n}] at the front of [s]: what follows the [n] digits.  The texts
    of this development hold code points below 256, and among those the
    decimal digits are [0] to [9]; in a text with other code points [\d]
    also takes the decimal digits of the other scripts, so what is said
    of the digits of an accepted number is said of texts in ASCII. *)
Fixpoint digits (n : nat) (s : string) : option string :=
  match n with
  | O => Some s
  | S k =>
      match s with
      | EmptyString => None
      | String c r => if is_digit c then digits k r else None
      end
  end.

(** [$] without [re.MULTILINE]: at the end of the text, or before a
    newline that ends it. *)
Definition at_end (rest : string) : bool :=
  match rest with
  | EmptyString => true
  | String c EmptyString => Ascii.eqb c "010"
  | String _ (String _ _) => false
  end.

(** One branch of the alternation followed by [$]. *)
Definition branch (prefix : string) (phone : string) : bool :=
  match literal false prefix phone with
  | Some rest =>
      match digits 8 rest with
      | Some rest' => at_end rest'
      | None => false
      end
  | None => false
  end.

(** [re.match(r"^(?:2547\d{8}|07\d{8})$", phone)] *)
Definition phone_matches (phone : string) : bool :=
  (branch "2547" phone || branch "07" phone)%bool.

Definition _format_phone (phone : string) : option string :=
  if phone_matches phone then
    Some (if startswith "07" phone then ("254" ++ drop 1 phone)%string else phone)
  else None.

End Mpesa.

(** ** The image scraper: src/aa.py *)

Module Scraper.
Import PyStr PyText.

(** The class of the pattern: any character but white space, the single
    and the double quote, and the two angle brackets. *)
Definition url_char (c : ascii) : bool :=
  negb (is_space c || Ascii.eqb c "'" || Ascii.eqb c "034" || Ascii.eqb c "<"
        || Ascii.eqb c ">")%bool.

(** One or more characters of the class, as few as possible, then [.jpg],
    at the front of [s]: one character of the class, then the literal if
    it is there, else one character more.  The result is the text
    matched. *)
Fixpoint lazy_jpg (s : string) : option string :=
  match s with
  | EmptyString => None
  | String c r =>
      if url_char c then
        match literal true ".jpg" r with
        | Some _ => Some (String c (take 4 r))
        | None => option_map (String c) (lazy_jpg r)
        end
      else None
  end.

(** [https?://] at the front of [s]: the length of what it matched. *)
Definition scheme (s : string) : option nat :=
  match literal true "http" s with
  | Some r =>
      match literal true "s" r with
      | Some r' =>
          match literal true "://" r' with
          | Some _ => Some 8%nat
          | None => match literal true "://" r with Some _ => Some 7%nat | None => None end
          end
      | None => match literal true "://" r with Some _ => Some 7%nat | None => None end
      end
  | None => None
  end.

(** The whole pattern at the front of [s]. *)
Definition jpg_at (s : string) : option string :=
  match scheme s with
  | Some n =>
      match lazy_jpg (drop n s) with
      | Some body => Some (take n s ++ body)%string
      | None => None
      end
  | None => None
  end.

(** [re.search] of the pattern of lines 22 and 28 with [re.I], group 1:
    [http], possibly [s], [://], the lazy run of the class and [.jpg]; the
    match at the first position that has one. *)
Fixpoint jpg_search (s : string) : option string :=
  match jpg_at s with
  | Some m => Some m
  | None =>
      match s with
      | EmptyString => None
      | String _ r => jpg_search r
      end
  end.

(** [pick_jpg], lines 24-29. *)
Definition pick_jpg (url : string) : option string :=
  if negb (truthy url) then None else jpg_search url.

(** The scheme with the letters of the pattern themselves: [http://] or
    [https://] at the front, in either case. *)
Definition plain_scheme (u : string) : Prop :=
  startswith "http://" (lower u) = true \/ startswith "https://" (lower u) = true.

(** What the scraper means by a jpg link: no white space, quote or angle
    bracket in it, [.jpg] at the end and [http] at the front, in either
    case, and [://] after [http] or one character later.  The character
    in between is whatever [s] matches under [re.I], so nothing is said
    of it here. *)
Definition good_jpg (u : string) : Prop :=
  all_chars url_char u = true
  /\ endswith ".jpg" (lower u) = true
  /\ startswith "http" (lower u) = true
  /\ (startswith "://" (drop 4 u) = true \/ startswith "://" (drop 5 u) = true).

(** A jpg link whose scheme is plain: what a match is in a text of code
    points below 256. *)
Definition plain_jpg (u : string) : Prop :=
  all_chars url_char u = true
  /\ endswith ".jpg" (lower u) = true
  /\ plain_scheme u.

(** The attributes of an [img] tag that the scraper reads. *)
Record img_tag : Type := {
  data_src : option string;
  onerror : option string;
  src : option string;
  srcset : option string
}.

(** What a call gives: a value, or the [IndexError] of [split()[0]]. *)
Inductive scraped (A : Type) : Type :=
| Returned (a : A)
| IndexError.

Arguments Returned {A} a.
Arguments IndexError {A}.

Section WithUrljoin.

(** [urllib.parse.urljoin] *)
Variable urljoin : string -> string -> string.

(** An attribute that is there and not empty, resolved and cut to its jpg
    (steps 1 and 3). *)
Definition jpg_of_attribute (v : option string) (base_url : string) : option string :=
  match v with
  | Some a =>
      if truthy a then
        match pick_jpg (urljoin base_url (strip a)) with
        | Some u => if truthy u then Some u else None
        | None => None
        end
      else None
  | None => None
  end.

(** The loop over [ss.split(",")] (step 4). *)
Fixpoint first_in_srcset (parts : list string) (base_url : string)
  : scraped (option string) :=
  match parts with
  | [] => Returned None
  | part :: rest =>
      match split_words (strip part) with
      | [] => IndexError
      | cand :: _ =>
          match pick_jpg (urljoin base_url cand) with
          | Some u => if truthy u then Returned (Some u) else first_in_srcset rest base_url
          | None => first_in_srcset rest base_url
          end
      end
  end.

(** [extract_img_url], lines 31-65. *)
Definition extract_img_url (img : img_tag) (base_url : string)
  : scraped (option string) :=
  match jpg_of_attribute (data_src img) base_url with
  | Some ds => Returned (Some ds)
  | None =>
      let onerr := match onerror img with
                   | Some a => if truthy a then a else EmptyString
                   | None => EmptyString
                   end in
      match jpg_search onerr with
      | Some m => Returned (pick_jpg (urljoin base_url m))
      | None =>
          match jpg_of_attribute (src img) base_url with
          | Some u => Returned (Some u)
          | None =>
              match srcset img with
              | Some ss =>
                  if truthy ss then first_in_srcset (split_on "," ss) base_url
                  else Returned None
              | None => Returned None
              end
          end
      end
  end.

(** The loop of [get_product_jpgs], lines 73-80, over the tags that
    [soup.select] found: [seen] is the set, [urls] the list. *)
Fixpoint collect_jpgs (imgs : list img_tag) (page_url : string)
  (seen urls : list string) : scraped (list string) :=
  match imgs with
  | [] => Returned urls
  | img :: rest =>
      match extract_img_url img page_url with
      | IndexError => IndexError
      | Returned None => collect_jpgs rest page_url seen urls
      | Returned (Some u) =>
          if (truthy u && endswith ".jpg" (lower u)
              && negb (existsb (String.eqb u) seen))%bool
          then collect_jpgs rest page_url (u :: seen) (urls ++ [u])
          else collect_jpgs rest page_url seen urls
      end
  end.

(** [get_product_jpgs], lines 67-80, after the page was fetched and
    parsed. *)
Definition product_jpgs (imgs : list img_tag) (page_url : string)
  : scraped (list string) :=
  collect_jpgs imgs page_url [] [].

End WithUrljoin.

End Scraper.

(** ** The other views of src/app.py and the contact form of src/contact_bp.py *)

Module Views.
Import PyStr PyText.

(** A redirect after [flash(message, category)], or a rendered template. *)
Inductive reply : Type :=
| Redirected (url : string) (message : string) (flash_category : string)
| Rendered (template : string).

(** [request.referrer or url_for("home")] *)
Definition referrer_or_home (referrer : option string) : string :=
  or_string referrer "/".

(** *** [subscribe], src/app.py 170-182 *)

Record subscriber : Type := {
  sub_email : string;
  sub_created_at : Z
}.

(** [db.subscribers.find_one({"email": email})] *)
Definition find_subscriber (subscribers : list subscriber) (email : string)
  : option subscriber :=
  List.find (fun s => String.eqb (sub_email s) email) subscribers.

Definition subscribe (now : Z) (subscribers : list subscriber)
  (form_email referrer : option string) : reply * list subscriber :=
  let email := lower (strip (get_or form_email "")) in
  if (negb (truthy email) || negb (contains "@" email))%bool then
    (Redirected (referrer_or_home referrer)
       "Please provide a valid email address." "warning",
     subscribers)
  else
    match find_subscriber subscribers email with
    | Some existing =>
        (Redirected (referrer_or_home referrer)
           "You're already subscribed. Thank you!" "info",
         subscribers)
    | None =>
        (Redirected (referrer_or_home referrer) "Subscribed successfully!" "success",
         (subscribers ++ [{| sub_email := email; sub_created_at := now |}])%list)
    end.

(** The state of the [subscribers] collection that [subscribe] keeps: no
    address twice, every address with an [@] in it and in the form in
    which [subscribe] looks it up (trimmed, lower case). *)
Definition subscribers_ok (subscribers : list subscriber) : Prop :=
  NoDup (map sub_email subscribers)
  /\ Forall (fun s => contains "@" (sub_email s) = true
                      /\ lower (strip (sub_email s)) = sub_email s) subscribers.

(** *** The two contact forms *)

(** A document of the [contacts] collection: [contact_submit] writes no
    phone, [contact] no date. *)
Record contact_doc : Type := {
  c_name : string;
  c_email : string;
  c_phone : option string;
  c_message : string;
  c_created_at : option Z
}.

(** [contact_submit], src/app.py 185-198 *)
Definition contact_submit (now : Z) (contacts : list contact_doc)
  (form_name form_email form_message referrer : option string)
  : reply * list contact_doc :=
  let name := strip (get_or form_name "") in
  let email := lower (strip (get_or form_email "")) in
  let message := strip (get_or form_message "") in
  if negb (truthy name && truthy email && truthy message)%bool then
    (Redirected (referrer_or_home referrer) "All fields are required." "warning",
     contacts)
  else
    (Redirected (referrer_or_home referrer)
       "Message sent! We'll get back to you soon." "success",
     (contacts ++ [{| c_name := name; c_email := email; c_phone := None;
                      c_message := message; c_created_at := Some now |}])%list).

Section ContactBlueprint.

(** Building the confirmation [Message] for a name, an address and a
    message and sending it with [current_app.mail.send]: [None] when it
    went, the text of the exception otherwise. *)
Variable send_confirmation : string -> string -> string -> option string.

(** [contact], src/contact_bp.py 6-49.  [url_for("contact.contact")] is
    [/contact-us]. *)
Definition contact (method : http_method) (contacts : list contact_doc)
  (form_name form_email form_phone form_message : option string)
  : reply * list contact_doc :=
  match method with
  | POST =>
      let name := strip (or_string form_name "") in
      let email := strip (or_string form_email "") in
      let phone := strip (or_string form_phone "") in
      let message := strip (or_string form_message "") in
      if (negb (truthy name) || negb (truthy email) || negb (truthy message))%bool then
        (Redirected "/contact-us" "Name, email, and message are required." "warning",
         contacts)
      else
        let doc := {| c_name := name; c_email := email; c_phone := Some phone;
                      c_message := message; c_created_at := None |} in
        let contacts := (contacts ++ [doc])%list in
        match send_confirmation name email message with
        | None =>
            (Redirected "/contact-us"
               "Message saved and confirmation email sent." "success",
             contacts)
        | Some e =>
            (Redirected "/contact-us"
               ("Message saved but email not sent: " ++ e)%string "warning",
             contacts)
        end
  | GET => (Rendered "contact-us.html", contacts)
  end.

End ContactBlueprint.

(** *** [home], src/app.py 70-76 *)

Section Home.

Context {num : PyNum}.

(** The keyword arguments of [render_template("index.html", ...)]. *)
Record home_page : Type := {
  home_featured : list product;
  home_latest : list product;
  home_categories : list (option string);
  home_brands : list (option string)
}.

(** [find(...).sort("created_at", DESCENDING).limit(8)] *)
Definition newest (n : Z) (docs : list product) : list product :=
  cursor_limit n (cursor_sort ("created_at", DESCENDING) docs).

Definition home (store : list product) : home_page :=
  {| home_featured := newest 8 (filter is_featured store);
     home_latest := newest 8 store;
     home_categories := distinct store "category";
     home_brands := distinct store "brand" |}.

End Home.

(** *** [product_detail], src/app.py 155-167 *)

(** [bson.ObjectId]: the identifiers, their equality, and [ObjectId(s)]
    for a string, [None] where [ObjectId.is_valid(s)] is false. *)
Class ObjectIds : Type := {
  oid : Type;
  oid_eqb : oid -> oid -> bool;
  oid_of_str : string -> option oid
}.

Section Detail.

Context {num : PyNum} {ids : ObjectIds}.

(** A product as the collection holds it, with its [_id]. *)
Record stored : Type := {
  _id : oid;
  body : product
}.

(** [404], or the keyword arguments of
    [render_template("product_detail.html", ...)]. *)
Inductive detail : Type :=
| NotFound
| Detail (item : stored) (related : list stored).

(** [{"category": doc.get("category"), "_id": {"$ne": doc["_id"]}}] *)
Definition related_to (d r : stored) : bool :=
  (opt_string_eqb (category (body r)) (category (body d))
   && negb (oid_eqb (_id r) (_id d)))%bool.

Definition newer_first (a b : stored) : bool :=
  sort_le ("created_at", DESCENDING) (body a) (body b).

Definition product_detail (store : list stored) (slug_or_id : string) : detail :=
  let doc :=
    match oid_of_str slug_or_id with
    | Some i => List.find (fun d => oid_eqb (_id d) i) store
    | None => None
    end in
  let doc :=
    match doc with
    | Some d => Some d
    | None => List.find (fun d => String.eqb (slug (body d)) slug_or_id) store
    end in
  match doc with
  | None => NotFound
  | Some d =>
      Detail d (cursor_limit 8 (sort_by newer_first (filter (related_to d) store)))
  end.

End Detail.

End Views.

(** ** Walking the pages of a listing *)

Module Paging.

Section WithStore.

Context {num : PyNum} {txt : TextIndex}.

(** The same request for another page. *)
Definition with_page (v : option string) (a : listing_args) : listing_args :=
  {| arg_q := arg_q a; arg_category := arg_category a; arg_brand := arg_brand a;
     arg_min_price := arg_min_price a; arg_max_price := arg_max_price a;
     arg_sort := arg_sort a; arg_page := v; arg_per_page := arg_per_page a |}.

(** The documents that a listing shows, none when the view raised. *)
Definition shown (r : result listing) : list product :=
  match r with
  | Ok c => map doc (ctx_items c)
  | Raise _ => []
  end.

(** The page numbers from 1 to [n]. *)
Definition page_numbers (n : Z) : list Z :=
  map Z.of_nat (seq 1 (Z.to_nat n)).

End WithStore.

End Paging.

(** ** The form of a slug *)

Module SlugForm.
Import PyStr.

(** What a finished slug looks like: lower-case letters, digits and
    hyphens, no hyphen at either end and no two hyphens in a row. *)
Definition slug_form (t : string) : Prop :=
  all_chars is_slug_char t = true
  /\ (forall r, t <> String "-" r)
  /\ (forall r, t <> (r ++ "-")%string)
  /\ (forall a b, t <> (a ++ "--" ++ b)%string).

End SlugForm.

(** ** The forms of a phone number *)

Module PhoneForm.
Import PyStr.

(** A line feed, or nothing. *)
Definition line_end (e : string) : Prop :=
  e = EmptyString \/ e = String "010" EmptyString.

(** Eight decimal digits. *)
Definition eight_digits (d : string) : Prop :=
  String.length d = 8%nat /\ all_chars is_digit d = true.

End PhoneForm.

(** ** More of the reference implementation: identifiers, a small
    [urljoin], and the data of the examples *)

Module RefMore.
Import PyStr PyText Ref Views Paging Scraper.

Definition is_hex (c : ascii) : bool :=
  (is_digit c || in_range 97 102 c || in_range 65 70 c)%bool.

(** Identifiers written as 24 hexadecimal digits, in lower case. *)
#[export] Instance ids : ObjectIds := {|
  oid := string;
  oid_eqb := String.eqb;
  oid_of_str := fun s =>
    if (Nat.eqb (String.length s) 24 && all_chars is_hex s)%bool
    then Some (lower s) else None
|}.

(** The reference catalogue with identifiers. *)
Definition shelf : list stored :=
  [ {| _id := "65f000000000000000000001";
       body := sample "Velvet Matte" "velvet-matte" "LuxeLily" "Lipstick" (750 # 1) 10 |};
    {| _id := "65f000000000000000000002";
       body := sample "Glow Serum" "glow-serum" "AuraGlow" "Serum" (1200 # 1) 20 |};
    {| _id := "65f000000000000000000003";
       body := sample "Ruby Shine" "ruby-shine" "GeniusBaby" "Lipstick" (60 # 1) 30 |};
    {| _id := "65f000000000000000000004";
       body := sample "Sun Shield" "sun-shield" "SafariGlow" "" (990 # 1) 40 |} ].

Definition readers : list subscriber :=
  [ {| sub_email := "amina@example.com"; sub_created_at := 1 |} ].

(** The page numbers 1, 2 and 3 as a browser sends them. *)
Definition page_text (k : Z) : string :=
  if k =? 1 then "1" else if k =? 2 then "2" else "3".

Definition three_a_page : listing_args :=
  {| arg_q := None; arg_category := None; arg_brand := None; arg_min_price := None;
     arg_max_price := None; arg_sort := None; arg_page := None;
     arg_per_page := Some "3" |}.

(** An absolute link as it is, any other one after the base. *)
Definition join (base url : string) : string :=
  if startswith "http" (lower url) then url else (base ++ url)%string.

Definition tag (data_src onerror src srcset : option string) : img_tag :=
  {| data_src := data_src; onerror := onerror; src := src; srcset := srcset |}.

Definition tags : list img_tag :=
  [ tag (Some " /img/ruby.JPG?w=200 ") None None None;
    tag None None (Some "/img/placeholder.png") (Some "/img/a.png 1x, /img/serum.jpg 2x");
    tag None None (Some "https://shop.example/img/ruby.JPG") None ].

Definition wrong_header : admin_request :=
  {| method := POST; header_admin_token := Some "guess";
     arg_token := Some "evalynemwende20"; form := soap "5" |}.

End RefMore.

(* ================================================================== *)
(** * Theorems *)
(* ================================================================== *)

(** ** Characters *)

Module PyStrFacts.
Import PyStr.

Ltac by_cases_on_char c :=
  destruct c as [[] [] [] [] [] [] [] []]; vm_compute; try reflexivity; try discriminate; auto.

Example strip_blanks : strip "  price_asc  " = "price_asc".
Proof. reflexivity. Qed.

Example strip_inner_blank_kept : strip (String "009" "Body Lotion ") = "Body Lotion".
Proof. reflexivity. Qed.

Example strip_hyphens : strip_by is_hyphen "--a-b--" = "a-b".
Proof. reflexivity. Qed.

Example lower_mixed : lower "Lip-Gloss 2X" = "lip-gloss 2x".
Proof. reflexivity. Qed.

Example sub_runs_example : Slug.re_sub_non_alnum "  Lip & Cheek (2x)" = "-Lip-Cheek-2x-".
Proof. reflexivity. Qed.

Lemma alnum_not_hyphen c : is_alnum c = true -> is_hyphen c = false.
Proof. by_cases_on_char c. Qed.

Lemma hyphen_is c : is_hyphen c = true -> c = "-"%char.
Proof. unfold is_hyphen. apply Ascii.eqb_eq. Qed.

Lemma lower_char_alnum c : is_alnum (lower_char c) = is_alnum c.
Proof. by_cases_on_char c. Qed.

Lemma lower_char_hyphen c : is_hyphen (lower_char c) = is_hyphen c.
Proof. by_cases_on_char c. Qed.

Lemma lower_char_idem c : lower_char (lower_char c) = lower_char c.
Proof. by_cases_on_char c. Qed.

Lemma lower_char_slug c :
  (is_alnum c || is_hyphen c)%bool = true -> is_slug_char (lower_char c) = true.
Proof. by_cases_on_char c. Qed.

Lemma slug_char_ascii c : is_slug_char c = true -> is_ascii c = true.
Proof. by_cases_on_char c. Qed.

Lemma lower_idem s : lower (lower s) = lower s.
Proof. induction s; simpl; [|rewrite lower_char_idem, IHs]; reflexivity. Qed.

Lemma all_chars_impl (f g : ascii -> bool) s :
  (forall c, f c = true -> g c = true) ->
  all_chars f s = true -> all_chars g s = true.
Proof.
  intros Hfg. induction s as [|c r IH]; simpl; [reflexivity|].
  rewrite !andb_true_iff. intros [Hc Hr]. split; auto.
Qed.

Lemma all_chars_lower (f g : ascii -> bool) s :
  (forall c, f c = true -> g (lower_char c) = true) ->
  all_chars f s = true -> all_chars g (lower s) = true.
Proof.
  intros Hfg. induction s as [|c r IH]; simpl; [reflexivity|].
  rewrite !andb_true_iff. intros [Hc Hr]. split; auto.
Qed.

(** *** Stripping *)

Lemma rstrip_by_idem f s : rstrip_by f (rstrip_by f s) = rstrip_by f s.
Proof.
  induction s as [|c r IH]; simpl; [reflexivity|].
  destruct (rstrip_by f r) as [|d r'] eqn:E.
  - destruct (f c) eqn:Hc; simpl; [reflexivity|]. rewrite Hc. reflexivity.
  - change (rstrip_by f (String c (String d r'))) with
      (match rstrip_by f (String d r') with
       | EmptyString => if f c then EmptyString else String c EmptyString
       | String d0 r0 => String c (String d0 r0)
       end).
    rewrite IH. reflexivity.
Qed.

Lemma rstrip_by_no_trailing f s r c :
  rstrip_by f s = (r ++ String c EmptyString)%string -> f c = false.
Proof.
  revert r. induction s as [|a s IH]; intros r; simpl.
  - destruct r; discriminate.
  - destruct (rstrip_by f s) as [|d s'] eqn:E.
    + destruct (f a) eqn:Ha.
      * destruct r; discriminate.
      * destruct r as [|b r]; simpl; intros H; inversion H; subst; auto.
        destruct r; discriminate.
    + destruct r as [|b r]; simpl; intros H; inversion H; subst.
      apply (IH r). assumption.
Qed.

Lemma rstrip_by_lower s :
  rstrip_by is_hyphen (lower s) = lower (rstrip_by is_hyphen s).
Proof.
  induction s as [|c r IH]; simpl; [reflexivity|].
  rewrite IH. destruct (rstrip_by is_hyphen r) as [|d r']; simpl.
  - rewrite lower_char_hyphen. destruct (is_hyphen c); reflexivity.
  - reflexivity.
Qed.

End PyStrFacts.

(** ** [slugify] *)

Module SlugFacts.
Import PyStr Slug PyStrFacts.

Lemma shape_weaken s : shape true s = true -> shape false s = true.
Proof.
  destruct s as [|c r]; simpl; [reflexivity|].
  destruct (is_alnum c); [auto|]. rewrite andb_false_r. discriminate.
Qed.

Lemma sub_runs_shape b s : shape b (sub_runs b s) = true.
Proof.
  revert b. induction s as [|c r IH]; intros b; simpl; [reflexivity|].
  destruct (is_alnum c) eqn:Hc.
  - simpl. rewrite Hc. apply IH.
  - destruct b; [apply IH|]. simpl. apply IH.
Qed.

Lemma sub_runs_fixed b s : shape b s = true -> sub_runs b s = s.
Proof.
  revert b. induction s as [|c r IH]; intros b; simpl; [reflexivity|].
  destruct (is_alnum c).
  - intros H. rewrite (IH _ H). reflexivity.
  - rewrite !andb_true_iff. intros [[Hh Hb] Hr].
    destruct b; [discriminate|].
    rewrite (IH _ Hr), (hyphen_is _ Hh). reflexivity.
Qed.

Lemma lstrip_shape b s :
  shape b s = true -> shape true (lstrip_by is_hyphen s) = true.
Proof.
  revert b. induction s as [|c r IH]; intros b; simpl; [reflexivity|].
  destruct (is_alnum c) eqn:Hc.
  - rewrite (alnum_not_hyphen _ Hc). simpl. rewrite Hc. auto.
  - rewrite !andb_true_iff. intros [[Hh _] Hr]. rewrite Hh. eapply IH, Hr.
Qed.

Lemma lstrip_fixed s : shape true s = true -> lstrip_by is_hyphen s = s.
Proof.
  destruct s as [|c r]; simpl; [reflexivity|].
  destruct (is_alnum c) eqn:Hc.
  - rewrite (alnum_not_hyphen _ Hc). reflexivity.
  - rewrite andb_false_r. discriminate.
Qed.

Lemma rstrip_shape b s :
  shape b s = true -> shape b (rstrip_by is_hyphen s) = true.
Proof.
  revert b. induction s as [|c r IH]; intros b; [reflexivity|].
  change (rstrip_by is_hyphen (String c r)) with
    (match rstrip_by is_hyphen r with
     | EmptyString => if is_hyphen c then EmptyString else String c EmptyString
     | String d r' => String c (String d r')
     end).
  change (shape b (String c r)) with
    (if is_alnum c then shape false r
     else (is_hyphen c && negb b && shape true r)%bool).
  intros H.
  destruct (rstrip_by is_hyphen r) as [|d r'] eqn:E.
  - destruct (is_alnum c) eqn:Hc.
    + rewrite (alnum_not_hyphen _ Hc). simpl. rewrite Hc. reflexivity.
    + apply andb_true_iff in H as [H _]. apply andb_true_iff in H as [Hh _].
      rewrite Hh. reflexivity.
  - change (shape b (String c (String d r'))) with
      (if is_alnum c then shape false (String d r')
       else (is_hyphen c && negb b && shape true (String d r'))%bool).
    destruct (is_alnum c).
    + apply IH, H.
    + apply andb_true_iff in H as [H Hr]. rewrite H. apply IH, Hr.
Qed.

Lemma lower_shape b s : shape b (lower s) = shape b s.
Proof.
  revert b. induction s as [|c r IH]; intros b; simpl; [reflexivity|].
  rewrite lower_char_alnum, lower_char_hyphen, !IH. reflexivity.
Qed.

Lemma shape_chars b s :
  shape b s = true -> all_chars (fun c => is_alnum c || is_hyphen c)%bool s = true.
Proof.
  revert b. induction s as [|c r IH]; intros b; simpl; [reflexivity|].
  destruct (is_alnum c); simpl.
  - apply IH.
  - rewrite !andb_true_iff. intros [[Hh _] Hr]. split; eauto.
Qed.

Section WithNormalizer.

Variable nfkd_ascii : string -> string.

(** NFKD leaves ASCII text alone (no ASCII character decomposes), and
    encoding an ASCII text to ASCII drops nothing. *)
Hypothesis nfkd_ascii_on_ascii :
  forall s, all_chars is_ascii s = true -> nfkd_ascii s = s.

Lemma slugify_shape s : shape true (slugify nfkd_ascii s) = true.
Proof.
  unfold slugify, strip_by, re_sub_non_alnum.
  rewrite lower_shape. apply rstrip_shape.
  eapply lstrip_shape, sub_runs_shape.
Qed.

Lemma slugify_chars s : all_chars is_slug_char (slugify nfkd_ascii s) = true.
Proof.
  unfold slugify, strip_by, re_sub_non_alnum.
  apply all_chars_lower with (f := fun c => (is_alnum c || is_hyphen c)%bool).
  - apply lower_char_slug.
  - eapply shape_chars, rstrip_shape, lstrip_shape, sub_runs_shape.
Qed.

Lemma slugify_rstrip_fixed s :
  rstrip_by is_hyphen (slugify nfkd_ascii s) = slugify nfkd_ascii s.
Proof.
  unfold slugify, strip_by.
  rewrite rstrip_by_lower, rstrip_by_idem. reflexivity.
Qed.

Lemma slugify_lower_fixed s : lower (slugify nfkd_ascii s) = slugify nfkd_ascii s.
Proof. unfold slugify. apply lower_idem. Qed.

(** A string that already has the form of a slug is its own slug. *)
Lemma slugify_fixed t :
  all_chars is_slug_char t = true ->
  shape true t = true ->
  rstrip_by is_hyphen t = t ->
  lower t = t ->
  slugify nfkd_ascii t = t.
Proof.
  intros Hchars Hshape Hr Hlow.
  unfold slugify, re_sub_non_alnum, strip_by.
  rewrite nfkd_ascii_on_ascii
    by (eapply all_chars_impl; [apply slug_char_ascii | exact Hchars]).
  rewrite (sub_runs_fixed _ _ (shape_weaken _ Hshape)).
  rewrite (lstrip_fixed _ Hshape), Hr. exact Hlow.
Qed.

(** C10. [slugify] is idempotent, its result is made of lower-case ASCII
    letters, digits and hyphens only, and has no hyphen at either end. *)
Theorem slugify_idempotent_and_clean :
  forall s : string,
    slugify nfkd_ascii (slugify nfkd_ascii s) = slugify nfkd_ascii s
    /\ all_chars is_slug_char (slugify nfkd_ascii s) = true
    /\ (forall r, slugify nfkd_ascii s <> String "-" r)
    /\ (forall r, slugify nfkd_ascii s <> (r ++ "-")%string).
Proof.
  intros s.
  pose proof (slugify_shape s) as Hshape.
  pose proof (slugify_chars s) as Hchars.
  pose proof (slugify_rstrip_fixed s) as Hr.
  repeat split.
  - apply slugify_fixed; auto using slugify_lower_fixed.
  - exact Hchars.
  - intros r E. rewrite E in Hshape. discriminate.
  - intros r E. rewrite E in Hr.
    apply rstrip_by_no_trailing in Hr. discriminate.
Qed.

End WithNormalizer.

End SlugFacts.

(** ** Sorting and cursors *)

Module SortFacts.

Section Sorting.

Context {A : Type} (le : A -> A -> bool).

Lemma insert_by_perm x l : Permutation (insert_by le x l) (x :: l).
Proof.
  induction l as [|y r IH]; simpl; [reflexivity|].
  destruct (le x y); [reflexivity|].
  rewrite IH. apply perm_swap.
Qed.

Lemma sort_by_perm l : Permutation (sort_by le l) l.
Proof.
  induction l as [|x r IH]; simpl; [reflexivity|].
  rewrite insert_by_perm. constructor. exact IH.
Qed.

Lemma sort_by_length l : List.length (sort_by le l) = List.length l.
Proof. apply Permutation_length, sort_by_perm. Qed.

Lemma sort_by_In x l : In x (sort_by le l) <-> In x l.
Proof.
  split; apply Permutation_in; [|symmetry]; apply sort_by_perm.
Qed.

Hypothesis le_total : forall a b, le a b = true \/ le b a = true.

Lemma insert_by_sorted x l :
  Sorted (fun a b => le a b = true) l ->
  Sorted (fun a b => le a b = true) (insert_by le x l).
Proof.
  induction 1 as [|y r Hr IH Hhd]; simpl.
  - repeat constructor.
  - destruct (le x y) eqn:Hxy.
    + repeat constructor; assumption.
    + constructor; [exact IH|].
      destruct r as [|z r]; simpl.
      * constructor. destruct (le_total x y); congruence.
      * destruct (le x z).
        -- constructor. destruct (le_total x y); congruence.
        -- constructor. inversion Hhd; assumption.
Qed.

Lemma sort_by_sorted l : Sorted (fun a b => le a b = true) (sort_by le l).
Proof.
  induction l as [|x r IH]; simpl; [constructor|].
  apply insert_by_sorted, IH.
Qed.

End Sorting.

Section Slices.

Context {A : Type} (R : A -> A -> Prop).

Lemma Sorted_tail x l : Sorted R (x :: l) -> Sorted R l.
Proof. inversion 1; assumption. Qed.

Lemma Sorted_skipn n l : Sorted R l -> Sorted R (skipn n l).
Proof.
  revert l. induction n as [|n IH]; intros l H; [exact H|].
  destruct l as [|x l]; [exact H|]. simpl. apply IH. eapply Sorted_tail, H.
Qed.

Lemma Sorted_firstn n l : Sorted R l -> Sorted R (firstn n l).
Proof.
  revert l. induction n as [|n IH]; intros l H; [constructor|].
  destruct l as [|x l]; [constructor|]. simpl.
  inversion H as [|? ? Hl Hhd]; subst. constructor; [apply IH, Hl|].
  destruct n; [constructor|].
  destruct l; [constructor|]. simpl. constructor. inversion Hhd; assumption.
Qed.

End Slices.




Lemma cursor_limit_sorted {A : Type} (R : A -> A -> Prop) n l :
  Sorted R l -> Sorted R (cursor_limit n l).
Proof.
  intros H. unfold cursor_limit. destruct (n =? 0); [exact H|].
  apply Sorted_firstn, H.
Qed.

Lemma cursor_limit_In {A : Type} n (l : list A) x :
  In x (cursor_limit n l) -> In x l.
Proof.
  unfold cursor_limit. destruct (n =? 0); [auto|]. intros H.
  rewrite <- (firstn_skipn (Z.to_nat (Z.abs n)) l). apply in_or_app. auto.
Qed.

Lemma cursor_skip_In {A : Type} n (l : list A) x :
  In x (cursor_skip n l) -> In x l.
Proof.
  unfold cursor_skip. intros H.
  rewrite <- (firstn_skipn (Z.to_nat n) l). apply in_or_app. auto.
Qed.

Lemma filter_nothing {A : Type} (f : A -> bool) (l : list A) :
  (forall x, In x l -> f x = false) -> filter f l = [].
Proof.
  induction l as [|x l IH]; simpl; [reflexivity|]. intros H.
  rewrite (H x (or_introl eq_refl)). apply IH. intros y Hy. apply H. right. exact Hy.
Qed.

End SortFacts.

(** ** The listing *)

Module ListingFacts.
Import PyStr SortFacts.

(** The quotient rounded up, between integers. *)
Lemma pages_of_bounds total per_page :
  0 < per_page ->
  (pages_of total per_page - 1) * per_page < total <= pages_of total per_page * per_page.
Proof.
  intros Hp. unfold pages_of.
  pose proof (Z.div_mod (total + per_page - 1) per_page ltac:(lia)) as E.
  pose proof (Z.mod_pos_bound (total + per_page - 1) per_page Hp) as B.
  nia.
Qed.

Lemma ceiling_of_quotient_bounds total per_page :
  0 < per_page ->
  (ceiling_of_quotient total per_page - 1) * per_page < total
    <= ceiling_of_quotient total per_page * per_page.
Proof.
  intros Hp. unfold ceiling_of_quotient, Qceiling.
  destruct per_page as [|p|p]; try lia.
  assert (E : Qfloor (- (inject_Z total / inject_Z (Z.pos p))) = (- total) / Z.pos p).
  { unfold Qfloor, Qdiv, Qmult, Qinv, Qopp, inject_Z. simpl.
    rewrite Z.mul_1_r. reflexivity. }
  rewrite E.
  pose proof (Z.div_mod (- total) (Z.pos p) ltac:(lia)) as D.
  pose proof (Z.mod_pos_bound (- total) (Z.pos p) ltac:(lia)) as B.
  nia.
Qed.

Lemma ceiling_unique per_page total a b :
  0 < per_page ->
  (a - 1) * per_page < total <= a * per_page ->
  (b - 1) * per_page < total <= b * per_page ->
  a = b.
Proof. intros. nia. Qed.

Section WithStore.

Context {num : PyNum} {txt : TextIndex}.

Lemma products_pages cfg store args ctx :
  products cfg store args = Ok ctx ->
  ctx_pages ctx = pages_of (ctx_total ctx) (ctx_per_page ctx)
  /\ 0 <= ctx_total ctx
  /\ 1 <= ctx_page ctx
  /\ 1 <= ctx_per_page ctx <= 60.
Proof.
  unfold products. intros H.
  destruct (int_arg (arg_page args) 1) as [n|]; [|discriminate].
  destruct (int_arg (arg_per_page args) (PER_PAGE cfg)) as [m|]; [|discriminate].
  cbn [bind] in H. injection H as <-. cbn.
  unfold count_documents. repeat split; lia.
Qed.

(** C1. For a total that is not negative and a positive page size,
    [(total + per_page - 1) / per_page] is the ceiling of the quotient
    [total / per_page], it is 0 when the total is 0, and it is the [pages]
    that the listing returns for that total and page size. *)
Theorem pages_is_ceiling :
  forall total per_page : Z,
    0 <= total -> 0 < per_page ->
    pages_of total per_page = ceiling_of_quotient total per_page
    /\ (total = 0 -> pages_of total per_page = 0)
    /\ (forall cfg store args ctx,
          products cfg store args = Ok ctx ->
          ctx_total ctx = total -> ctx_per_page ctx = per_page ->
          ctx_pages ctx = ceiling_of_quotient total per_page).
Proof.
  intros total per_page Ht Hp.
  assert (E : pages_of total per_page = ceiling_of_quotient total per_page).
  { apply (ceiling_unique per_page total); auto using pages_of_bounds,
      ceiling_of_quotient_bounds. }
  split; [exact E|]. split.
  - intros ->. unfold pages_of. apply Z.div_small. lia.
  - intros cfg store args ctx H <- <-.
    destruct (products_pages _ _ _ _ H) as [-> _]. exact E.
Qed.

Ltac products_inv H n m :=
  unfold products in H;
  destruct (int_arg (arg_page _) 1) as [n|] eqn:?; [|discriminate H];
  destruct (int_arg (arg_per_page _) (PER_PAGE _)) as [m|] eqn:?; [|discriminate H];
  cbn [bind] in H; injection H as <-.

Lemma map_doc_project q l : map doc (map (project q) l) = l.
Proof.
  induction l as [|p l IH]; simpl; [reflexivity|]. rewrite IH. reflexivity.
Qed.

Lemma products_items cfg store args ctx :
  products cfg store args = Ok ctx ->
  map doc (ctx_items ctx)
  = cursor_limit (ctx_per_page ctx)
      (cursor_skip ((ctx_page ctx - 1) * ctx_per_page ctx)
         (cursor_sort (request_sort args) (find store (request_filters args))))
  /\ ctx_total ctx = Z.of_nat (List.length (find store (request_filters args))).
Proof.
  intros H. products_inv H n m. cbn [ctx_items ctx_per_page ctx_page ctx_total].
  rewrite map_doc_project. split; reflexivity.
Qed.

Lemma products_matching cfg store args ctx :
  products cfg store args = Ok ctx ->
  ctx_total ctx
  = Z.of_nat (List.length (filter (matches (request_filters args)) store))
  /\ forall it, In it (ctx_items ctx) ->
       In (doc it) store /\ matches (request_filters args) (doc it) = true.
Proof.
  intros H. destruct (products_items _ _ _ _ H) as [Hitems Htotal].
  split; [exact Htotal|]. intros it Hit.
  assert (Hin : In (doc it) (find store (request_filters args))).
  { apply (sort_by_In (sort_le (request_sort args))).
    eapply cursor_skip_In, cursor_limit_In.
    unfold cursor_sort in Hitems. rewrite <- Hitems. apply in_map, Hit. }
  apply filter_In in Hin. exact Hin.
Qed.

Lemma products_gives_a_listing cfg store args n m :
  int_arg (arg_page args) 1 = Ok n ->
  int_arg (arg_per_page args) (PER_PAGE cfg) = Ok m ->
  exists ctx, products cfg store args = Ok ctx.
Proof.
  intros Hn Hm. unfold products. rewrite Hn, Hm. cbn [bind]. eexists. reflexivity.
Qed.

Lemma products_returns cfg store args ctx (keep : product -> bool) :
  products cfg store args = Ok ctx ->
  (forall p, In p store -> matches (request_filters args) p = keep p) ->
  Contract.returns_the_matches store (request_sort args) keep ctx.
Proof.
  intros H Hkeep.
  destruct (products_pages _ _ _ _ H) as (_ & _ & Hpg & Hpp).
  destruct (products_items _ _ _ _ H) as [Hitems Htotal].
  unfold find in Hitems, Htotal.
  rewrite (filter_ext_in _ _ _ Hkeep) in Hitems, Htotal.
  split; [exact Htotal|]. split; [exact Hitems|].
  split.
  { rewrite <- (length_map doc), Hitems, Htotal.
    unfold cursor_limit, cursor_skip, cursor_sort.
    destruct (Z.eqb_spec (ctx_per_page ctx) 0); [lia|].
    rewrite length_firstn, length_skipn, sort_by_length.
    assert (0 <= (ctx_page ctx - 1) * ctx_per_page ctx) by nia. lia. }
  split.
  { intros p Hp. rewrite Hitems in Hp.
    apply cursor_limit_In, cursor_skip_In in Hp.
    unfold cursor_sort in Hp.
    apply (proj1 (sort_by_In (sort_le (request_sort args)) _ _)) in Hp.
    apply filter_In in Hp. exact Hp. }
  intros Hpage Hall.
  assert (Hperm : Permutation (map doc (ctx_items ctx)) (filter keep store)).
  { rewrite Hitems, Hpage. change ((1 - 1) * ctx_per_page ctx) with 0.
    unfold cursor_skip, cursor_limit, cursor_sort. cbn [Z.to_nat skipn].
    destruct (Z.eqb_spec (ctx_per_page ctx) 0); [lia|].
    rewrite firstn_all2 by (rewrite sort_by_length; lia).
    apply sort_by_perm. }
  split; [exact Hperm|]. intros p. rewrite <- filter_In. split.
  - apply Permutation_in, Hperm.
  - apply Permutation_in. symmetry. exact Hperm.
Qed.


(** C5, amended. When [page] and [per_page] are absent or are strings that
    [int] accepts, the listing is rendered with [page] raised to 1 when it
    is below 1 and [per_page] brought into the range from 1 to 60; a value
    out of range is never an error. *)
Theorem page_and_per_page_clamped :
  forall cfg store args n m,
    int_arg (arg_page args) 1 = Ok n ->
    int_arg (arg_per_page args) (PER_PAGE cfg) = Ok m ->
    exists ctx,
      products cfg store args = Ok ctx
      /\ ctx_page ctx = Z.max 1 n
      /\ ctx_per_page ctx = Z.max 1 (Z.min 60 m)
      /\ (n < 1 -> ctx_page ctx = 1)
      /\ (1 <= n -> ctx_page ctx = n)
      /\ (m < 1 -> ctx_per_page ctx = 1)
      /\ (60 < m -> ctx_per_page ctx = 60)
      /\ (1 <= m <= 60 -> ctx_per_page ctx = m).
Proof.
  intros cfg store args n m Hn Hm. unfold products. rewrite Hn, Hm.
  cbn [bind]. eexists. split; [reflexivity|].
  cbn [ctx_page ctx_per_page]. repeat split; lia.
Qed.

Lemma build_price_filter_bad_min s mx :
  float_of_str s = None -> build_price_filter s mx = build_price_filter "" mx.
Proof.
  intros H. unfold build_price_filter. rewrite H. cbn [truthy].
  destruct (truthy s); reflexivity.
Qed.

Lemma build_price_filter_bad_max mn s :
  float_of_str s = None -> build_price_filter mn s = build_price_filter mn "".
Proof.
  intros H. unfold build_price_filter. rewrite H. cbn [truthy].
  destruct (truthy s); reflexivity.
Qed.

Lemma build_filters_bad_min q c b s mx :
  float_of_str s = None -> build_filters q c b s mx = build_filters q c b "" mx.
Proof.
  intros H. unfold build_filters. rewrite (build_price_filter_bad_min _ _ H).
  reflexivity.
Qed.

Lemma build_filters_bad_max q c b mn s :
  float_of_str s = None -> build_filters q c b mn s = build_filters q c b mn "".
Proof.
  intros H. unfold build_filters. rewrite (build_price_filter_bad_max _ _ H).
  reflexivity.
Qed.

Lemma strip_empty : strip "" = "".
Proof. reflexivity. Qed.

(** C3. A [min_price] or [max_price] that [float] rejects is dropped: the
    filter document is the one of the request without the parameter, and
    the listing answers what it answers to that request (the rendered
    context only echoes the trimmed string back, the query result is the
    same), so the bound alone never makes the request fail. *)
Theorem malformed_price_bound_dropped :
  forall cfg store args s,
    float_of_str (strip s) = None ->
    (request_filters (with_min_price (Some s) args)
     = request_filters (with_min_price None args)
     /\ products cfg store (with_min_price (Some s) args)
        = map_result (echo_min_price (strip s))
            (products cfg store (with_min_price None args))
     /\ map_result query_result (products cfg store (with_min_price (Some s) args))
        = map_result query_result (products cfg store (with_min_price None args)))
    /\ (request_filters (with_max_price (Some s) args)
        = request_filters (with_max_price None args)
        /\ products cfg store (with_max_price (Some s) args)
           = map_result (echo_max_price (strip s))
               (products cfg store (with_max_price None args))
        /\ map_result query_result (products cfg store (with_max_price (Some s) args))
           = map_result query_result (products cfg store (with_max_price None args))).
Proof.
  intros cfg store args s H.
  assert (Hmin : products cfg store (with_min_price (Some s) args)
                 = map_result (echo_min_price (strip s))
                     (products cfg store (with_min_price None args))).
  { unfold products, map_result.
    cbn [with_min_price arg_q arg_category arg_brand arg_min_price arg_max_price
         arg_sort arg_page arg_per_page get_or].
    rewrite strip_empty, (build_filters_bad_min _ _ _ _ _ H).
    destruct (int_arg (arg_page args) 1); [|reflexivity].
    destruct (int_arg (arg_per_page args) (PER_PAGE cfg)); reflexivity. }
  assert (Hmax : products cfg store (with_max_price (Some s) args)
                 = map_result (echo_max_price (strip s))
                     (products cfg store (with_max_price None args))).
  { unfold products, map_result.
    cbn [with_max_price arg_q arg_category arg_brand arg_min_price arg_max_price
         arg_sort arg_page arg_per_page get_or].
    rewrite strip_empty, (build_filters_bad_max _ _ _ _ _ H).
    destruct (int_arg (arg_page args) 1); [|reflexivity].
    destruct (int_arg (arg_per_page args) (PER_PAGE cfg)); reflexivity. }
  split; (split; [|split]).
  - unfold request_filters.
    cbn [with_min_price arg_q arg_category arg_brand arg_min_price arg_max_price get_or].
    rewrite strip_empty. apply build_filters_bad_min, H.
  - exact Hmin.
  - rewrite Hmin.
    destruct (products cfg store (with_min_price None args)); reflexivity.
  - unfold request_filters.
    cbn [with_max_price arg_q arg_category arg_brand arg_min_price arg_max_price get_or].
    rewrite strip_empty. apply build_filters_bad_max, H.
  - exact Hmax.
  - rewrite Hmax.
    destruct (products cfg store (with_max_price None args)); reflexivity.
Qed.

Lemma dict_get_absent {V : Type} (d : list (string * V)) key default :
  ~ In key (map fst d) -> dict_get d key default = default.
Proof.
  induction d as [|[k v] d IH]; simpl; [reflexivity|].
  intros H. destruct (String.eqb_spec k key) as [E|_].
  - exfalso. apply H. left. exact E.
  - apply IH. intros Hin. apply H. right. exact Hin.
Qed.

Lemma Sorted_impl {A : Type} (R S : A -> A -> Prop) l :
  (forall a b, R a b -> S a b) -> Sorted R l -> Sorted S l.
Proof.
  intros HRS. induction 1 as [|x l Hl IH Hhd]; constructor; [exact IH|].
  destruct Hhd; constructor; auto.
Qed.

Lemma newest_sorted (l : list product) :
  Sorted (fun a b => created_at b <= created_at a)
    (cursor_sort ("created_at", DESCENDING) l).
Proof.
  unfold cursor_sort.
  apply Sorted_impl with
    (R := fun a b => sort_le ("created_at", DESCENDING) a b = true).
  - intros a b. unfold sort_le, key_le. cbn. apply Z.leb_le.
  - apply sort_by_sorted. intros a b. unfold sort_le, key_le. cbn.
    rewrite !Z.leb_le. lia.
Qed.

(** C4, amended. A [sort] whose trimmed value is none of the six keys of
    the table is looked up to the default, creation time descending: the
    listing answers what it answers to [sort="newest"] (the rendered
    context only echoes the trimmed string back, the query result is the
    same), its items are in descending order of creation time, and there
    is no error from it. *)
Theorem unknown_sort_is_newest :
  forall cfg store args s,
    ~ In (strip s)
        ["newest"; "price_asc"; "price_desc"; "rating"; "name_asc"; "name_desc"] ->
    request_sort (with_sort (Some s) args) = ("created_at", DESCENDING)
    /\ request_sort (with_sort (Some "newest") args) = ("created_at", DESCENDING)
    /\ products cfg store (with_sort (Some s) args)
       = map_result (echo_sort (strip s))
           (products cfg store (with_sort (Some "newest") args))
    /\ map_result query_result (products cfg store (with_sort (Some s) args))
       = map_result query_result (products cfg store (with_sort (Some "newest") args))
    /\ (forall ctx,
          products cfg store (with_sort (Some s) args) = Ok ctx ->
          Sorted (fun a b => created_at b <= created_at a) (map doc (ctx_items ctx))).
Proof.
  intros cfg store args s Hs.
  assert (E : request_sort (with_sort (Some s) args) = ("created_at", DESCENDING)).
  { unfold request_sort. cbn [with_sort arg_sort get_or].
    apply dict_get_absent. exact Hs. }
  assert (Hsame : products cfg store (with_sort (Some s) args)
                  = map_result (echo_sort (strip s))
                      (products cfg store (with_sort (Some "newest") args))).
  { unfold products, map_result.
    cbn [with_sort arg_q arg_category arg_brand arg_min_price arg_max_price
         arg_sort arg_page arg_per_page get_or].
    rewrite (dict_get_absent sort_map (strip s)) by exact Hs.
    change (dict_get sort_map (strip "newest") ("created_at", DESCENDING))
      with ("created_at", DESCENDING).
    destruct (int_arg (arg_page args) 1); [|reflexivity].
    destruct (int_arg (arg_per_page args) (PER_PAGE cfg)); reflexivity. }
  split; [exact E|]. split; [reflexivity|]. split; [exact Hsame|]. split.
  - rewrite Hsame.
    destruct (products cfg store (with_sort (Some "newest") args)); reflexivity.
  - intros ctx H. destruct (products_items _ _ _ _ H) as [-> _].
    rewrite E. apply cursor_limit_sorted.
    unfold cursor_skip. apply Sorted_skipn, newest_sorted.
Qed.

Lemma truthy_false s : truthy s = false <-> s = "".
Proof. destruct s; simpl; split; congruence. Qed.

Lemma truthy_true s : truthy s = true <-> s <> "".
Proof. destruct s; simpl; split; congruence. Qed.

Lemma build_filters_category q c b mn mx :
  f_category (build_filters q c b mn mx) = if truthy c then Some c else None.
Proof.
  unfold build_filters.
  destruct (truthy c), (truthy b), (price_filter_truthy _), (truthy q); reflexivity.
Qed.

Lemma build_filters_brand q c b mn mx :
  f_brand (build_filters q c b mn mx) = if truthy b then Some b else None.
Proof.
  unfold build_filters.
  destruct (truthy c), (truthy b), (price_filter_truthy _), (truthy q); reflexivity.
Qed.

Lemma build_filters_price q c b mn mx :
  f_price (build_filters q c b mn mx)
  = if price_filter_truthy (build_price_filter mn mx)
    then Some (build_price_filter mn mx) else None.
Proof.
  unfold build_filters.
  destruct (truthy c), (truthy b), (price_filter_truthy _), (truthy q); reflexivity.
Qed.

Lemma build_filters_text q c b mn mx :
  f_text (build_filters q c b mn mx) = if truthy q then Some q else None.
Proof.
  unfold build_filters.
  destruct (truthy c), (truthy b), (price_filter_truthy _), (truthy q); reflexivity.
Qed.

Lemma field_is_spec v field :
  field_is (if truthy v then Some v else None) field = true
  <-> v = "" \/ field = Some v.
Proof.
  destruct (truthy v) eqn:Hv; simpl.
  - apply truthy_true in Hv. destruct field as [x|]; simpl.
    + rewrite String.eqb_eq. split; [intros ->; auto|].
      intros [E|E]; [contradiction|congruence].
    + split; [discriminate|]. intros [E|E]; [contradiction|discriminate].
  - apply truthy_false in Hv. tauto.
Qed.

Lemma matches_spec fl p :
  matches fl p = true
  <-> field_is (f_category fl) (category p) = true
      /\ field_is (f_brand fl) (brand p) = true
      /\ matches_price fl p = true
      /\ matches_text fl p = true.
Proof. unfold matches. rewrite !andb_true_iff. tauto. Qed.

Lemma of_category_spec c p :
  Contract.of_category c p = true <-> category p = Some c.
Proof.
  unfold Contract.of_category. destruct (category p) as [x|]; simpl.
  - rewrite String.eqb_eq. split; congruence.
  - split; discriminate.
Qed.

(** C6. A category or brand that is empty after trimming puts no key in
    the filter document (never the key with an empty value); a document
    matches when it matches every key that is there, a category or brand
    key by equality; the listing returns the matching documents: the
    total counts them, the items are the page of them in the order of the
    sort, each item is one of them and a first page with room for all
    shows them all.  With the category "Lipstick" and nothing else, the
    matching documents, and so the ones returned, are the ones whose
    category is "Lipstick", whatever their brand.  The listing is
    returned whenever [int] accepts the page and the page size. *)
Theorem filters_are_exact_and_conjoined :
  forall cfg store args,
    let q := strip (get_or (arg_q args) "") in
    let c := strip (get_or (arg_category args) "") in
    let b := strip (get_or (arg_brand args) "") in
    let mn := strip (get_or (arg_min_price args) "") in
    let mx := strip (get_or (arg_max_price args) "") in
    let fl := request_filters args in
    (c = "" -> f_category fl = None)
    /\ (b = "" -> f_brand fl = None)
    /\ f_category fl <> Some ""
    /\ f_brand fl <> Some ""
    /\ (forall p,
          matches fl p = true
          <-> (c = "" \/ category p = Some c)
              /\ (b = "" \/ brand p = Some b)
              /\ matches_price fl p = true
              /\ matches_text fl p = true)
    /\ (forall ctx,
          products cfg store args = Ok ctx ->
          ctx_total ctx = Z.of_nat (List.length (filter (matches fl) store))
          /\ (forall it, In it (ctx_items ctx) ->
                In (doc it) store /\ matches fl (doc it) = true)
          /\ Contract.returns_the_matches store (request_sort args) (matches fl) ctx)
    /\ (c = "Lipstick" -> b = "" -> q = "" -> mn = "" -> mx = "" ->
        (forall p, matches fl p = true <-> category p = Some "Lipstick")
        /\ (forall p, Contract.of_category "Lipstick" p = true
                      <-> category p = Some "Lipstick")
        /\ forall ctx,
             products cfg store args = Ok ctx ->
             Contract.returns_the_matches store (request_sort args)
               (Contract.of_category "Lipstick") ctx)
    /\ (forall n m,
          int_arg (arg_page args) 1 = Ok n ->
          int_arg (arg_per_page args) (PER_PAGE cfg) = Ok m ->
          exists ctx, products cfg store args = Ok ctx).
Proof.
  intros cfg store args q c b mn mx fl.
  assert (Hc : f_category fl = if truthy c then Some c else None)
    by apply build_filters_category.
  assert (Hb : f_brand fl = if truthy b then Some b else None)
    by apply build_filters_brand.
  assert (Hm : forall p,
             matches fl p = true
             <-> (c = "" \/ category p = Some c)
                 /\ (b = "" \/ brand p = Some b)
                 /\ matches_price fl p = true
                 /\ matches_text fl p = true).
  { intros p. rewrite matches_spec, Hc, Hb, !field_is_spec. tauto. }
  split; [intros E; rewrite Hc, E; reflexivity|].
  split; [intros E; rewrite Hb, E; reflexivity|].
  split; [rewrite Hc; destruct c; simpl; congruence|].
  split; [rewrite Hb; destruct b; simpl; congruence|].
  split; [exact Hm|]. split; [|split; [|apply products_gives_a_listing]].
  - intros ctx H. destruct (products_matching _ _ _ _ H) as [Htotal Hitems].
    split; [exact Htotal|]. split; [exact Hitems|].
    apply (products_returns _ _ _ _ _ H). reflexivity.
  - intros Ec Eb Eq Emn Emx.
    assert (Hlip : forall p, matches fl p = true <-> category p = Some "Lipstick").
    { intros p. rewrite Hm.
      assert (Hp : matches_price fl p = true).
      { unfold matches_price, fl, request_filters. fold mn mx.
        rewrite build_filters_price, Emn, Emx. reflexivity. }
      assert (Ht : matches_text fl p = true).
      { unfold matches_text, fl, request_filters. fold q.
        rewrite build_filters_text, Eq. reflexivity. }
      rewrite Ec, Eb. split.
      - intros [[E|E] _]; [discriminate|exact E].
      - intros E. auto. }
    split; [exact Hlip|]. split; [intros p; apply of_category_spec|].
    intros ctx H. apply (products_returns _ _ _ _ _ H). intros p _. fold fl.
    apply Bool.eq_iff_eq_true. rewrite Hlip, of_category_spec. tauto.
Qed.

Lemma build_price_filter_both mn mx lo hi :
  mn <> "" -> float_of_str mn = Some lo ->
  mx <> "" -> float_of_str mx = Some hi ->
  build_price_filter mn mx = {| gte := Some lo; lte := Some hi |}.
Proof.
  intros Hmn Hlo Hmx Hhi. unfold build_price_filter.
  apply truthy_true in Hmn, Hmx. rewrite Hmn, Hmx, Hlo, Hhi. reflexivity.
Qed.

Lemma build_price_filter_max_only mx hi :
  mx <> "" -> float_of_str mx = Some hi ->
  build_price_filter "" mx = {| gte := None; lte := Some hi |}.
Proof.
  intros Hmx Hhi. unfold build_price_filter.
  apply truthy_true in Hmx. rewrite Hmx, Hhi. reflexivity.
Qed.

Lemma build_price_filter_min_only mn lo :
  mn <> "" -> float_of_str mn = Some lo ->
  build_price_filter mn "" = {| gte := Some lo; lte := None |}.
Proof.
  intros Hmn Hlo. unfold build_price_filter.
  apply truthy_true in Hmn. rewrite Hmn, Hlo. reflexivity.
Qed.

Lemma matches_price_of fl p :
  matches fl p = true -> matches_price fl p = true.
Proof. intros H. apply matches_spec in H. tauto. Qed.

Lemma matches_only_price fl p :
  f_category fl = None -> f_brand fl = None -> f_text fl = None ->
  matches fl p = matches_price fl p.
Proof.
  intros Hc Hb Ht. unfold matches, matches_text. rewrite Hc, Hb, Ht.
  cbn [field_is andb]. apply andb_true_r.
Qed.

(** C7. When both bounds are given and [float] accepts them, the filter
    document has the one price key [{"$gte": lo, "$lte": hi}] and a
    document matches it when [lo <= price] and [price <= hi], whether or
    not [lo <= hi]: nothing reorders or drops the bounds of an inverted
    range, every item of the listing lies within both, and when no
    document does the listing is empty.  A bound that is absent puts no
    condition on its side.  In each case the listing returns the
    documents that match: with no other filter, the ones within the
    bounds that are given, and all of them when none is.  The listing
    is returned whenever [int] accepts the page and the page size. *)
Theorem price_bounds_applied_literally :
  forall cfg store args,
    let q := strip (get_or (arg_q args) "") in
    let c := strip (get_or (arg_category args) "") in
    let b := strip (get_or (arg_brand args) "") in
    let mn := strip (get_or (arg_min_price args) "") in
    let mx := strip (get_or (arg_max_price args) "") in
    let fl := request_filters args in
    (forall lo hi,
        mn <> "" -> float_of_str mn = Some lo ->
        mx <> "" -> float_of_str mx = Some hi ->
        f_price fl = Some {| gte := Some lo; lte := Some hi |}
        /\ (forall p, matches_price fl p
                      = (num_le lo (price p) && num_le (price p) hi)%bool)
        /\ (forall ctx,
              products cfg store args = Ok ctx ->
              (forall it, In it (ctx_items ctx) ->
                 num_le lo (price (doc it)) = true
                 /\ num_le (price (doc it)) hi = true)
              /\ ((forall p, In p store ->
                     (num_le lo (price p) && num_le (price p) hi)%bool = false) ->
                  ctx_total ctx = 0 /\ ctx_items ctx = [])
              /\ (q = "" -> c = "" -> b = "" ->
                  Contract.returns_the_matches store (request_sort args)
                    (fun p => (num_le lo (price p) && num_le (price p) hi)%bool) ctx)))
    /\ (forall hi,
          mn = "" -> mx <> "" -> float_of_str mx = Some hi ->
          f_price fl = Some {| gte := None; lte := Some hi |}
          /\ (forall p, matches_price fl p = num_le (price p) hi)
          /\ (forall ctx,
                products cfg store args = Ok ctx -> q = "" -> c = "" -> b = "" ->
                Contract.returns_the_matches store (request_sort args)
                  (fun p => num_le (price p) hi) ctx))
    /\ (forall lo,
          mn <> "" -> float_of_str mn = Some lo -> mx = "" ->
          f_price fl = Some {| gte := Some lo; lte := None |}
          /\ (forall p, matches_price fl p = num_le lo (price p))
          /\ (forall ctx,
                products cfg store args = Ok ctx -> q = "" -> c = "" -> b = "" ->
                Contract.returns_the_matches store (request_sort args)
                  (fun p => num_le lo (price p)) ctx))
    /\ (mn = "" -> mx = "" ->
        f_price fl = None
        /\ (forall p, matches_price fl p = true)
        /\ (forall ctx,
              products cfg store args = Ok ctx -> q = "" -> c = "" -> b = "" ->
              Contract.returns_the_matches store (request_sort args)
                (fun _ => true) ctx))
    /\ (forall ctx,
          products cfg store args = Ok ctx ->
          Contract.returns_the_matches store (request_sort args) (matches fl) ctx
          /\ forall p, matches fl p
                       = (field_is (f_category fl) (category p)
                          && field_is (f_brand fl) (brand p)
                          && matches_price fl p
                          && matches_text fl p)%bool)
    /\ (forall n m,
          int_arg (arg_page args) 1 = Ok n ->
          int_arg (arg_per_page args) (PER_PAGE cfg) = Ok m ->
          exists ctx, products cfg store args = Ok ctx).
Proof.
  intros cfg store args q c b mn mx fl.
  assert (Hp : f_price fl
               = if price_filter_truthy (build_price_filter mn mx)
                 then Some (build_price_filter mn mx) else None)
    by apply build_filters_price.
  assert (Honly : q = "" -> c = "" -> b = "" ->
                  forall p, matches fl p = matches_price fl p).
  { intros Eq Ec Eb p. apply matches_only_price.
    - unfold fl, request_filters. fold c. rewrite build_filters_category, Ec. reflexivity.
    - unfold fl, request_filters. fold b. rewrite build_filters_brand, Eb. reflexivity.
    - unfold fl, request_filters. fold q. rewrite build_filters_text, Eq. reflexivity. }
  assert (Hret : forall ctx (keep : product -> bool),
             products cfg store args = Ok ctx ->
             (forall p, matches_price fl p = keep p) ->
             q = "" -> c = "" -> b = "" ->
             Contract.returns_the_matches store (request_sort args) keep ctx).
  { intros ctx keep H Hk Eq Ec Eb. apply (products_returns _ _ _ _ _ H).
    intros p _. fold fl. rewrite (Honly Eq Ec Eb). apply Hk. }
  split; [|split; [|split; [|split; [|split; [|apply products_gives_a_listing]]]]].
  - intros lo hi Hmn Hlo Hmx Hhi.
    assert (Hkey : f_price fl = Some {| gte := Some lo; lte := Some hi |})
      by (rewrite Hp, (build_price_filter_both _ _ _ _ Hmn Hlo Hmx Hhi); reflexivity).
    assert (Hmatch : forall p, matches_price fl p
                               = (num_le lo (price p) && num_le (price p) hi)%bool)
      by (intros p; unfold matches_price; rewrite Hkey; reflexivity).
    split; [exact Hkey|]. split; [exact Hmatch|].
    intros ctx H. destruct (products_matching _ _ _ _ H) as [Htotal Hitems].
    fold fl in Htotal, Hitems. split; [|split].
    + intros it Hit. destruct (Hitems it Hit) as [_ Hm].
      apply matches_price_of in Hm. rewrite Hmatch in Hm.
      apply andb_true_iff in Hm. exact Hm.
    + intros Hnone.
      assert (Hempty : filter (matches fl) store = []).
      { apply filter_nothing. intros p Hin.
        destruct (matches fl p) eqn:Hm; [|reflexivity].
        apply matches_price_of in Hm. rewrite Hmatch, (Hnone p Hin) in Hm.
        discriminate Hm. }
      split; [rewrite Htotal, Hempty; reflexivity|].
      destruct (ctx_items ctx) as [|it items]; [reflexivity|].
      destruct (Hitems it (or_introl eq_refl)) as [Hin Hm].
      apply matches_price_of in Hm. rewrite Hmatch, (Hnone _ Hin) in Hm.
      discriminate Hm.
    + apply (Hret ctx _ H Hmatch).
  - intros hi Hmn Hmx Hhi.
    assert (Hmatch : forall p, matches_price fl p = num_le (price p) hi).
    { intros p. unfold matches_price. rewrite Hp, Hmn.
      rewrite (build_price_filter_max_only _ _ Hmx Hhi). reflexivity. }
    split; [rewrite Hp, Hmn, (build_price_filter_max_only _ _ Hmx Hhi); reflexivity|].
    split; [exact Hmatch|]. intros ctx H. apply (Hret ctx _ H Hmatch).
  - intros lo Hmn Hlo Hmx.
    assert (Hmatch : forall p, matches_price fl p = num_le lo (price p)).
    { intros p. unfold matches_price. rewrite Hp, Hmx.
      rewrite (build_price_filter_min_only _ _ Hmn Hlo).
      unfold price_in. cbn. apply andb_true_r. }
    split; [rewrite Hp, Hmx, (build_price_filter_min_only _ _ Hmn Hlo); reflexivity|].
    split; [exact Hmatch|]. intros ctx H. apply (Hret ctx _ H Hmatch).
  - intros Hmn Hmx.
    assert (Hmatch : forall p, matches_price fl p = true).
    { intros p. unfold matches_price. rewrite Hp, Hmn, Hmx. reflexivity. }
    split; [rewrite Hp, Hmn, Hmx; reflexivity|].
    split; [exact Hmatch|]. intros ctx H. apply (Hret ctx _ H Hmatch).
  - intros ctx H. split; [|reflexivity].
    apply (products_returns _ _ _ _ _ H). reflexivity.
Qed.

Lemma in_truthy_values c values :
  In c (truthy_values values) <-> c <> "" /\ In (Some c) values.
Proof.
  unfold truthy_values. rewrite in_flat_map. split.
  - intros [[s|] [Hin Hc]]; [|contradiction].
    destruct (truthy s) eqn:Hs; [|contradiction].
    destruct Hc as [<-|[]]. apply truthy_true in Hs. auto.
  - intros [Hne Hin]. exists (Some c). split; [exact Hin|].
    apply truthy_true in Hne. rewrite Hne. left. reflexivity.
Qed.

Lemma in_distinct v store field :
  In v (distinct store field) <-> exists p, In p store /\ str_field field p = v.
Proof.
  unfold distinct. rewrite nodup_In, in_map_iff. split; intros [p [H1 H2]]; eauto.
Qed.

Lemma sorted_truthy_distinct store field :
  let l := sorted (truthy_values (distinct store field)) in
  Forall (fun c => c <> "") l
  /\ Sorted string_le l
  /\ forall c, In c l <-> c <> "" /\ exists p, In p store /\ str_field field p = Some c.
Proof.
  intros l. subst l. unfold sorted.
  assert (Hin : forall c,
             In c (sort_by String.leb (truthy_values (distinct store field)))
             <-> c <> "" /\ exists p, In p store /\ str_field field p = Some c).
  { intros c. rewrite sort_by_In, in_truthy_values, in_distinct. tauto. }
  split; [|split].
  - apply Forall_forall. intros c Hc. apply Hin in Hc. tauto.
  - apply sort_by_sorted. apply String.leb_total.
  - exact Hin.
Qed.

(** C8. The [categories] and [brands] of a listing hold no empty string
    (and, being strings, no null), are in ascending order, and are the
    non-empty categories and brands that occur in the store. *)
Theorem categories_and_brands_clean_sorted :
  forall cfg store args ctx,
    products cfg store args = Ok ctx ->
    (Forall (fun c => c <> "") (ctx_categories ctx)
     /\ Sorted string_le (ctx_categories ctx)
     /\ forall c, In c (ctx_categories ctx)
                  <-> c <> "" /\ exists p, In p store /\ category p = Some c)
    /\ (Forall (fun b => b <> "") (ctx_brands ctx)
        /\ Sorted string_le (ctx_brands ctx)
        /\ forall b, In b (ctx_brands ctx)
                     <-> b <> "" /\ exists p, In p store /\ brand p = Some b).
Proof.
  intros cfg store args ctx H. products_inv H n m.
  cbn [ctx_categories ctx_brands].
  split.
  - apply (sorted_truthy_distinct store "category").
  - apply (sorted_truthy_distinct store "brand").
Qed.

End WithStore.

End ListingFacts.

(** ** Product creation *)

Module AdminFacts.
Import PyStr.

Section WithRuntime.

Context {num : PyNum}.
Variable nfkd_ascii : string -> string.

Lemma find_one_by_slug_none store s :
  find_one_by_slug store s = None <-> ~ In s (map slug store).
Proof.
  unfold find_one_by_slug. induction store as [|p store IH]; simpl.
  - tauto.
  - destruct (String.eqb_spec (slug p) s) as [E|E].
    + split; [discriminate|]. intros H. exfalso. apply H. left. exact E.
    + rewrite IH. tauto.
Qed.

Lemma new_doc_fields f name t_created t_updated doc :
  new_doc nfkd_ascii f name t_created t_updated = Ok doc ->
  slug doc = Slug.slugify nfkd_ascii (or_string (form_slug f) name)
  /\ float_field (form_price f) "0" (float_of_int 0) = Ok (price doc)
  /\ float_field (form_sale_price f) "0" (float_of_int 0) = Ok (sale_price doc).
Proof.
  unfold new_doc.
  destruct (float_field (form_price f) "0" (float_of_int 0)) as [pr|]; [|discriminate].
  destruct (float_field (form_sale_price f) "0" (float_of_int 0)) as [sp|]; [|discriminate].
  destruct (float_field (form_rating f) "4.8" float_4_8) as [rt|]; [|discriminate].
  destruct (int_field (form_stock f) "100" 100) as [st|]; [|discriminate].
  cbn [bind]. intros H. injection H as <-. cbn. auto.
Qed.

Lemma unique_slugs_insert store doc :
  unique_slugs store -> ~ In (slug doc) (map slug store) ->
  unique_slugs (insert_one store doc).
Proof.
  unfold unique_slugs, insert_one. intros Hu Hnew.
  rewrite map_app. simpl. apply NoDup_app.
  - exact Hu.
  - repeat constructor. simpl. tauto.
  - intros x Hx [<-|[]]. contradiction.
Qed.

(** What a call leaves: the store as it was, or the store with the
    document of the form appended, its slug being a new one. *)
Lemma admin_new_store cfg t_created t_updated store req :
  let store' := snd (admin_new nfkd_ascii cfg t_created t_updated store req) in
  store' = store
  \/ exists doc,
       new_doc nfkd_ascii (form req) (strip (get_or (form_name (form req)) ""))
         t_created t_updated = Ok doc
       /\ ~ In (slug doc) (map slug store)
       /\ store' = insert_one store doc.
Proof.
  unfold admin_new.
  destruct (negb (opt_string_eqb _ _)); [left; reflexivity|].
  destruct (method req); [left; reflexivity|].
  destruct (negb (truthy _)); [left; reflexivity|].
  destruct (new_doc _ _ _ _ _) as [doc|e] eqn:Hdoc; [|left; reflexivity].
  destruct (find_one_by_slug store (slug doc)) eqn:Hfind; [left; reflexivity|].
  right. exists doc. apply find_one_by_slug_none in Hfind. auto.
Qed.

(** C9, amended. [admin_new] keeps the slugs of the store unique, and a
    request whose slug is already in the store inserts nothing.  The price
    and sale price it stores are the posted ones as [float] reads them,
    with no check of their sign: the whole invariant is kept by the calls
    whose posted price and sale price are not negative. *)
Theorem admin_new_keeps_slugs_unique :
  forall cfg t_created t_updated store req,
    let name := strip (get_or (form_name (form req)) "") in
    let store' := snd (admin_new nfkd_ascii cfg t_created t_updated store req) in
    (unique_slugs store -> unique_slugs store')
    /\ (In (Slug.slugify nfkd_ascii (or_string (form_slug (form req)) name))
          (map slug store) ->
        store' = store)
    /\ (store_invariant store ->
        (forall x, float_field (form_price (form req)) "0" (float_of_int 0) = Ok x ->
                   non_negative x) ->
        (forall x, float_field (form_sale_price (form req)) "0" (float_of_int 0) = Ok x ->
                   non_negative x) ->
        store_invariant store').
Proof.
  intros cfg t_created t_updated store req name store'.
  destruct (admin_new_store cfg t_created t_updated store req)
    as [E|(doc & Hdoc & Hnew & E)]; fold store' in E.
  - rewrite E. auto.
  - fold name in Hdoc. destruct (new_doc_fields _ _ _ _ _ Hdoc) as (Hslug & Hprice & Hsale).
    rewrite E. split; [|split].
    + intros Hu. apply unique_slugs_insert; assumption.
    + intros Hin. rewrite <- Hslug in Hin. contradiction.
    + intros [Hu Hpos] Hp Hs. split.
      * apply unique_slugs_insert; assumption.
      * unfold insert_one. apply Forall_app. split; [exact Hpos|].
        constructor; [|constructor]. split; [apply Hp, Hprice|apply Hs, Hsale].
Qed.

End WithRuntime.

End AdminFacts.

(** ** The views on the reference implementation *)

Module Examples.
Import PyStr Ref.

Lemma ascii_only_on_ascii s : all_chars is_ascii s = true -> ascii_only s = s.
Proof.
  induction s as [|c r IH]; simpl; [reflexivity|].
  destruct (is_ascii c); simpl; [|discriminate].
  intros H. rewrite (IH H). reflexivity.
Qed.

(** 30 matches at 12 a page: 3 pages. *)
Lemma pages_is_ceiling_witness :
  pages_of 30 12 = 3 /\ ceiling_of_quotient 30 12 = 3
  /\ pages_of 30 12 = ceiling_of_quotient 30 12.
Proof.
  split; [reflexivity|]. split; [reflexivity|].
  apply (ListingFacts.pages_is_ceiling 30 12); lia.
Defined.


(** [min_price="abc"] on the reference catalogue. *)
Lemma malformed_price_bound_dropped_witness :
  float_of_str (strip "abc") = None
  /\ products default_config catalog (with_min_price (Some "abc") no_args)
     = map_result (echo_min_price "abc")
         (products default_config catalog (with_min_price None no_args)).
Proof.
  split; [reflexivity|].
  apply (ListingFacts.malformed_price_bound_dropped default_config catalog no_args "abc").
  reflexivity.
Defined.

(** [sort="bogus_value"] on the reference catalogue. *)
Lemma unknown_sort_is_newest_witness :
  products default_config catalog (with_sort (Some "bogus_value") no_args)
  = map_result (echo_sort "bogus_value")
      (products default_config catalog (with_sort (Some "newest") no_args)).
Proof.
  apply (ListingFacts.unknown_sort_is_newest default_config catalog no_args "bogus_value").
  simpl. intros H. decompose [or] H; discriminate || assumption.
Defined.

(** C4, as stated, fails: "price_asc " with a space after it is not one of
    the six keys, and the listing sorts by price, not by creation time. *)
Lemma sort_with_blank_is_recognised :
  ~ In "price_asc "
      ["newest"; "price_asc"; "price_desc"; "rating"; "name_asc"; "name_desc"]
  /\ slugs_of (products default_config catalog (with_sort (Some "price_asc ") no_args))
     = Ok ["ruby-shine"; "velvet-matte"; "sun-shield"; "glow-serum"]
  /\ slugs_of (products default_config catalog (with_sort (Some "newest") no_args))
     = Ok ["sun-shield"; "ruby-shine"; "glow-serum"; "velvet-matte"]
  /\ slugs_of (products default_config catalog (with_sort (Some "price_asc ") no_args))
     <> slugs_of (products default_config catalog (with_sort (Some "newest") no_args)).
Proof.
  split.
  - simpl. intros H. decompose [or] H; discriminate || assumption.
  - split; [reflexivity|]. split; [reflexivity|]. vm_compute. discriminate.
Qed.

(** [page="-3"] and [per_page="1000"] become 1 and 60. *)
Lemma page_and_per_page_clamped_witness :
  exists ctx,
    products default_config catalog mixed_args = Ok ctx
    /\ ctx_page ctx = 1 /\ ctx_per_page ctx = 60.
Proof.
  destruct (ListingFacts.page_and_per_page_clamped default_config catalog
              mixed_args (-3) 1000 eq_refl eq_refl)
    as (ctx & H & Hpage & Hpp & _).
  exists ctx. split; [exact H|]. split; [exact Hpage|exact Hpp].
Defined.

(** C5, as stated, fails: a [page] that [int] rejects is not coerced to any
    integer, the view raises [ValueError]. *)
Lemma page_not_a_number_raises :
  products default_config catalog
    {| arg_q := None; arg_category := None; arg_brand := None;
       arg_min_price := None; arg_max_price := None; arg_sort := None;
       arg_page := Some "abc"; arg_per_page := None |}
  = Raise ValueError
  /\ ~ exists ctx,
         products default_config catalog
           {| arg_q := None; arg_category := None; arg_brand := None;
              arg_min_price := None; arg_max_price := None; arg_sort := None;
              arg_page := Some "abc"; arg_per_page := None |}
         = Ok ctx.
Proof.
  split; [reflexivity|]. intros [ctx H]. discriminate H.
Qed.

(** The category "Lipstick" with a blank brand: the two lipsticks. *)
Lemma filters_are_exact_and_conjoined_witness :
  f_brand (request_filters mixed_args) = None
  /\ (forall p, matches (request_filters mixed_args) p = true
                <-> category p = Some "Lipstick")
  /\ slugs_of (products default_config catalog mixed_args)
     = Ok ["ruby-shine"; "velvet-matte"]
  /\ exists ctx,
       products default_config catalog mixed_args = Ok ctx
       /\ ctx_total ctx = 2
       /\ forall p, In p (map doc (ctx_items ctx))
                    <-> In p catalog /\ Contract.of_category "Lipstick" p = true.
Proof.
  destruct (ListingFacts.filters_are_exact_and_conjoined default_config catalog mixed_args)
    as (_ & Hb & _ & _ & _ & _ & Hlip & _).
  destruct Hlip as (Hm & _ & Hret); try reflexivity.
  split; [apply Hb; reflexivity|]. split; [exact Hm|]. split; [reflexivity|].
  eexists. split; [reflexivity|]. split; [reflexivity|].
  destruct (Hret _ eq_refl) as (_ & _ & _ & _ & Hfirst).
  apply Hfirst; [reflexivity|]. cbn. lia.
Defined.

(** The inverted range from 100 to 50: both bounds kept, no item.  The
    range from 50 to 800: the two products in it. *)
Lemma price_bounds_applied_literally_witness :
  f_price (request_filters inverted_range)
  = Some {| gte := Some (100 # 1)%Q; lte := Some (50 # 1)%Q |}
  /\ map_result ctx_items (products default_config catalog inverted_range) = Ok []
  /\ slugs_of (products default_config catalog Contract.from_50_to_800)
     = Ok ["ruby-shine"; "velvet-matte"]
  /\ slugs_of (products default_config catalog Contract.up_to_800)
     = Ok ["ruby-shine"; "velvet-matte"]
  /\ exists ctx,
       products default_config catalog Contract.from_50_to_800 = Ok ctx
       /\ ctx_total ctx = 2
       /\ forall p, In p (map doc (ctx_items ctx))
                    <-> In p catalog
                        /\ (num_le (50 # 1)%Q (price p)
                            && num_le (price p) (800 # 1)%Q)%bool = true.
Proof.
  split; [|split; [reflexivity|split; [reflexivity|split; [reflexivity|]]]].
  - destruct (ListingFacts.price_bounds_applied_literally default_config catalog
                inverted_range) as [Hboth _].
    apply (Hboth (100 # 1)%Q (50 # 1)%Q); try reflexivity; discriminate.
  - eexists. split; [reflexivity|]. split; [reflexivity|].
    destruct (ListingFacts.price_bounds_applied_literally default_config catalog
                Contract.from_50_to_800) as [Hboth _].
    destruct (Hboth (50 # 1)%Q (800 # 1)%Q) as (_ & _ & Hlist);
      try reflexivity; try discriminate.
    destruct (Hlist _ eq_refl) as (_ & _ & Hret).
    destruct Hret as (_ & _ & _ & _ & Hfirst); try reflexivity.
    apply Hfirst; [reflexivity|]. cbn. lia.
Defined.

(** The reference catalogue has a product with an empty category. *)
Lemma categories_and_brands_clean_sorted_witness :
  exists ctx,
    products default_config catalog no_args = Ok ctx
    /\ ctx_categories ctx = ["Lipstick"; "Serum"]
    /\ Forall (fun c => c <> "") (ctx_categories ctx)
    /\ Sorted string_le (ctx_categories ctx).
Proof.
  eexists. split; [reflexivity|]. split; [reflexivity|].
  destruct (ListingFacts.categories_and_brands_clean_sorted default_config catalog
              no_args _ eq_refl) as [(Hne & Hsorted & _) _].
  split; [exact Hne|exact Hsorted].
Defined.

Lemma catalog_unique_slugs : unique_slugs catalog.
Proof.
  unfold unique_slugs. simpl.
  repeat constructor; simpl; intros H; decompose [or] H; discriminate || assumption.
Qed.

(** Posting a new product to the reference catalogue. *)
Lemma admin_new_keeps_slugs_unique_witness :
  unique_slugs catalog
  /\ unique_slugs
       (snd (admin_new ascii_only default_config 50 51 catalog (admin_post (soap "5")))).
Proof.
  split; [exact catalog_unique_slugs|].
  destruct (AdminFacts.admin_new_keeps_slugs_unique ascii_only default_config 50 51
              catalog (admin_post (soap "5"))) as [Hunique _].
  apply Hunique. exact catalog_unique_slugs.
Defined.

(** C9, as stated, fails: a posted price of -5 is stored as it is. *)
Lemma negative_price_is_stored :
  store_invariant []
  /\ map price (snd (admin_new ascii_only default_config 50 51 [] (admin_post (soap "-5"))))
     = [(-5 # 1)%Q]
  /\ ~ store_invariant
         (snd (admin_new ascii_only default_config 50 51 [] (admin_post (soap "-5")))).
Proof.
  split; [split; constructor|]. split; [reflexivity|].
  intros [_ H]. apply Forall_inv in H. destruct H as [H _].
  vm_compute in H. discriminate H.
Qed.

(** A slug and its slug. *)
Lemma slugify_idempotent_and_clean_witness :
  Slug.slugify ascii_only "  Hello, World!! " = "hello-world"
  /\ Slug.slugify ascii_only (Slug.slugify ascii_only "  Hello, World!! ")
     = Slug.slugify ascii_only "  Hello, World!! ".
Proof.
  split; [reflexivity|].
  apply (SlugFacts.slugify_idempotent_and_clean ascii_only ascii_only_on_ascii).
Defined.

End Examples.

(** ** Trimming and case *)

Module PyTextFacts.
Import PyStr PyText PyStrFacts.

Lemma is_space_lower c : is_space (lower_char c) = is_space c.
Proof. by_cases_on_char c. Qed.

Lemma truthy_lower s : truthy (lower s) = truthy s.
Proof. destruct s; reflexivity. Qed.

Section Strip.

Variable f : ascii -> bool.

Lemma all_chars_lstrip s : all_chars f (lstrip_by f s) = all_chars f s.
Proof.
  induction s as [|c r IH]; simpl; [reflexivity|].
  destruct (f c) eqn:Hc; simpl; [exact IH|]. rewrite Hc. reflexivity.
Qed.

Lemma rstrip_by_blank s : rstrip_by f s = EmptyString <-> all_chars f s = true.
Proof.
  induction s as [|c r IH]; simpl; [tauto|].
  destruct (rstrip_by f r) as [|d r'] eqn:E.
  - destruct (f c); simpl.
    + rewrite <- IH. tauto.
    + split; discriminate.
  - rewrite andb_true_iff, <- IH. split; [discriminate|]. intros [_ H]. discriminate H.
Qed.

Lemma strip_by_blank s : strip_by f s = EmptyString <-> all_chars f s = true.
Proof. unfold strip_by. rewrite rstrip_by_blank, all_chars_lstrip. tauto. Qed.

Lemma lstrip_by_head s :
  lstrip_by f s = EmptyString
  \/ exists c r, lstrip_by f s = String c r /\ f c = false.
Proof.
  induction s as [|c r IH]; simpl; [auto|].
  destruct (f c) eqn:Hc; [exact IH|]. right. eauto.
Qed.

Lemma rstrip_by_keeps_head c r :
  f c = false -> exists r', rstrip_by f (String c r) = String c r'.
Proof.
  intros Hc. simpl. destruct (rstrip_by f r); [rewrite Hc|]; eauto.
Qed.

Lemma strip_by_lstrip_fixed s : lstrip_by f (strip_by f s) = strip_by f s.
Proof.
  unfold strip_by. destruct (lstrip_by_head s) as [E|(c & r & E & Hc)]; rewrite E.
  - reflexivity.
  - destruct (rstrip_by_keeps_head c r Hc) as [r' E']. rewrite E'.
    simpl. rewrite Hc. reflexivity.
Qed.

Lemma strip_by_idem s : strip_by f (strip_by f s) = strip_by f s.
Proof.
  unfold strip_by at 1. rewrite strip_by_lstrip_fixed.
  unfold strip_by. apply rstrip_by_idem.
Qed.

Hypothesis f_lower : forall c, f (lower_char c) = f c.

Lemma lstrip_by_lower_any s : lstrip_by f (lower s) = lower (lstrip_by f s).
Proof.
  induction s as [|c r IH]; simpl; [reflexivity|].
  rewrite f_lower. destruct (f c); [exact IH|reflexivity].
Qed.

Lemma rstrip_by_lower_any s : rstrip_by f (lower s) = lower (rstrip_by f s).
Proof.
  induction s as [|c r IH]; simpl; [reflexivity|].
  rewrite IH, f_lower. destruct (rstrip_by f r); simpl; [|reflexivity].
  destruct (f c); reflexivity.
Qed.

Lemma strip_by_lower_any s : strip_by f (lower s) = lower (strip_by f s).
Proof. unfold strip_by. rewrite lstrip_by_lower_any, rstrip_by_lower_any. reflexivity. Qed.

End Strip.

Lemma strip_blank s : strip s = EmptyString <-> all_chars is_space s = true.
Proof. apply strip_by_blank. Qed.

Lemma truthy_strip s : truthy (strip s) = negb (all_chars is_space s).
Proof.
  destruct (all_chars is_space s) eqn:E.
  - apply strip_blank in E. rewrite E. reflexivity.
  - destruct (strip s) eqn:Es; [|reflexivity].
    apply strip_blank in Es. congruence.
Qed.

Lemma strip_idem s : strip (strip s) = strip s.
Proof. apply strip_by_idem. Qed.

Lemma strip_lower s : strip (lower s) = lower (strip s).
Proof. apply strip_by_lower_any, is_space_lower. Qed.

(** The form of an address that the views store is a fixed point. *)
Lemma normal_form_fixed s : lower (strip (lower (strip s))) = lower (strip s).
Proof. rewrite strip_lower, strip_idem. apply lower_idem. Qed.

End PyTextFacts.

(** ** Newsletter and contact forms *)

Module FormFacts.
Import PyStr PyText PyStrFacts PyTextFacts Views.

Lemma find_subscriber_none subscribers email :
  find_subscriber subscribers email = None
  <-> ~ In email (map sub_email subscribers).
Proof.
  unfold find_subscriber. induction subscribers as [|s l IH]; simpl; [tauto|].
  destruct (String.eqb_spec (sub_email s) email) as [E|E].
  - split; [discriminate|]. intros H. exfalso. apply H. left. exact E.
  - rewrite IH. tauto.
Qed.

(** What a call to [subscribe] leaves. *)
Lemma subscribe_store now subscribers form_email referrer :
  let email := lower (strip (get_or form_email "")) in
  let after := snd (subscribe now subscribers form_email referrer) in
  after = subscribers
  \/ (email <> EmptyString /\ contains "@" email = true
      /\ ~ In email (map sub_email subscribers)
      /\ after = (subscribers ++ [{| sub_email := email; sub_created_at := now |}])%list).
Proof.
  intros email after. subst after. unfold subscribe. fold email.
  destruct (truthy email) eqn:Ht; simpl; [|auto].
  destruct (contains "@" email) eqn:Hat; simpl; [|auto].
  destruct (find_subscriber subscribers email) eqn:Hf; simpl; [auto|].
  right. apply find_subscriber_none in Hf.
  repeat split; auto. intros E. rewrite E in Ht. discriminate.
Qed.

(** X1. [subscribe] keeps the subscribers well formed: no address is
    stored twice, and every stored address has an [@] and is trimmed and
    in lower case. *)
Theorem subscribe_keeps_subscribers_ok :
  forall now subscribers form_email referrer,
    subscribers_ok subscribers ->
    subscribers_ok (snd (subscribe now subscribers form_email referrer)).
Proof.
  intros now subscribers form_email referrer [Hnd Hall].
  destruct (subscribe_store now subscribers form_email referrer)
    as [E|(_ & Hat & Hnew & E)]; rewrite E; [split; assumption|].
  split.
  - rewrite map_app. simpl. apply NoDup_app.
    + exact Hnd.
    + repeat constructor. simpl. tauto.
    + intros x Hx [<-|[]]. contradiction.
  - apply Forall_app. split; [exact Hall|].
    constructor; [|constructor]. simpl. split; [exact Hat|].
    apply normal_form_fixed.
Qed.

(** X2. Subscribing again with the same address, whatever its case and
    the blanks around it, stores nothing more. *)
Theorem subscribe_twice_stores_once :
  forall now now' subscribers raw raw' referrer referrer',
    lower (strip raw) = lower (strip raw') ->
    let after := snd (subscribe now subscribers (Some raw) referrer) in
    snd (subscribe now' after (Some raw') referrer') = after.
Proof.
  intros now now' subscribers raw raw' referrer referrer' Hsame after.
  destruct (subscribe_store now' after (Some raw') referrer')
    as [E|(Hne & Hat & Hnew & _)]; [exact E|].
  exfalso. cbn [get_or] in Hne, Hat, Hnew. rewrite <- Hsame in Hne, Hat, Hnew.
  destruct (subscribe_store now subscribers (Some raw) referrer)
    as [E|(_ & _ & _ & E)]; fold after in E; cbn [get_or] in E.
  - unfold after, subscribe in E, Hnew. cbn [get_or] in E, Hnew.
    apply Hnew. clear E.
    destruct (lower (strip raw)) as [|c r] eqn:El; [congruence|]. cbn [truthy negb orb].
    rewrite Hat. cbn [negb].
    destruct (find_subscriber subscribers (String c r)) eqn:Hf; cbn [snd].
    + destruct (find_subscriber_none subscribers (String c r)) as [_ H].
      destruct (in_dec String.string_dec (String c r) (map sub_email subscribers))
        as [Hin|Hnin]; [exact Hin|]. rewrite (H Hnin) in Hf. discriminate.
    + rewrite map_app. apply in_or_app. right. left. reflexivity.
  - apply Hnew. rewrite E, map_app. apply in_or_app. right. left. reflexivity.
Qed.

(** X3. [contact_submit] takes a field of only white space for a missing
    one: it stores nothing unless name, address and message each have a
    character that is not white space, and then it appends one document
    with the three trimmed, the address in lower case. *)
Theorem contact_submit_stores_complete_forms :
  forall now contacts form_name form_email form_message referrer,
    let name := get_or form_name "" in
    let email := get_or form_email "" in
    let message := get_or form_message "" in
    snd (contact_submit now contacts form_name form_email form_message referrer)
    = if (all_chars is_space name || all_chars is_space email
          || all_chars is_space message)%bool
      then contacts
      else (contacts ++ [{| c_name := strip name; c_email := lower (strip email);
                            c_phone := None; c_message := strip message;
                            c_created_at := Some now |}])%list.
Proof.
  intros now contacts form_name form_email form_message referrer name email message.
  unfold contact_submit. fold name email message.
  rewrite truthy_lower, !truthy_strip.
  destruct (all_chars is_space name), (all_chars is_space email),
    (all_chars is_space message); reflexivity.
Qed.

(** X4. The [contact] view stores the message before it sends the
    confirmation and whatever the mail does: a [POST] with name, address
    and message appends one document (the address as typed, trimmed) and
    answers with a redirect to the form, sent or not; any other request
    stores nothing. *)
Theorem contact_stores_whatever_the_mail :
  forall send_confirmation method contacts form_name form_email form_phone form_message,
    let name := or_string form_name "" in
    let email := or_string form_email "" in
    let phone := or_string form_phone "" in
    let message := or_string form_message "" in
    let answer := contact send_confirmation method contacts
                    form_name form_email form_phone form_message in
    snd answer
    = match method with
      | GET => contacts
      | POST =>
          if (all_chars is_space name || all_chars is_space email
              || all_chars is_space message)%bool
          then contacts
          else (contacts ++ [{| c_name := strip name; c_email := strip email;
                                c_phone := Some (strip phone);
                                c_message := strip message; c_created_at := None |}])%list
      end
    /\ (method = POST ->
        exists message_shown flash_category,
          fst answer = Redirected "/contact-us" message_shown flash_category).
Proof.
  intros send_confirmation method contacts form_name form_email form_phone form_message
    name email phone message answer.
  subst answer. unfold contact. fold name email phone message.
  destruct method; [split; [reflexivity|discriminate]|].
  rewrite !truthy_strip.
  destruct (all_chars is_space name), (all_chars is_space email),
    (all_chars is_space message); cbn [negb orb];
    try (split; [reflexivity|intros _; do 2 eexists; reflexivity]).
  destruct (send_confirmation (strip name) (strip email) (strip message));
    (split; [reflexivity|intros _; do 2 eexists; reflexivity]).
Qed.

End FormFacts.

(** ** Pages and sort keys of the listing *)

Module PagingFacts.
Import PyStr SortFacts ListingFacts Paging.

(** A list cut into [n] consecutive pieces of [size] is the list, when the
    pieces reach its end. *)
Lemma pieces_make_the_list {A : Type} (size : nat) (l : list A) (n : nat) :
  (List.length l <= n * size)%nat ->
  List.concat (map (fun i => firstn size (skipn (i * size) l)) (seq 0 n)) = l.
Proof.
  revert l. induction n as [|n IH]; intros l Hlen.
  - destruct l; [reflexivity|]. simpl in Hlen. lia.
  - cbn [seq map List.concat]. rewrite <- seq_shift, map_map.
    rewrite (map_ext _ (fun i => firstn size (skipn (i * size) (skipn size l)))).
    + rewrite (IH (skipn size l)).
      * cbn [Nat.mul]. apply firstn_skipn.
      * rewrite length_skipn. lia.
    + intros i. rewrite skipn_skipn. f_equal. f_equal. lia.
Qed.

Section WithStore.

Context {num : PyNum} {txt : TextIndex}.

Lemma products_page cfg store args n m :
  int_arg (arg_page args) 1 = Ok n ->
  int_arg (arg_per_page args) (PER_PAGE cfg) = Ok m ->
  shown (products cfg store args)
  = cursor_limit (Z.max 1 (Z.min 60 m))
      (cursor_skip ((Z.max 1 n - 1) * Z.max 1 (Z.min 60 m))
         (cursor_sort (request_sort args) (find store (request_filters args)))).
Proof.
  intros Hn Hm. unfold products. rewrite Hn, Hm. cbn [bind shown ctx_items].
  apply map_doc_project.
Qed.

Lemma pages_make_the_sorted_list cfg store args m (numeral : Z -> string) :
  int_arg (arg_per_page args) (PER_PAGE cfg) = Ok m ->
  let per_page := Z.max 1 (Z.min 60 m) in
  let matching := cursor_sort (request_sort args) (find store (request_filters args)) in
  let pages := pages_of (Z.of_nat (List.length matching)) per_page in
  (forall k, 1 <= k <= pages -> int_of_str (numeral k) = Some k) ->
  List.concat (map (fun k => shown (products cfg store (with_page (Some (numeral k)) args)))
            (page_numbers pages))
  = matching.
Proof.
  intros Hm per_page matching pages Hnum.
  assert (Hpp : 1 <= per_page) by (subst per_page; lia).
  pose proof (pages_of_bounds (Z.of_nat (List.length matching)) per_page ltac:(lia)) as B.
  fold pages in B.
  assert (Hpages : 0 <= pages) by nia.
  transitivity
    (List.concat
       (map (fun i => firstn (Z.to_nat per_page) (skipn (i * Z.to_nat per_page) matching))
          (seq 0 (Z.to_nat pages))));
    [|apply pieces_make_the_list; nia].
  unfold page_numbers. rewrite <- seq_shift, !map_map. f_equal.
  apply map_ext_in. intros i Hi. apply in_seq in Hi.
  rewrite (products_page cfg store (with_page (Some (numeral (Z.of_nat (S i)))) args)
             (Z.of_nat (S i)) m).
  - cbn [with_page request_sort request_filters arg_q arg_category arg_brand
         arg_min_price arg_max_price arg_sort].
    change (cursor_sort (request_sort args) (find store (request_filters args)))
      with matching.
    fold per_page. unfold cursor_limit, cursor_skip.
    destruct (Z.eqb_spec per_page 0); [lia|].
    f_equal; [lia|]. f_equal. nia.
  - cbn [with_page arg_page int_arg]. rewrite Hnum by lia. reflexivity.
  - exact Hm.
Qed.

(** Without ties there is one sorted order: two sorted lists with the same
    elements are the same list. *)
Lemma sorted_order_is_unique {A : Type} (R : A -> A -> Prop) (l1 l2 : list A) :
  (forall a b, In a l1 -> In b l1 -> R a b -> R b a -> a = b) ->
  StronglySorted R l1 -> StronglySorted R l2 -> Permutation l1 l2 -> l1 = l2.
Proof.
  revert l2. induction l1 as [|x t1 IH]; intros l2 Hanti H1 H2 Hperm.
  - apply Permutation_nil in Hperm. congruence.
  - destruct l2 as [|y t2]; [apply Permutation_sym, Permutation_nil in Hperm; discriminate|].
    inversion H1 as [|? ? Ht1 Hx]; subst. inversion H2 as [|? ? Ht2 Hy]; subst.
    rewrite Forall_forall in Hx, Hy.
    assert (Exy : x = y).
    { assert (Hyin : In y (x :: t1))
        by (eapply Permutation_in; [symmetry; exact Hperm|left; reflexivity]).
      assert (Hxin : In x (y :: t2))
        by (eapply Permutation_in; [exact Hperm|left; reflexivity]).
      destruct Hyin as [E|Hyin]; [exact E|].
      destruct Hxin as [E|Hxin]; [symmetry; exact E|].
      apply Hanti; [left; reflexivity|right; exact Hyin|apply Hx, Hyin|apply Hy, Hxin]. }
    subst y. f_equal. apply IH; auto.
    + intros a b' Ha Hb. apply Hanti; right; assumption.
    + eapply Permutation_cons_inv, Hperm.
Qed.

(** X5. When the sort key orders the matching documents without a tie (the
    order is total and transitive and two matching documents that compare
    equal are the same), the pages of a listing, from the first to the
    last ([pages] of them), put one after the other, are the matching
    documents in the one order that the sort allows, each once: paging
    loses nothing and shows nothing twice. *)
Theorem pages_cover_the_matches :
  forall cfg store args m (numeral : Z -> string),
    int_arg (arg_per_page args) (PER_PAGE cfg) = Ok m ->
    let per_page := Z.max 1 (Z.min 60 m) in
    let order := request_sort args in
    let found := find store (request_filters args) in
    let pages := pages_of (Z.of_nat (List.length found)) per_page in
    (forall k, 1 <= k <= pages -> int_of_str (numeral k) = Some k) ->
    (forall a b, sort_le order a b = true \/ sort_le order b a = true) ->
    (forall a b c, sort_le order a b = true -> sort_le order b c = true ->
                   sort_le order a c = true) ->
    (forall a b, In a found -> In b found ->
                 sort_le order a b = true -> sort_le order b a = true -> a = b) ->
    forall sorted_matches,
      Permutation sorted_matches found ->
      Sorted (fun a b => sort_le order a b = true) sorted_matches ->
      List.concat
        (map (fun k => shown (products cfg store (with_page (Some (numeral k)) args)))
           (page_numbers pages))
      = sorted_matches.
Proof.
  intros cfg store args m numeral Hm per_page order found pages Hnum Htotal Htrans
    Hties sorted_matches Hperm Hsorted.
  pose proof (pages_make_the_sorted_list cfg store args m numeral Hm) as Hpages.
  cbv zeta in Hpages. unfold cursor_sort in Hpages. rewrite sort_by_length in Hpages.
  fold found order per_page pages in Hpages. rewrite (Hpages Hnum).
  assert (Htr : Relations_1.Transitive (fun a b => sort_le order a b = true))
    by (intros a b c; apply Htrans).
  apply sorted_order_is_unique with (R := fun a b => sort_le order a b = true).
  - intros a b Ha Hb Hab Hba.
    apply Hties; [apply (sort_by_In (sort_le order)), Ha
                 |apply (sort_by_In (sort_le order)), Hb|exact Hab|exact Hba].
  - apply Sorted_StronglySorted; [exact Htr|]. apply sort_by_sorted, Htotal.
  - apply Sorted_StronglySorted; assumption.
  - rewrite sort_by_perm. symmetry. exact Hperm.
Qed.

Lemma cursor_sort_sorted spec (l : list product) :
  (forall a b, sort_le spec a b = true \/ sort_le spec b a = true) ->
  Sorted (fun a b => sort_le spec a b = true) (cursor_sort spec l).
Proof. intros Htotal. apply sort_by_sorted, Htotal. Qed.

Lemma shown_sorted cfg store args (R : product -> product -> Prop) :
  (forall a b, sort_le (request_sort args) a b = true -> R a b) ->
  (forall a b, sort_le (request_sort args) a b = true
               \/ sort_le (request_sort args) b a = true) ->
  Sorted R (shown (products cfg store args)).
Proof.
  intros HR Htotal.
  destruct (products cfg store args) as [ctx|e] eqn:H; [|constructor].
  cbn [shown]. destruct (products_items _ _ _ _ H) as [-> _].
  apply cursor_limit_sorted. unfold cursor_skip. apply Sorted_skipn.
  eapply Sorted_impl; [exact HR|]. apply cursor_sort_sorted, Htotal.
Qed.

Lemma request_sort_of key args spec :
  dict_get sort_map (strip key) ("created_at", DESCENDING) = spec ->
  request_sort (with_sort (Some key) args) = spec.
Proof. intros H. exact H. Qed.

(** X6. Each key of the sort table orders the items of the listing by its
    field in its direction: the two name keys by name, and, when [<=]
    compares any two of the numbers in play, the price keys by price and
    [rating] by rating, the best first. *)
Theorem sort_keys_order_the_items :
  forall cfg store args key,
    let docs := shown (products cfg store (with_sort (Some key) args)) in
    (strip key = "name_asc" -> Sorted (fun a b => string_le (name a) (name b)) docs)
    /\ (strip key = "name_desc" -> Sorted (fun a b => string_le (name b) (name a)) docs)
    /\ ((forall x y, num_le x y = true \/ num_le y x = true) ->
        (strip key = "price_asc" ->
         Sorted (fun a b => num_le (price a) (price b) = true) docs)
        /\ (strip key = "price_desc" ->
            Sorted (fun a b => num_le (price b) (price a) = true) docs)
        /\ (strip key = "rating" ->
            Sorted (fun a b => num_le (rating b) (rating a) = true) docs)).
Proof.
  intros cfg store args key docs. subst docs.
  split; [|split; [|intros Htotal; split; [|split]]]; intros Hkey;
    apply shown_sorted;
    rewrite (request_sort_of key args _ (f_equal (fun k => dict_get sort_map k _) Hkey));
    cbn; auto using String.leb_total.
Qed.

End WithStore.

End PagingFacts.

(** ** More on slugs *)

Module SlugMore.
Import PyStr Slug PyStrFacts SlugFacts SlugForm.

Lemma slug_char_lower c : is_slug_char c = true -> lower_char c = c.
Proof. by_cases_on_char c. Qed.

Lemma slug_char_cases c :
  is_slug_char c = true -> is_alnum c = true \/ c = "-"%char.
Proof. by_cases_on_char c. Qed.

Lemma is_ascii_lower c : is_ascii c = true -> is_ascii (lower_char c) = true.
Proof. by_cases_on_char c. Qed.

Lemma lower_fixed s : all_chars is_slug_char s = true -> lower s = s.
Proof.
  induction s as [|c r IH]; simpl; [reflexivity|].
  rewrite andb_true_iff. intros [Hc Hr]. rewrite (slug_char_lower _ Hc), (IH Hr).
  reflexivity.
Qed.

Lemma shape_no_double_hyphen b t a r :
  shape b t = true -> t <> (a ++ "--" ++ r)%string.
Proof.
  revert b t. induction a as [|c a IH]; intros b t H E; subst t.
  - destruct b; vm_compute in H; discriminate H.
  - simpl in H. destruct (is_alnum c).
    + eapply IH; [exact H|reflexivity].
    + rewrite !andb_true_iff in H. destruct H as [_ H].
      eapply IH; [exact H|reflexivity].
Qed.

Lemma shape_of_form b t :
  all_chars is_slug_char t = true ->
  (forall a r, t <> (a ++ "--" ++ r)%string) ->
  (b = true -> forall r, t <> String "-" r) ->
  shape b t = true.
Proof.
  revert b. induction t as [|c t IH]; intros b Hchars Hdouble Hfront; [reflexivity|].
  simpl in Hchars. apply andb_true_iff in Hchars as [Hc Ht]. simpl.
  assert (Htail : forall a r, t <> (a ++ "--" ++ r)%string).
  { intros a r E. apply (Hdouble (String c a) r). simpl. rewrite E. reflexivity. }
  destruct (is_alnum c) eqn:Hal.
  - apply IH; auto. discriminate.
  - destruct (slug_char_cases _ Hc) as [H| ->]; [congruence|].
    destruct b.
    + exfalso. apply (Hfront eq_refl t). reflexivity.
    + simpl. apply IH; auto. intros _ r E.
      apply (Hdouble EmptyString r). simpl. rewrite E. reflexivity.
Qed.

Lemma rstrip_by_fixed f t :
  (forall r c, t = (r ++ String c EmptyString)%string -> f c = false) ->
  rstrip_by f t = t.
Proof.
  induction t as [|a t IH]; intros H; [reflexivity|]. simpl.
  rewrite IH.
  - destruct t as [|d t']; [|reflexivity].
    rewrite (H EmptyString a eq_refl). reflexivity.
  - intros r c E. apply (H (String a r) c). simpl. rewrite E. reflexivity.
Qed.

Lemma all_chars_sub_runs b s :
  all_chars is_hyphen (sub_runs b s) = true
  <-> all_chars (fun c => negb (is_alnum c)) s = true.
Proof.
  revert b. induction s as [|c r IH]; intros b; simpl; [tauto|].
  destruct (is_alnum c) eqn:Hc; simpl.
  - rewrite (alnum_not_hyphen _ Hc). simpl. tauto.
  - destruct b; simpl; apply IH.
Qed.

Lemma sub_runs_lower b s : sub_runs b (lower s) = lower (sub_runs b s).
Proof.
  revert b. induction s as [|c r IH]; intros b; simpl; [reflexivity|].
  rewrite lower_char_alnum. destruct (is_alnum c); simpl; [rewrite IH; reflexivity|].
  destruct b; simpl; rewrite IH; reflexivity.
Qed.

Lemma lstrip_by_lower s :
  lstrip_by is_hyphen (lower s) = lower (lstrip_by is_hyphen s).
Proof.
  induction s as [|c r IH]; simpl; [reflexivity|].
  rewrite lower_char_hyphen. destruct (is_hyphen c); [exact IH|reflexivity].
Qed.

Lemma all_ascii_lower s : all_chars is_ascii s = true -> all_chars is_ascii (lower s) = true.
Proof. apply all_chars_lower. apply is_ascii_lower. Qed.

Section WithNormalizer.

Variable nfkd_ascii : string -> string.

Hypothesis nfkd_ascii_on_ascii :
  forall s, all_chars is_ascii s = true -> nfkd_ascii s = s.

(** X7. The slugs are the fixed points of [slugify]: a string is its own
    slug exactly when it has the form of one.  So every result of
    [slugify] has that form, no two hyphens in a row included. *)
Theorem slugs_are_the_fixed_points :
  forall t : string,
    (slugify nfkd_ascii t = t <-> slug_form t)
    /\ slug_form (slugify nfkd_ascii t).
Proof.
  assert (Hform : forall s, slug_form (slugify nfkd_ascii s)).
  { intros s. pose proof (slugify_shape nfkd_ascii s) as Hshape.
    pose proof (slugify_rstrip_fixed nfkd_ascii s) as Hr.
    split; [apply slugify_chars|]. split; [|split].
    - intros r E. rewrite E in Hshape. discriminate.
    - intros r E. rewrite E in Hr. apply rstrip_by_no_trailing in Hr. discriminate.
    - intros a b. eapply shape_no_double_hyphen, Hshape. }
  intros t. split; [|apply Hform]. split.
  - intros E. rewrite <- E. apply Hform.
  - intros (Hchars & Hfront & Hback & Hdouble).
    apply slugify_fixed; auto.
    + apply shape_of_form; auto.
    + apply rstrip_by_fixed. intros r c E.
      destruct (is_hyphen c) eqn:Hc; [|reflexivity].
      apply hyphen_is in Hc. subst c. exfalso. exact (Hback r E).
    + apply lower_fixed, Hchars.
Qed.

End WithNormalizer.

(** X8. The slug is empty exactly when the text, once normalised to
    ASCII, has no letter and no digit: such a name gets the empty slug. *)
Theorem slug_is_empty_without_letters_and_digits :
  forall (nfkd_ascii : string -> string) (s : string),
    slugify nfkd_ascii s = EmptyString
    <-> all_chars (fun c => negb (is_alnum c)) (nfkd_ascii s) = true.
Proof.
  intros nfkd_ascii s. unfold slugify, re_sub_non_alnum.
  rewrite <- (all_chars_sub_runs false), <- (PyTextFacts.strip_by_blank is_hyphen).
  destruct (strip_by is_hyphen (sub_runs false (nfkd_ascii s))); simpl;
    split; congruence.
Qed.

(** X9. On ASCII text the slug does not depend on the case of the
    letters. *)
Theorem slug_ignores_case :
  forall (nfkd_ascii : string -> string),
    (forall s, all_chars is_ascii s = true -> nfkd_ascii s = s) ->
    forall s, all_chars is_ascii s = true ->
              slugify nfkd_ascii (lower s) = slugify nfkd_ascii s.
Proof.
  intros nfkd_ascii Hid s Hs. unfold slugify, re_sub_non_alnum, strip_by.
  rewrite (Hid s Hs), (Hid (lower s) (all_ascii_lower s Hs)).
  rewrite sub_runs_lower, lstrip_by_lower, rstrip_by_lower. apply lower_idem.
Qed.

End SlugMore.

(** ** More on product creation *)

Module AdminMore.
Import PyStr AdminFacts.

Section WithRuntime.

Context {num : PyNum}.
Variable nfkd_ascii : string -> string.

Lemma opt_string_eqb_eq a b : opt_string_eqb a b = true <-> a = b.
Proof.
  destruct a as [x|], b as [y|]; simpl; try (split; congruence).
  rewrite String.eqb_eq. split; congruence.
Qed.

(** X10. [admin_new] answers 403 and leaves the store alone exactly when
    the token presented is not the configured one; the token presented is
    the header when there is one that is not empty, the [token] parameter
    otherwise, so a wrong header is refused even beside the right
    parameter. *)
Theorem admin_new_needs_the_token :
  forall cfg t_created t_updated store req,
    let answer := admin_new nfkd_ascii cfg t_created t_updated store req in
    (fst answer = Ok (Abort 403)
     <-> or_else (header_admin_token req) (arg_token req) <> Some (ADMIN_TOKEN cfg))
    /\ (fst answer = Ok (Abort 403) -> snd answer = store)
    /\ (forall h, header_admin_token req = Some h -> h <> EmptyString ->
                  h <> ADMIN_TOKEN cfg -> answer = (Ok (Abort 403), store)).
Proof.
  intros cfg t_created t_updated store req answer. subst answer.
  assert (H403 : or_else (header_admin_token req) (arg_token req)
                 <> Some (ADMIN_TOKEN cfg) ->
                 admin_new nfkd_ascii cfg t_created t_updated store req
                 = (Ok (Abort 403), store)).
  { intros Hne. unfold admin_new.
    destruct (opt_string_eqb _ _) eqn:E; [|reflexivity].
    apply opt_string_eqb_eq in E. contradiction. }
  assert (Hback : fst (admin_new nfkd_ascii cfg t_created t_updated store req)
                  = Ok (Abort 403) ->
                  or_else (header_admin_token req) (arg_token req)
                  <> Some (ADMIN_TOKEN cfg)).
  { unfold admin_new. destruct (opt_string_eqb _ _) eqn:E.
    - cbn [negb]. destruct (method req); [discriminate|].
      destruct (negb (truthy _)); [discriminate|].
      destruct (new_doc _ _ _ _ _) as [doc|e]; [|discriminate].
      destruct (find_one_by_slug store (slug doc)); discriminate.
    - intros _ Heq. apply opt_string_eqb_eq in Heq. congruence. }
  split; [split; [exact Hback|intros H; rewrite (H403 H); reflexivity]|].
  split.
  - intros H. rewrite (H403 (Hback H)). reflexivity.
  - intros h Hh Hne Hwrong. apply H403. rewrite Hh. unfold or_else.
    destruct h; [contradiction|]. cbn [truthy]. congruence.
Qed.

Lemma admin_new_created cfg t_created t_updated store req s message cat :
  fst (admin_new nfkd_ascii cfg t_created t_updated store req)
  = Ok (Redirect (to_product_detail s) message cat) ->
  opt_string_eqb (or_else (header_admin_token req) (arg_token req))
    (Some (ADMIN_TOKEN cfg)) = true
  /\ method req = POST
  /\ truthy (strip (get_or (form_name (form req)) "")) = true
  /\ exists doc,
       new_doc nfkd_ascii (form req) (strip (get_or (form_name (form req)) ""))
         t_created t_updated = Ok doc
       /\ slug doc = s
       /\ find_one_by_slug store s = None
       /\ snd (admin_new nfkd_ascii cfg t_created t_updated store req)
          = insert_one store doc.
Proof.
  unfold admin_new.
  destruct (opt_string_eqb _ _); [|discriminate]. cbn [negb].
  destruct (method req); [discriminate|].
  destruct (truthy _); [|discriminate]. cbn [negb].
  destruct (new_doc _ _ _ _ _) as [doc|e]; [|discriminate].
  destruct (find_one_by_slug store (slug doc)) eqn:Hf; [discriminate|].
  cbn [fst snd]. intros H. injection H as <- _ _.
  repeat split; auto. exists doc. auto.
Qed.

Lemma find_one_by_slug_appended store doc :
  find_one_by_slug store (slug doc) = None ->
  find_one_by_slug (insert_one store doc) (slug doc) = Some doc.
Proof.
  unfold find_one_by_slug, insert_one. intros H.
  induction store as [|p store IH]; simpl in *.
  - rewrite String.eqb_refl. reflexivity.
  - destruct (String.eqb (slug p) (slug doc)); [discriminate|]. apply IH, H.
Qed.

(** X11. After a creation [admin_new] redirects to the page of a slug that
    leads to the product just stored: the slug was free, the store has
    one document more, the last, and looking that slug up finds it, under
    the trimmed name that was posted. *)
Theorem created_product_is_found :
  forall cfg t_created t_updated store req s message cat,
    let answer := admin_new nfkd_ascii cfg t_created t_updated store req in
    fst answer = Ok (Redirect (to_product_detail s) message cat) ->
    exists doc,
      snd answer = (store ++ [doc])%list
      /\ find_one_by_slug store s = None
      /\ find_one_by_slug (snd answer) s = Some doc
      /\ slug doc = s
      /\ name doc = strip (get_or (form_name (form req)) "")
      /\ created_at doc = t_created.
Proof.
  intros cfg t_created t_updated store req s message cat answer H.
  destruct (admin_new_created _ _ _ _ _ _ _ _ H)
    as (_ & _ & _ & doc & Hdoc & Hslug & Hfree & Hstore).
  fold answer in Hstore. exists doc. rewrite Hstore. subst s.
  repeat split; auto using find_one_by_slug_appended.
  - revert Hdoc. unfold new_doc.
    destruct (float_field _ _ _); [|discriminate].
    destruct (float_field _ _ _); [|discriminate].
    destruct (float_field _ _ _); [|discriminate].
    destruct (int_field _ _ _); [|discriminate].
    cbn [bind]. intros E. injection E as <-. reflexivity.
  - revert Hdoc. unfold new_doc.
    destruct (float_field _ _ _); [|discriminate].
    destruct (float_field _ _ _); [|discriminate].
    destruct (float_field _ _ _); [|discriminate].
    destruct (int_field _ _ _); [|discriminate].
    cbn [bind]. intros E. injection E as <-. reflexivity.
Qed.

Lemma new_doc_any_time f name t1 t2 t1' t2' doc :
  new_doc nfkd_ascii f name t1 t2 = Ok doc ->
  exists doc', new_doc nfkd_ascii f name t1' t2' = Ok doc' /\ slug doc' = slug doc.
Proof.
  unfold new_doc.
  destruct (float_field _ _ _); [|discriminate].
  destruct (float_field _ _ _); [|discriminate].
  destruct (float_field _ _ _); [|discriminate].
  destruct (int_field _ _ _); [|discriminate].
  cbn [bind]. intros E. injection E as <-. eexists. split; reflexivity.
Qed.

(** X12. Posting the form of a created product again creates nothing: the
    second answer is the "already exists" redirect and the store stays as
    the first call left it. *)
Theorem posting_twice_creates_once :
  forall cfg t_created t_updated t_created' t_updated' store req s message cat,
    let answer := admin_new nfkd_ascii cfg t_created t_updated store req in
    fst answer = Ok (Redirect (to_product_detail s) message cat) ->
    admin_new nfkd_ascii cfg t_created' t_updated' (snd answer) req
    = (Ok (Redirect to_admin_new "A product with that slug already exists." "danger"),
       snd answer).
Proof.
  intros cfg t_created t_updated t_created' t_updated' store req s message cat answer H.
  destruct (admin_new_created _ _ _ _ _ _ _ _ H)
    as (Htoken & Hmethod & Hname & doc & Hdoc & Hslug & Hfree & Hstore).
  fold answer in Hstore.
  destruct (new_doc_any_time _ _ _ _ t_created' t_updated' _ Hdoc) as (doc' & Hdoc' & Hs).
  unfold admin_new at 1. rewrite Htoken, Hmethod, Hname, Hdoc'. cbn [negb].
  rewrite Hs, Hstore, Hslug. rewrite <- Hslug at 1.
  rewrite (find_one_by_slug_appended store doc) by (rewrite Hslug; exact Hfree).
  reflexivity.
Qed.

End WithRuntime.

End AdminMore.

(** ** The home page and the page of a product *)

Module CatalogViewsFacts.
Import PyStr SortFacts ListingFacts Views.

Section NewestFirst.

Context {A : Type} (key : A -> Z) (le : A -> A -> bool).

Hypothesis le_is_newer : forall a b, le a b = Z.leb (key b) (key a).

Lemma newest_sorted_by_key l : Sorted (fun a b => key b <= key a) (sort_by le l).
Proof.
  apply Sorted_impl with (R := fun a b => le a b = true).
  - intros a b. rewrite le_is_newer. apply Z.leb_le.
  - apply sort_by_sorted. intros a b. rewrite !le_is_newer, !Z.leb_le. lia.
Qed.

Lemma front_before_back (R : A -> A -> Prop) k l x y :
  StronglySorted R l -> In x (firstn k l) -> In y (skipn k l) -> R x y.
Proof.
  revert l. induction k as [|k IH]; intros l Hs Hx Hy; [destruct Hx|].
  destruct l as [|z l]; [destruct Hx|].
  inversion Hs as [|? ? Hl Hall]; subst. simpl in Hx, Hy. destruct Hx as [<-|Hx].
  - rewrite Forall_forall in Hall. apply Hall.
    rewrite <- (firstn_skipn k l). apply in_or_app. right. exact Hy.
  - eapply IH; eauto.
Qed.

(** The first [n] of a collection, newest first. *)
Lemma newest_cut n l :
  0 < n ->
  let shown := cursor_limit n (sort_by le l) in
  List.length shown = Nat.min (Z.to_nat n) (List.length l)
  /\ Sorted (fun a b => key b <= key a) shown
  /\ (forall x, In x shown -> In x l)
  /\ (forall x y, In x shown -> In y l -> ~ In y shown -> key y <= key x).
Proof.
  intros Hn shown. subst shown. unfold cursor_limit.
  destruct (Z.eqb_spec n 0); [lia|]. replace (Z.abs n) with n by lia.
  split; [rewrite length_firstn, sort_by_length; reflexivity|].
  split; [apply Sorted_firstn, newest_sorted_by_key|].
  split.
  - intros x Hx. apply (sort_by_In le).
    rewrite <- (firstn_skipn (Z.to_nat n) (sort_by le l)). apply in_or_app. auto.
  - intros x y Hx Hy Hout.
    apply (front_before_back (fun a b => key b <= key a) (Z.to_nat n) (sort_by le l)).
    + apply Sorted_StronglySorted; [|apply newest_sorted_by_key].
      intros a b c Hab Hbc. lia.
    + exact Hx.
    + apply (sort_by_In le) in Hy.
      rewrite <- (firstn_skipn (Z.to_nat n) (sort_by le l)) in Hy.
      apply in_app_or in Hy. tauto.
Qed.

End NewestFirst.

Section WithStore.

Context {num : PyNum}.

Lemma newest_is_cut n (docs : list product) :
  newest n docs = cursor_limit n (sort_by (sort_le ("created_at", DESCENDING)) docs).
Proof. reflexivity. Qed.

(** X13. The home page shows the eight newest products and the eight
    newest featured ones (all of them when there are fewer), newest
    first: whatever is left out is not newer than anything shown. *)
Theorem home_shows_the_newest :
  forall store,
    let page := home store in
    (List.length (home_latest page) = Nat.min 8 (List.length store)
     /\ Sorted (fun a b => created_at b <= created_at a) (home_latest page)
     /\ (forall x, In x (home_latest page) -> In x store)
     /\ (forall x y, In x (home_latest page) -> In y store ->
                     ~ In y (home_latest page) -> created_at y <= created_at x))
    /\ (List.length (home_featured page)
        = Nat.min 8 (List.length (filter is_featured store))
        /\ Sorted (fun a b => created_at b <= created_at a) (home_featured page)
        /\ (forall x, In x (home_featured page) -> In x store /\ is_featured x = true)
        /\ (forall x y, In x (home_featured page) -> In y store -> is_featured y = true ->
                        ~ In y (home_featured page) -> created_at y <= created_at x)).
Proof.
  intros store page. subst page. cbn [home home_latest home_featured].
  rewrite !newest_is_cut.
  pose proof (newest_cut created_at (sort_le ("created_at", DESCENDING))
                (fun a b => eq_refl) 8 store ltac:(lia)) as (L1 & L2 & L3 & L4).
  pose proof (newest_cut created_at (sort_le ("created_at", DESCENDING))
                (fun a b => eq_refl) 8 (filter is_featured store) ltac:(lia))
    as (F1 & F2 & F3 & F4).
  split; [repeat split; assumption|].
  split; [exact F1|]. split; [exact F2|]. split.
  - intros x Hx. apply F3, filter_In in Hx. exact Hx.
  - intros x y Hx Hy Hf Hout. apply (F4 x y Hx); [|exact Hout].
    apply filter_In. auto.
Qed.

Context {ids : ObjectIds}.

Lemma find_none_iff {A : Type} (f : A -> bool) l :
  List.find f l = None <-> forall x, In x l -> f x = false.
Proof.
  split; [apply find_none|]. induction l as [|a l IH]; intros H; simpl; [reflexivity|].
  rewrite (H a (or_introl eq_refl)). apply IH. intros x Hx. apply H. right. exact Hx.
Qed.

(** X14. [product_detail] answers 404 exactly when no product has the key
    as its slug and, the key being a valid identifier, none has it as
    its [_id].  Otherwise the item it shows is a product of the store
    with that identifier or that slug, the identifier being tried
    first. *)
Theorem product_detail_finds_by_id_or_slug :
  forall store key,
    (product_detail store key = NotFound
     <-> (forall d, In d store -> slug (body d) <> key)
         /\ (forall i, oid_of_str key = Some i ->
                       forall d, In d store -> oid_eqb (_id d) i = false))
    /\ (forall item related,
          product_detail store key = Detail item related ->
          In item store
          /\ ((exists i, oid_of_str key = Some i /\ oid_eqb (_id item) i = true)
              \/ ((forall i, oid_of_str key = Some i ->
                             forall d, In d store -> oid_eqb (_id d) i = false)
                  /\ slug (body item) = key))).
Proof.
  intros store key. unfold product_detail.
  destruct (oid_of_str key) as [i|] eqn:Hid.
  - destruct (List.find (fun d => oid_eqb (_id d) i) store) as [d|] eqn:Hfind.
    + apply find_some in Hfind as [Hin Heq]. split.
      * split; [discriminate|]. intros [_ H]. rewrite (H i eq_refl d Hin) in Heq.
        discriminate.
      * intros item related E. injection E as <- _. split; [exact Hin|]. left. eauto.
    + pose proof (proj1 (find_none_iff _ _) Hfind) as Hnone.
      destruct (List.find (fun d => String.eqb (slug (body d)) key) store) as [d|] eqn:Hs.
      * apply find_some in Hs as [Hin Heq]. apply String.eqb_eq in Heq. split.
        -- split; [discriminate|]. intros [H _]. exfalso. exact (H d Hin Heq).
        -- intros item related E. injection E as <- _. split; [exact Hin|]. right.
           split; [|exact Heq]. intros j Hj. injection Hj as <-. exact Hnone.
      * pose proof (proj1 (find_none_iff _ _) Hs) as Hnos. split.
        -- split; [|reflexivity]. intros _. split.
           ++ intros d Hin E. apply Hnos in Hin. apply String.eqb_neq in Hin. auto.
           ++ intros j Hj. injection Hj as <-. exact Hnone.
        -- discriminate.
  - destruct (List.find (fun d => String.eqb (slug (body d)) key) store) as [d|] eqn:Hs.
    + apply find_some in Hs as [Hin Heq]. apply String.eqb_eq in Heq. split.
      * split; [discriminate|]. intros [H _]. exfalso. exact (H d Hin Heq).
      * intros item related E. injection E as <- _. split; [exact Hin|]. right.
        split; [discriminate|exact Heq].
    + pose proof (proj1 (find_none_iff _ _) Hs) as Hnos. split.
      * split; [|reflexivity]. intros _. split; [|discriminate].
        intros d Hin E. apply Hnos in Hin. apply String.eqb_neq in Hin. auto.
      * discriminate.
Qed.

Lemma opt_string_eqb_true a b : opt_string_eqb a b = true -> a = b.
Proof.
  destruct a as [x|], b as [y|]; simpl; try congruence.
  intros H. apply String.eqb_eq in H. congruence.
Qed.

(** X15. The related products of a product page are at most eight
    products of the store, of the category of the item, none with the
    [_id] of the item, the newest first; a product of that category that
    is left out is not newer than one that is shown. *)
Theorem related_products_are_the_newest_of_the_category :
  forall store key item related,
    product_detail store key = Detail item related ->
    (List.length related <= 8)%nat
    /\ Sorted (fun a b => created_at (body b) <= created_at (body a)) related
    /\ (forall r, In r related ->
          In r store
          /\ category (body r) = category (body item)
          /\ oid_eqb (_id r) (_id item) = false)
    /\ (forall r o, In r related -> In o store ->
          category (body o) = category (body item) ->
          oid_eqb (_id o) (_id item) = false ->
          ~ In o related ->
          created_at (body o) <= created_at (body r)).
Proof.
  intros store key item related H.
  assert (E : related
              = cursor_limit 8 (sort_by newer_first (filter (related_to item) store))).
  { revert H. unfold product_detail.
    destruct (match oid_of_str key with
              | Some i => List.find (fun d => oid_eqb (_id d) i) store
              | None => None
              end) as [d|].
    - intros H. injection H as <- <-. reflexivity.
    - destruct (List.find _ store) as [d|]; [|discriminate].
      intros H. injection H as <- <-. reflexivity. }
  pose proof (newest_cut (fun d => created_at (body d)) newer_first
                (fun a b => eq_refl) 8 (filter (related_to item) store) ltac:(lia))
    as (L1 & L2 & L3 & L4).
  rewrite <- E in L1, L2, L3, L4.
  split; [lia|]. split; [exact L2|]. split.
  - intros r Hr. apply L3, filter_In in Hr. destruct Hr as [Hin Hrel].
    unfold related_to in Hrel. apply andb_true_iff in Hrel as [Hc Hi].
    apply opt_string_eqb_true in Hc. apply negb_true_iff in Hi. auto.
  - intros r o Hr Ho Hc Hi Hout. apply (L4 r o Hr); [|exact Hout].
    apply filter_In. split; [exact Ho|]. unfold related_to.
    rewrite Hc, Hi. cbn [negb]. rewrite andb_true_r.
    destruct (category (body item)); simpl; [apply String.eqb_refl|reflexivity].
Qed.

End WithStore.

End CatalogViewsFacts.

(** ** Phone numbers *)

Module MpesaFacts.
Import PyStr PyText Mpesa PhoneForm.

Lemma literal_exact p s rest :
  literal false p s = Some rest <-> s = (p ++ rest)%string.
Proof.
  revert s. induction p as [|a p IH]; intros s; simpl.
  - destruct s; split; congruence.
  - destruct s as [|b s]; [split; discriminate|].
    destruct (Ascii.eqb_spec a b) as [->|Hne].
    + rewrite IH. split; congruence.
    + split; [discriminate|]. intros E. injection E as E _. congruence.
Qed.

Lemma digits_spec n s rest :
  digits n s = Some rest
  <-> exists d, String.length d = n /\ all_chars is_digit d = true
                /\ s = (d ++ rest)%string.
Proof.
  revert s. induction n as [|n IH]; intros s; simpl.
  - split.
    + intros E. injection E as <-. exists EmptyString. auto.
    + intros (d & Hlen & _ & ->). destruct d; [reflexivity|discriminate].
  - destruct s as [|c s].
    + split; [discriminate|]. intros (d & Hlen & _ & E). destruct d; discriminate.
    + destruct (is_digit c) eqn:Hc.
      * rewrite IH. split.
        -- intros (d & Hlen & Hd & ->). exists (String c d). simpl.
           rewrite Hc, Hd, Hlen. auto.
        -- intros (d & Hlen & Hd & E). destruct d as [|c' d]; [discriminate|].
           simpl in *. injection E as <- ->. injection Hlen as Hlen.
           apply andb_true_iff in Hd as [_ Hd]. eauto.
      * split; [discriminate|]. intros (d & Hlen & Hd & E).
        destruct d as [|c' d]; [discriminate|]. simpl in *. injection E as <- _.
        rewrite Hc in Hd. discriminate.
Qed.

Lemma at_end_spec rest : at_end rest = true <-> line_end rest.
Proof.
  unfold line_end. destruct rest as [|c [|c' r]]; simpl.
  - tauto.
  - destruct (Ascii.eqb_spec c "010") as [->|Hne].
    + split; auto.
    + split; [discriminate|]. intros [E|E]; [discriminate|].
      injection E as E. contradiction.
  - split; [discriminate|]. intros [E|E]; discriminate.
Qed.

Lemma branch_spec prefix phone :
  branch prefix phone = true
  <-> exists d e, eight_digits d /\ line_end e /\ phone = (prefix ++ d ++ e)%string.
Proof.
  unfold branch, eight_digits. split.
  - destruct (literal false prefix phone) as [rest|] eqn:El; [|discriminate].
    destruct (digits 8 rest) as [rest'|] eqn:Ed; [|discriminate].
    intros He. apply literal_exact in El. apply digits_spec in Ed.
    destruct Ed as (d & Hlen & Hd & ->). apply at_end_spec in He.
    exists d, rest'. auto.
  - intros (d & e & [Hlen Hd] & He & ->).
    rewrite (proj2 (literal_exact prefix _ (d ++ e)) eq_refl).
    rewrite (proj2 (digits_spec 8 (d ++ e) e)) by eauto.
    apply at_end_spec, He.
Qed.

Lemma format_phone_spec phone r :
  _format_phone phone = Some r
  <-> exists d e,
        eight_digits d /\ line_end e
        /\ (phone = ("07" ++ d ++ e)%string \/ phone = ("2547" ++ d ++ e)%string)
        /\ r = ("2547" ++ d ++ e)%string.
Proof.
  unfold _format_phone, phone_matches. split.
  - destruct (branch "2547" phone) eqn:B1.
    + apply branch_spec in B1 as (d & e & Hd & He & ->). cbn [orb].
      intros E. injection E as <-. exists d, e. auto.
    + destruct (branch "07" phone) eqn:B2; [|discriminate].
      apply branch_spec in B2 as (d & e & Hd & He & ->). cbn [orb].
      intros E. injection E as <-. exists d, e. auto.
  - intros (d & e & Hd & He & [-> | ->] & ->).
    + rewrite (proj2 (branch_spec "07" _)) by eauto. rewrite orb_true_r. reflexivity.
    + rewrite (proj2 (branch_spec "2547" _)) by eauto. reflexivity.
Qed.

Lemma format_phone_shape phone r :
  _format_phone phone = Some r ->
  startswith "2547" r = true
  /\ (String.length r = 12%nat
      \/ (String.length r = 13%nat /\ endswith (String "010" "") r = true))
  /\ ((startswith "2547" phone = true /\ r = phone)
      \/ (startswith "07" phone = true /\ r = ("254" ++ drop 1 phone)%string)).
Proof.
  intros H. apply format_phone_spec in H as (d & e & [Hlen _] & He & Hphone & ->).
  destruct d as [|d1 [|d2 [|d3 [|d4 [|d5 [|d6 [|d7 [|d8 [|d9 d]]]]]]]]];
    try discriminate Hlen.
  split; [reflexivity|].
  split; [destruct He as [-> | ->]; [left|right; split]; reflexivity|].
  destruct Hphone as [-> | ->]; [right|left]; split; reflexivity.
Qed.

(** X16. [_format_phone] accepts a Kenyan mobile number written with [07]
    or with [2547] and eight digits [0] to [9], and gives both the form
    with [2547]; like [$] it lets one line feed pass at the end, which
    stays in the result.  A text in ASCII is accepted in these two forms
    only.  Whatever the characters, a result starts with [2547], has
    twelve characters (and then possibly the line feed), and is the text
    itself when that starts with [2547], else the text with [254] for its
    first character [0]; a text that starts with neither [07] nor [2547]
    is turned down. *)
Theorem format_phone_accepts_the_two_forms :
  forall phone,
    (forall d e,
        eight_digits d -> line_end e ->
        phone = ("07" ++ d ++ e)%string \/ phone = ("2547" ++ d ++ e)%string ->
        _format_phone phone = Some ("2547" ++ d ++ e)%string)
    /\ (all_chars is_ascii phone = true ->
        forall r,
          _format_phone phone = Some r ->
          exists d e,
            eight_digits d /\ line_end e
            /\ (phone = ("07" ++ d ++ e)%string \/ phone = ("2547" ++ d ++ e)%string)
            /\ r = ("2547" ++ d ++ e)%string)
    /\ (forall r,
          _format_phone phone = Some r ->
          startswith "2547" r = true
          /\ (String.length r = 12%nat
              \/ (String.length r = 13%nat /\ endswith (String "010" "") r = true))
          /\ ((startswith "2547" phone = true /\ r = phone)
              \/ (startswith "07" phone = true /\ r = ("254" ++ drop 1 phone)%string)))
    /\ (startswith "07" phone = false -> startswith "2547" phone = false ->
        _format_phone phone = None).
Proof.
  intros phone. split; [|split; [|split]].
  - intros d e Hd He Hphone. apply format_phone_spec. exists d, e. auto.
  - intros _ r H. apply format_phone_spec, H.
  - intros r H. apply format_phone_shape, H.
  - intros H07 H2547. destruct (_format_phone phone) as [r|] eqn:H; [|reflexivity].
    destruct (format_phone_shape _ _ H) as (_ & _ & [[Hs _]|[Hs _]]); congruence.
Qed.

(** X17. A number that [_format_phone] gave is accepted as it is: the
    function is idempotent. *)
Theorem format_phone_idempotent :
  forall phone r, _format_phone phone = Some r -> _format_phone r = Some r.
Proof.
  intros phone r H.
  apply format_phone_spec in H as (d & e & Hd & He & _ & ->).
  apply format_phone_spec. exists d, e. auto.
Qed.

End MpesaFacts.

(** ** The image scraper *)

Module ScraperFacts.
Import PyStr PyText PyStrFacts Scraper.

Ltac by_letter c :=
  destruct c as [[] [] [] [] [] [] [] []]; vm_compute; intros H;
  try discriminate H; reflexivity.

Lemma dot_is_url_char c : lower_char c = "."%char -> url_char c = true.
Proof. by_letter c. Qed.

Lemma j_is_url_char c : lower_char c = "j"%char -> url_char c = true.
Proof. by_letter c. Qed.

Lemma p_is_url_char c : lower_char c = "p"%char -> url_char c = true.
Proof. by_letter c. Qed.

Lemma g_is_url_char c : lower_char c = "g"%char -> url_char c = true.
Proof. by_letter c. Qed.

Lemma h_is_url_char c : lower_char c = "h"%char -> url_char c = true.
Proof. by_letter c. Qed.

Lemma t_is_url_char c : lower_char c = "t"%char -> url_char c = true.
Proof. by_letter c. Qed.

Lemma s_is_url_char c : lower_char c = "s"%char -> url_char c = true.
Proof. by_letter c. Qed.

Lemma colon_is_url_char c : lower_char c = ":"%char -> url_char c = true.
Proof. by_letter c. Qed.

Lemma slash_is_url_char c : lower_char c = "/"%char -> url_char c = true.
Proof. by_letter c. Qed.

Lemma colon_is_not_s c : same_letter ":" c = true -> same_letter "s" c = false.
Proof. by_letter c. Qed.

Lemma lower_app a b : lower (a ++ b) = (lower a ++ lower b)%string.
Proof. induction a as [|c a IH]; simpl; [|rewrite IH]; reflexivity. Qed.

Lemma all_chars_app f a b :
  all_chars f (a ++ b) = (all_chars f a && all_chars f b)%bool.
Proof.
  induction a as [|c a IH]; simpl; [reflexivity|]. rewrite IH. apply andb_assoc.
Qed.

Lemma append_assoc (a b c : string) : ((a ++ b) ++ c = a ++ b ++ c)%string.
Proof. induction a as [|x a IH]; simpl; [|rewrite IH]; reflexivity. Qed.

Lemma append_empty (a : string) : (a ++ "")%string = a.
Proof. induction a as [|x a IH]; simpl; [|rewrite IH]; reflexivity. Qed.

Lemma length_app (a b : string) :
  String.length (a ++ b) = (String.length a + String.length b)%nat.
Proof. induction a as [|x a IH]; simpl; [|rewrite IH]; reflexivity. Qed.

Lemma lower_length s : String.length (lower s) = String.length s.
Proof. induction s as [|c s IH]; simpl; [|rewrite IH]; reflexivity. Qed.

Lemma take_app_exact a b : take (String.length a) (a ++ b) = a.
Proof. induction a as [|x a IH]; simpl; [destruct b|rewrite IH]; reflexivity. Qed.

Lemma drop_app_exact a b : drop (String.length a) (a ++ b) = b.
Proof. induction a as [|x a IH]; simpl; [reflexivity|exact IH]. Qed.

Lemma take_drop n s : (take n s ++ drop n s)%string = s.
Proof.
  revert s. induction n as [|n IH]; intros s; [reflexivity|].
  destruct s as [|c s]; simpl; [|rewrite IH]; reflexivity.
Qed.

Lemma startswith_app p s : startswith p (p ++ s) = true.
Proof.
  induction p as [|c p IH]; simpl; [reflexivity|].
  rewrite Ascii.eqb_refl. exact IH.
Qed.

Lemma endswith_app p s : endswith p (s ++ p) = true.
Proof.
  unfold endswith. rewrite length_app, Nat.add_sub, drop_app_exact.
  apply String.eqb_refl.
Qed.

(** *** Literals *)

Lemma literal_ci_spec p s rest :
  literal true p s = Some rest ->
  exists m, s = (m ++ rest)%string /\ lower m = lower p
            /\ String.length m = String.length p.
Proof.
  revert s. induction p as [|a p IH]; intros s; simpl.
  - intros E. injection E as <-. exists EmptyString. auto.
  - destruct s as [|b s]; [discriminate|].
    destruct (same_letter a b) eqn:Hab; [|discriminate].
    intros H. apply IH in H as (m & -> & Hm & Hlen).
    exists (String b m). simpl. rewrite Hm, Hlen.
    apply Ascii.eqb_eq in Hab. rewrite Hab. auto.
Qed.

Lemma literal_ci_app p q s :
  literal true (p ++ q) s
  = match literal true p s with
    | Some r => literal true q r
    | None => None
    end.
Proof.
  revert s. induction p as [|a p IH]; intros s; simpl; [reflexivity|].
  destruct s as [|b s]; [reflexivity|]. destruct (same_letter a b); [apply IH|reflexivity].
Qed.

Lemma literal_ci_extend p s rest t :
  literal true p s = Some rest -> literal true p (s ++ t) = Some (rest ++ t)%string.
Proof.
  revert s. induction p as [|a p IH]; intros s; simpl.
  - intros E. injection E as <-. reflexivity.
  - destruct s as [|b s]; [discriminate|]. simpl.
    destruct (same_letter a b); [apply IH|discriminate].
Qed.

Lemma literal_ci_on_match p m t :
  lower m = lower p -> String.length m = String.length p ->
  literal true p (m ++ t) = Some t.
Proof.
  revert m. induction p as [|a p IH]; intros m Hm Hlen.
  - destruct m; [reflexivity|discriminate].
  - destruct m as [|b m]; [discriminate|]. simpl in *.
    injection Hm as Hb Hm. injection Hlen as Hlen.
    unfold same_letter. rewrite Hb, Ascii.eqb_refl. apply IH; assumption.
Qed.

Lemma jpg_chars m : lower m = ".jpg" -> all_chars url_char m = true.
Proof.
  destruct m as [|a [|b [|c [|d [|e m]]]]]; try discriminate.
  simpl. intros H. injection H as Ha Hb Hc Hd.
  rewrite (dot_is_url_char _ Ha), (j_is_url_char _ Hb), (p_is_url_char _ Hc),
    (g_is_url_char _ Hd). reflexivity.
Qed.

Lemma http_chars m : lower m = "http://" -> all_chars url_char m = true.
Proof.
  destruct m as [|a [|b [|c [|d [|e [|f [|g [|h m]]]]]]]]; try discriminate.
  simpl. intros H. injection H as Ha Hb Hc Hd He Hf Hg.
  rewrite (h_is_url_char _ Ha), (t_is_url_char _ Hb), (t_is_url_char _ Hc),
    (p_is_url_char _ Hd), (colon_is_url_char _ He), (slash_is_url_char _ Hf),
    (slash_is_url_char _ Hg). reflexivity.
Qed.

Lemma https_chars m : lower m = "https://" -> all_chars url_char m = true.
Proof.
  destruct m as [|a [|b [|c [|d [|e [|f [|g [|h [|i m]]]]]]]]]; try discriminate.
  simpl. intros H. injection H as Ha Hb Hc Hd He Hf Hg Hh.
  rewrite (h_is_url_char _ Ha), (t_is_url_char _ Hb), (t_is_url_char _ Hc),
    (p_is_url_char _ Hd), (s_is_url_char _ He), (colon_is_url_char _ Hf),
    (slash_is_url_char _ Hg), (slash_is_url_char _ Hh). reflexivity.
Qed.

(** *** The lazy run up to [.jpg] *)

Lemma lazy_jpg_cons c r :
  lazy_jpg (String c r)
  = if url_char c then
      match literal true ".jpg" r with
      | Some _ => Some (String c (take (String.length ".jpg") r))
      | None => option_map (String c) (lazy_jpg r)
      end
    else None.
Proof. reflexivity. Qed.

Lemma some_eq {A : Type} (x y : A) : Some x = Some y -> x = y.
Proof. congruence. Qed.

Lemma lazy_jpg_spec s body :
  lazy_jpg s = Some body ->
  (exists rest, s = (body ++ rest)%string)
  /\ all_chars url_char body = true
  /\ (exists pre, lower body = (pre ++ ".jpg")%string)
  /\ lazy_jpg body = Some body.
Proof.
  revert body. induction s as [|c r IH]; intros body; [discriminate|].
  rewrite lazy_jpg_cons.
  destruct (url_char c) eqn:Hc; [|discriminate].
  destruct (literal true ".jpg" r) as [rest|] eqn:Hl.
  - intros E. apply some_eq in E. subst body.
    destruct (literal_ci_spec _ _ _ Hl) as (m & Hr & Hm & Hlen). subst r.
    rewrite <- Hlen, take_app_exact.
    split; [exists rest; reflexivity|].
    split; [cbn [all_chars]; rewrite Hc; apply jpg_chars, Hm|].
    split; [exists (String (lower_char c) EmptyString); cbn [lower];
            rewrite Hm; reflexivity|].
    rewrite lazy_jpg_cons, Hc.
    pose proof (literal_ci_on_match ".jpg" m EmptyString Hm Hlen) as Hon.
    rewrite append_empty in Hon. rewrite Hon.
    pose proof (take_app_exact m EmptyString) as Ht.
    rewrite append_empty in Ht. rewrite <- Hlen, Ht. reflexivity.
  - destruct (lazy_jpg r) as [body'|] eqn:Hr; [|discriminate].
    intros E. injection E as <-.
    destruct (IH body' eq_refl) as ((rest & ->) & Hall & (pre & Hpre) & Hfix).
    split; [exists rest; reflexivity|].
    split; [cbn [all_chars]; rewrite Hc; exact Hall|].
    split; [exists (String (lower_char c) pre); cbn [lower]; rewrite Hpre; reflexivity|].
    rewrite lazy_jpg_cons, Hc.
    destruct (literal true ".jpg" body') as [x|] eqn:Hb.
    + rewrite (literal_ci_extend _ _ _ rest Hb) in Hl. discriminate.
    + rewrite Hfix. reflexivity.
Qed.

(** *** The scheme *)

Lemma scheme_spec s :
  scheme s
  = match literal true "https://" s with
    | Some _ => Some 8%nat
    | None => match literal true "http://" s with
              | Some _ => Some 7%nat
              | None => None
              end
    end.
Proof.
  unfold scheme.
  change "https://" with ("http" ++ ("s" ++ "://"))%string.
  change "http://" with ("http" ++ "://")%string.
  rewrite !literal_ci_app.
  destruct (literal true "http" s) as [r|]; [|reflexivity].
  rewrite literal_ci_app.
  destruct (literal true "s" r) as [r'|]; [|reflexivity].
  destruct (literal true "://" r'); reflexivity.
Qed.

Lemma http_is_not_https s rest :
  literal true "http://" s = Some rest -> literal true "https://" s = None.
Proof.
  destruct s as [|a [|b [|c [|d [|e s]]]]]; simpl;
    repeat match goal with
           | |- context [same_letter ?x ?y] =>
               lazymatch y with
               | e => fail
               | _ => destruct (same_letter x y); try discriminate
               end
           end; try discriminate.
  destruct (same_letter ":" e) eqn:He; [|discriminate].
  rewrite (colon_is_not_s _ He). reflexivity.
Qed.

Lemma drop_of_match m rest n :
  String.length m = n -> drop n (m ++ rest) = rest.
Proof. intros <-. apply drop_app_exact. Qed.

Lemma take_of_match m rest n :
  String.length m = n -> take n (m ++ rest) = m.
Proof. intros <-. apply take_app_exact. Qed.

Lemma jpg_at_on_match p m body :
  (p = "https://" \/ p = "http://") ->
  lower m = lower p -> String.length m = String.length p ->
  lazy_jpg body = Some body ->
  jpg_at (m ++ body) = Some (m ++ body)%string.
Proof.
  intros Hp Hm Hlen Hfix. unfold jpg_at. rewrite scheme_spec.
  pose proof (literal_ci_on_match p m body Hm Hlen) as Hon.
  destruct Hp; subst p.
  - rewrite Hon.
    rewrite (drop_of_match m body 8 Hlen), Hfix.
    rewrite (take_of_match m body 8 Hlen). reflexivity.
  - rewrite (http_is_not_https _ _ Hon), Hon.
    rewrite (drop_of_match m body 7 Hlen), Hfix.
    rewrite (take_of_match m body 7 Hlen). reflexivity.
Qed.

Lemma colon_only c : lower_char c = ":"%char -> c = ":"%char.
Proof. by_letter c. Qed.

Lemma slash_only c : lower_char c = "/"%char -> c = "/"%char.
Proof. by_letter c. Qed.

Lemma startswith_spec p s :
  startswith p s = true <-> exists r, s = (p ++ r)%string.
Proof.
  revert s. induction p as [|a p IH]; intros s; simpl.
  - split; [exists s; reflexivity|reflexivity].
  - destruct s as [|b s]; [split; [discriminate|intros (r & E); discriminate E]|].
    rewrite andb_true_iff, IH, Ascii.eqb_eq. split.
    + intros (-> & r & ->). exists r. reflexivity.
    + intros (r & E). injection E as -> ->. eauto.
Qed.

(** A link with a plain scheme is a jpg link. *)
Lemma plain_jpg_good u : plain_jpg u -> good_jpg u.
Proof.
  intros (Hall & Hend & Hs). split; [exact Hall|]. split; [exact Hend|].
  destruct Hs as [H|H]; apply startswith_spec in H as (r & E).
  - destruct u as [|a [|b [|c [|d [|e [|f [|g u]]]]]]]; try discriminate E.
    cbn [lower append] in E. injection E as Ha Hb Hc Hd He Hf Hg _.
    apply colon_only in He. apply slash_only in Hf, Hg. subst e f g.
    split; [cbn [lower startswith]; rewrite Ha, Hb, Hc, Hd; reflexivity|].
    left. reflexivity.
  - destruct u as [|a [|b [|c [|d [|x [|e [|f [|g u]]]]]]]]; try discriminate E.
    cbn [lower append] in E. injection E as Ha Hb Hc Hd _ He Hf Hg _.
    apply colon_only in He. apply slash_only in Hf, Hg. subst e f g.
    split; [cbn [lower startswith]; rewrite Ha, Hb, Hc, Hd; reflexivity|].
    right. reflexivity.
Qed.

Lemma plain_jpg_of_parts p m body pre :
  (p = "https://" \/ p = "http://") ->
  lower m = lower p ->
  all_chars url_char body = true ->
  lower body = (pre ++ ".jpg")%string ->
  plain_jpg (m ++ body).
Proof.
  intros Hp Hm Hall Hpre. unfold plain_jpg, plain_scheme.
  rewrite all_chars_app, Hall, lower_app, Hpre, Hm, <- append_assoc, endswith_app.
  destruct Hp; subst p.
  - rewrite (https_chars _ Hm). split; [reflexivity|]. split; [reflexivity|].
    right. rewrite append_assoc. apply startswith_app.
  - rewrite (http_chars _ Hm). split; [reflexivity|]. split; [reflexivity|].
    left. rewrite append_assoc. apply startswith_app.
Qed.

Lemma jpg_at_spec s r :
  jpg_at s = Some r ->
  (exists rest, s = (r ++ rest)%string) /\ plain_jpg r /\ jpg_at r = Some r.
Proof.
  unfold jpg_at. rewrite scheme_spec.
  destruct (literal true "https://" s) as [rest|] eqn:H8.
  - destruct (literal_ci_spec _ _ _ H8) as (m & Hs & Hm & Hlen). subst s.
    rewrite (drop_of_match m rest 8 Hlen).
    rewrite (take_of_match m rest 8 Hlen).
    destruct (lazy_jpg rest) as [body|] eqn:Hb; [|discriminate].
    intros E. apply some_eq in E. subst r.
    destruct (lazy_jpg_spec _ _ Hb) as ((rest' & Hr) & Hall & (pre & Hpre) & Hfix).
    subst rest.
    split; [exists rest'; symmetry; apply append_assoc|]. split.
    + apply (plain_jpg_of_parts "https://" m body pre); auto.
    + apply (jpg_at_on_match "https://"); auto.
  - destruct (literal true "http://" s) as [rest|] eqn:H7; [|discriminate].
    destruct (literal_ci_spec _ _ _ H7) as (m & Hs & Hm & Hlen). subst s.
    rewrite (drop_of_match m rest 7 Hlen).
    rewrite (take_of_match m rest 7 Hlen).
    destruct (lazy_jpg rest) as [body|] eqn:Hb; [|discriminate].
    intros E. apply some_eq in E. subst r.
    destruct (lazy_jpg_spec _ _ Hb) as ((rest' & Hr) & Hall & (pre & Hpre) & Hfix).
    subst rest.
    split; [exists rest'; symmetry; apply append_assoc|]. split.
    + apply (plain_jpg_of_parts "http://" m body pre); auto.
    + apply (jpg_at_on_match "http://"); auto.
Qed.

Lemma jpg_search_unfold s :
  jpg_search s
  = match jpg_at s with
    | Some m => Some m
    | None => match s with
              | EmptyString => None
              | String _ r => jpg_search r
              end
    end.
Proof. destruct s; reflexivity. Qed.

Lemma jpg_search_spec s r :
  jpg_search s = Some r ->
  (exists pre post, s = (pre ++ r ++ post)%string) /\ plain_jpg r /\ jpg_search r = Some r.
Proof.
  induction s as [|c s IH]; rewrite jpg_search_unfold.
  - destruct (jpg_at EmptyString) as [m|] eqn:E; [|discriminate].
    intros H. apply some_eq in H. subst m.
    destruct (jpg_at_spec _ _ E) as ((rest & Hr) & Hg & Hfix).
    split; [exists EmptyString, rest; exact Hr|]. split; [exact Hg|].
    rewrite jpg_search_unfold, Hfix. reflexivity.
  - destruct (jpg_at (String c s)) as [m|] eqn:E.
    + intros H. apply some_eq in H. subst m.
      destruct (jpg_at_spec _ _ E) as ((rest & Hr) & Hg & Hfix).
      split; [exists EmptyString, rest; exact Hr|]. split; [exact Hg|].
      rewrite jpg_search_unfold, Hfix. reflexivity.
    + intros H. destruct (IH H) as ((pre & post & Hs) & Hg & Hfix).
      split; [exists (String c pre), post; rewrite Hs; reflexivity|]. auto.
Qed.

Lemma pick_jpg_spec url r :
  pick_jpg url = Some r ->
  (exists pre post, url = (pre ++ r ++ post)%string) /\ plain_jpg r /\ pick_jpg r = Some r.
Proof.
  unfold pick_jpg. destruct url as [|c url]; [discriminate|]. cbn [truthy negb].
  intros H. destruct (jpg_search_spec _ _ H) as (Hsub & Hg & Hfix).
  split; [exact Hsub|]. split; [exact Hg|].
  destruct r as [|c' r]; [|exact Hfix].
  destruct Hg as (_ & He & _). discriminate He.
Qed.

Lemma plain_jpg_truthy u : plain_jpg u -> truthy u = true.
Proof. intros (_ & He & _). destruct u; [discriminate He|reflexivity]. Qed.

(** X18. What [pick_jpg] returns is a piece of the text it was given, and
    a jpg link: no white space, quote or angle bracket in it, [.jpg] at
    the end and [http] at the front, in either case, and [://] right
    after [http] or one character later.  When the link is in ASCII that
    character is the letter s: the link starts with [http://] or
    [https://], in either case.  The empty text gives nothing. *)
Theorem pick_jpg_gives_a_jpg_link :
  forall url r,
    pick_jpg url = Some r ->
    (exists pre post, url = (pre ++ r ++ post)%string)
    /\ good_jpg r
    /\ (all_chars is_ascii r = true -> plain_scheme r)
    /\ url <> EmptyString.
Proof.
  intros url r H. destruct (pick_jpg_spec _ _ H) as (Hsub & Hg & _).
  split; [exact Hsub|]. split; [apply plain_jpg_good, Hg|].
  split; [intros _; apply Hg|]. intros ->. discriminate H.
Qed.

(** X19. [pick_jpg] is idempotent: a link that it returned is returned as
    it is. *)
Theorem pick_jpg_idempotent :
  forall url r, pick_jpg url = Some r -> pick_jpg r = Some r.
Proof. intros url r H. apply (pick_jpg_spec _ _ H). Qed.

Section WithUrljoin.

Variable urljoin : string -> string -> string.

Lemma jpg_of_attribute_good v base u :
  jpg_of_attribute urljoin v base = Some u -> plain_jpg u.
Proof.
  unfold jpg_of_attribute. destruct v as [a|]; [|discriminate].
  destruct (truthy a); [|discriminate].
  destruct (pick_jpg (urljoin base (strip a))) as [r|] eqn:H; [|discriminate].
  destruct (truthy r); [|discriminate]. intros E. apply some_eq in E. subst r.
  apply (pick_jpg_spec _ _ H).
Qed.

Lemma first_in_srcset_good parts base u :
  first_in_srcset urljoin parts base = Returned (Some u) -> plain_jpg u.
Proof.
  induction parts as [|part rest IH]; cbn [first_in_srcset]; [discriminate|].
  destruct (split_words (strip part)) as [|cand ws]; [discriminate|].
  destruct (pick_jpg (urljoin base cand)) as [r|] eqn:H; [|exact IH].
  destruct (truthy r); [|exact IH]. intros E.
  assert (r = u) by congruence. subst r. apply (pick_jpg_spec _ _ H).
Qed.

Lemma extract_img_url_good img base u :
  extract_img_url urljoin img base = Returned (Some u) -> plain_jpg u.
Proof.
  unfold extract_img_url.
  destruct (jpg_of_attribute urljoin (data_src img) base) as [ds|] eqn:H1.
  - intros E. assert (ds = u) by congruence. subst ds.
    eapply jpg_of_attribute_good, H1.
  - destruct (jpg_search _) as [m|] eqn:H2.
    + destruct (pick_jpg (urljoin base m)) as [r|] eqn:H; [|discriminate].
      intros E. assert (r = u) by congruence. subst r. apply (pick_jpg_spec _ _ H).
    + destruct (jpg_of_attribute urljoin (src img) base) as [x|] eqn:H3.
      * intros E. assert (x = u) by congruence. subst x.
        eapply jpg_of_attribute_good, H3.
      * destruct (srcset img) as [ss|]; [|discriminate].
        destruct (truthy ss); [|discriminate]. apply first_in_srcset_good.
Qed.

(** X20. Whatever attribute it comes from and whatever [urljoin] does,
    a link that [extract_img_url] returns is a jpg link: no white space,
    quote or angle bracket in it, [.jpg] at the end and [http] at the
    front, in either case, and [://] right after [http] or one character
    later. *)
Theorem extract_img_url_returns_jpg_links_only :
  forall img base_url u,
    extract_img_url urljoin img base_url = Returned (Some u) -> good_jpg u.
Proof. intros img base u H. eapply plain_jpg_good, extract_img_url_good, H. Qed.

Lemma seen_spec u seen : existsb (String.eqb u) seen = true <-> In u seen.
Proof.
  rewrite existsb_exists. split.
  - intros (x & Hin & E). apply String.eqb_eq in E. subst x. exact Hin.
  - intros Hin. exists u. split; [exact Hin|apply String.eqb_refl].
Qed.

Lemma collect_jpgs_spec imgs page seen urls out :
  NoDup urls -> (forall u, In u urls <-> In u seen) ->
  collect_jpgs urljoin imgs page seen urls = Returned out ->
  NoDup out
  /\ (forall u, In u out
                <-> In u urls
                    \/ exists img, In img imgs
                                   /\ extract_img_url urljoin img page = Returned (Some u)).
Proof.
  revert seen urls. induction imgs as [|img imgs IH]; intros seen urls Hnd Hsame;
    cbn [collect_jpgs].
  - intros E. assert (urls = out) by congruence. subst out.
    split; [exact Hnd|]. intros u. split; [auto|]. intros [H|(img & [] & _)]. exact H.
  - destruct (extract_img_url urljoin img page) as [[u|]|] eqn:Hx; [| |discriminate].
    + pose proof (extract_img_url_good _ _ _ Hx) as Hg.
      rewrite (plain_jpg_truthy _ Hg). destruct Hg as (_ & He & _). rewrite He.
      cbn [andb].
      destruct (existsb (String.eqb u) seen) eqn:Hseen; cbn [negb].
      * intros H. destruct (IH _ _ Hnd Hsame H) as [Hout Hin].
        split; [exact Hout|]. intros x. rewrite Hin. split.
        -- intros [Hu|(i & Hi & Hxi)]; [auto|]. right. exists i. split; [right|]; auto.
        -- intros [Hu|(i & [<-|Hi] & Hxi)]; [auto| |].
           ++ left. rewrite Hx in Hxi. assert (u = x) by congruence. subst x.
              apply Hsame, seen_spec, Hseen.
           ++ right. eauto.
      * assert (Hnew : ~ In u urls).
        { intros Hu. apply Hsame, seen_spec in Hu. congruence. }
        assert (Hnd' : NoDup (urls ++ [u])%list).
        { apply NoDup_app; [exact Hnd|repeat constructor; simpl; tauto|].
          intros y Hy [<-|[]]. contradiction. }
        assert (Hsame' : forall y, In y (urls ++ [u])%list <-> In y (u :: seen)).
        { intros y. rewrite in_app_iff. simpl. rewrite Hsame. tauto. }
        intros H. destruct (IH _ _ Hnd' Hsame' H) as [Hout Hin].
        split; [exact Hout|]. intros x. rewrite Hin, in_app_iff. simpl. split.
        -- intros [[Hu|[<-|[]]]|(i & Hi & Hxi)]; [auto| |].
           ++ right. exists img. auto.
           ++ right. exists i. auto.
        -- intros [Hu|(i & [<-|Hi] & Hxi)]; [auto| |].
           ++ left. right. left. rewrite Hx in Hxi. congruence.
           ++ right. eauto.
    + intros H. destruct (IH _ _ Hnd Hsame H) as [Hout Hin].
      split; [exact Hout|]. intros x. rewrite Hin. split.
      * intros [Hu|(i & Hi & Hxi)]; [auto|]. right. exists i. split; [right|]; auto.
      * intros [Hu|(i & [<-|Hi] & Hxi)]; [auto| |].
        -- rewrite Hx in Hxi. discriminate.
        -- right. eauto.
Qed.

(** X21. The links that [get_product_jpgs] gathers are the links that
    [extract_img_url] finds in the tags, each once: its own test of the
    ending never turns one down.  All of them are jpg links: no white
    space, quote or angle bracket in them, [.jpg] at the end and [http]
    at the front, in either case, and [://] right after [http] or one
    character later. *)
Theorem product_jpgs_are_the_distinct_links :
  forall imgs page_url urls,
    product_jpgs urljoin imgs page_url = Returned urls ->
    NoDup urls
    /\ Forall good_jpg urls
    /\ (forall u, In u urls
                  <-> exists img, In img imgs
                                  /\ extract_img_url urljoin img page_url
                                     = Returned (Some u)).
Proof.
  intros imgs page urls H. unfold product_jpgs in H.
  destruct (collect_jpgs_spec imgs page [] [] urls (NoDup_nil _)
              (fun u => conj (fun h => h) (fun h => h)) H) as [Hnd Hin].
  assert (Hiff : forall u, In u urls
                           <-> exists img, In img imgs
                                           /\ extract_img_url urljoin img page
                                              = Returned (Some u)).
  { intros u. rewrite Hin. simpl. tauto. }
  split; [exact Hnd|]. split; [|exact Hiff].
  apply Forall_forall. intros u Hu. apply Hiff in Hu as (img & _ & Hx).
  eapply plain_jpg_good, extract_img_url_good, Hx.
Qed.

Lemma space_is_not_comma c : is_space c = true -> Ascii.eqb c "," = false.
Proof. by_cases_on_char c. Qed.

Lemma split_on_blank_first blank rest :
  all_chars is_space blank = true ->
  split_on "," (blank ++ String "," rest) = blank :: split_on "," rest.
Proof.
  induction blank as [|c blank IH]; intros H; [reflexivity|].
  simpl in H. apply andb_true_iff in H as [Hc Hb].
  cbn [append split_on]. rewrite (space_is_not_comma _ Hc), (IH Hb). reflexivity.
Qed.

Lemma split_on_blank_only blank :
  all_chars is_space blank = true -> split_on "," blank = [blank].
Proof.
  induction blank as [|c blank IH]; intros H; [reflexivity|].
  simpl in H. apply andb_true_iff in H as [Hc Hb].
  cbn [split_on]. rewrite (space_is_not_comma _ Hc), (IH Hb). reflexivity.
Qed.

Lemma first_in_srcset_blank blank parts base :
  all_chars is_space blank = true ->
  first_in_srcset urljoin (blank :: parts) base = IndexError.
Proof.
  intros H. cbn [first_in_srcset].
  rewrite (proj2 (PyTextFacts.strip_blank blank) H). reflexivity.
Qed.

(** X22. When the other attributes give no link and the first entry of a
    [srcset] that is not empty is blank (the text starts with a comma, or
    is white space up to the first comma or throughout),
    [extract_img_url] does not return: [split()[0]] raises [IndexError]. *)
Theorem blank_srcset_entry_raises :
  forall img base_url ss,
    jpg_of_attribute urljoin (data_src img) base_url = None ->
    jpg_search (or_string (onerror img) "") = None ->
    jpg_of_attribute urljoin (src img) base_url = None ->
    srcset img = Some ss ->
    ss <> EmptyString ->
    (all_chars is_space ss = true
     \/ exists blank rest,
          ss = (blank ++ String "," rest)%string /\ all_chars is_space blank = true) ->
    extract_img_url urljoin img base_url = IndexError.
Proof.
  intros img base ss H1 H2 H3 Hss Hne Hblank. unfold extract_img_url.
  rewrite H1. unfold or_string in H2. rewrite H2, H3, Hss.
  destruct ss as [|c ss']; [contradiction|]. cbn [truthy].
  destruct Hblank as [Hall|(blank & rest & -> & Hall)].
  - rewrite (split_on_blank_only _ Hall). apply first_in_srcset_blank, Hall.
  - rewrite (split_on_blank_first _ _ Hall). apply first_in_srcset_blank, Hall.
Qed.

End WithUrljoin.

End ScraperFacts.

(** ** The other views on the reference implementation *)

Module MoreExamples.
Import PyStr PyText Ref RefMore Views Paging Scraper SlugForm PhoneForm.

Lemma Qle_bool_total (x y : Q) : Qle_bool x y = true \/ Qle_bool y x = true.
Proof.
  rewrite !Qle_bool_iff. destruct (Qlt_le_dec x y) as [H|H]; [left|right]; auto.
  apply Qlt_le_weak, H.
Qed.

Lemma readers_ok : subscribers_ok readers.
Proof.
  split.
  - simpl. repeat constructor. simpl. tauto.
  - repeat constructor.
Qed.

(** A new reader, the address typed with capitals and blanks. *)
Lemma subscribe_keeps_subscribers_ok_witness :
  subscribers_ok readers
  /\ map sub_email (snd (subscribe 5 readers (Some " Zawadi@Example.com ") None))
     = ["amina@example.com"; "zawadi@example.com"]
  /\ subscribers_ok (snd (subscribe 5 readers (Some " Zawadi@Example.com ") None)).
Proof.
  split; [exact readers_ok|]. split; [reflexivity|].
  apply (FormFacts.subscribe_keeps_subscribers_ok 5 readers
           (Some " Zawadi@Example.com ") None).
  exact readers_ok.
Defined.

(** The same reader again, typed differently. *)
Lemma subscribe_twice_stores_once_witness :
  lower (strip " Zawadi@Example.com ") = lower (strip "zawadi@example.COM")
  /\ snd (subscribe 6 (snd (subscribe 5 readers (Some " Zawadi@Example.com ") None))
            (Some "zawadi@example.COM") None)
     = snd (subscribe 5 readers (Some " Zawadi@Example.com ") None).
Proof.
  split; [reflexivity|].
  apply (FormFacts.subscribe_twice_stores_once 5 6 readers " Zawadi@Example.com "
           "zawadi@example.COM" None None).
  reflexivity.
Defined.

Lemma newest_order_total (a b : product) :
  sort_le ("created_at", DESCENDING) a b = true
  \/ sort_le ("created_at", DESCENDING) b a = true.
Proof. unfold sort_le, key_le. cbn. rewrite !Z.leb_le. lia. Qed.

Lemma newest_order_transitive (a b c : product) :
  sort_le ("created_at", DESCENDING) a b = true ->
  sort_le ("created_at", DESCENDING) b c = true ->
  sort_le ("created_at", DESCENDING) a c = true.
Proof. unfold sort_le, key_le. cbn. rewrite !Z.leb_le. lia. Qed.

Lemma catalog_has_no_tie (a b : product) :
  In a catalog -> In b catalog ->
  sort_le ("created_at", DESCENDING) a b = true ->
  sort_le ("created_at", DESCENDING) b a = true -> a = b.
Proof.
  intros Ha Hb. simpl in Ha, Hb.
  decompose [or] Ha; decompose [or] Hb; subst; try contradiction;
    intros H1 H2; try reflexivity; discriminate.
Qed.

(** Four products at three a page: two pages, the newest first. *)
Lemma pages_cover_the_matches_witness :
  map slug
    (List.concat
       (map (fun k => shown (products default_config catalog
                               (with_page (Some (page_text k)) three_a_page)))
          (page_numbers 2)))
  = ["sun-shield"; "ruby-shine"; "glow-serum"; "velvet-matte"]
  /\ List.concat
       (map (fun k => shown (products default_config catalog
                               (with_page (Some (page_text k)) three_a_page)))
          (page_numbers 2))
     = rev catalog.
Proof.
  split; [reflexivity|].
  apply (PagingFacts.pages_cover_the_matches default_config catalog three_a_page 3
           page_text eq_refl).
  - intros k Hk.
    assert (Hcases : k = 1 \/ k = 2).
    { match type of Hk with
      | _ <= _ <= ?p => let v := eval vm_compute in p in change p with v in Hk
      end. lia. }
    destruct Hcases; subst k; reflexivity.
  - exact newest_order_total.
  - exact newest_order_transitive.
  - exact catalog_has_no_tie.
  - symmetry. apply Permutation_rev.
  - repeat constructor.
Defined.

(** The reference catalogue by price. *)
Lemma sort_keys_order_the_items_witness :
  Sorted (fun a b => num_le (price a) (price b) = true)
    (shown (products default_config catalog (with_sort (Some "price_asc") no_args))).
Proof.
  destruct (PagingFacts.sort_keys_order_the_items default_config catalog no_args
              "price_asc") as (_ & _ & Hnum).
  destruct (Hnum Qle_bool_total) as (Hasc & _ & _).
  apply Hasc. reflexivity.
Defined.

(** A slug is its own slug. *)
Lemma slugs_are_the_fixed_points_witness :
  slug_form "hello-world"
  /\ Slug.slugify ascii_only "hello-world" = "hello-world".
Proof.
  destruct (SlugMore.slugs_are_the_fixed_points ascii_only Examples.ascii_only_on_ascii
              "  Hello, World!! ") as [_ Hform].
  change (Slug.slugify ascii_only "  Hello, World!! ") with "hello-world" in Hform.
  split; [exact Hform|].
  apply (SlugMore.slugs_are_the_fixed_points ascii_only Examples.ascii_only_on_ascii
           "hello-world").
  exact Hform.
Defined.

(** Capitals make no difference. *)
Lemma slug_ignores_case_witness :
  Slug.slugify ascii_only (lower "Ruby Shine") = Slug.slugify ascii_only "Ruby Shine".
Proof.
  apply (SlugMore.slug_ignores_case ascii_only Examples.ascii_only_on_ascii "Ruby Shine").
  reflexivity.
Defined.

(** A wrong header beside the right parameter. *)
Lemma admin_new_needs_the_token_witness :
  admin_new ascii_only default_config 50 51 catalog wrong_header
  = (Ok (Abort 403), catalog).
Proof.
  destruct (AdminMore.admin_new_needs_the_token ascii_only default_config 50 51 catalog
              wrong_header) as (_ & _ & Hheader).
  apply (Hheader "guess"); [reflexivity|discriminate|discriminate].
Defined.

(** A product is created and found under its slug. *)
Lemma created_product_is_found_witness :
  exists doc,
    snd (admin_new ascii_only default_config 50 51 catalog (admin_post (soap "5")))
    = (catalog ++ [doc])%list
    /\ find_one_by_slug
         (snd (admin_new ascii_only default_config 50 51 catalog (admin_post (soap "5"))))
         "soap"
       = Some doc.
Proof.
  destruct (AdminMore.created_product_is_found ascii_only default_config 50 51 catalog
              (admin_post (soap "5")) "soap" "Product created." "success" eq_refl)
    as (doc & Hstore & _ & Hfound & _).
  exists doc. split; [exact Hstore|exact Hfound].
Defined.

(** The same form posted again. *)
Lemma posting_twice_creates_once_witness :
  admin_new ascii_only default_config 60 61
    (snd (admin_new ascii_only default_config 50 51 catalog (admin_post (soap "5"))))
    (admin_post (soap "5"))
  = (Ok (Redirect to_admin_new "A product with that slug already exists." "danger"),
     snd (admin_new ascii_only default_config 50 51 catalog (admin_post (soap "5")))).
Proof.
  apply (AdminMore.posting_twice_creates_once ascii_only default_config 50 51 60 61
           catalog (admin_post (soap "5")) "soap" "Product created." "success").
  reflexivity.
Defined.

(** The home page of the reference catalogue. *)
Lemma home_shows_the_newest_witness :
  map slug (home_latest (home catalog))
  = ["sun-shield"; "ruby-shine"; "glow-serum"; "velvet-matte"]
  /\ List.length (home_latest (home catalog)) = Nat.min 8 (List.length catalog).
Proof.
  split; [reflexivity|].
  apply (CatalogViewsFacts.home_shows_the_newest catalog).
Defined.

(** A product page by slug. *)
Lemma product_detail_finds_by_id_or_slug_witness :
  exists item related,
    product_detail shelf "ruby-shine" = Detail item related
    /\ In item shelf
    /\ slug (body item) = "ruby-shine".
Proof.
  eexists. eexists. split; [reflexivity|].
  destruct (CatalogViewsFacts.product_detail_finds_by_id_or_slug shelf "ruby-shine")
    as [_ Hfound].
  destruct (Hfound _ _ eq_refl) as [Hin _].
  split; [exact Hin|reflexivity].
Defined.

(** The other lipstick is related to the lipstick. *)
Lemma related_products_witness :
  exists item related,
    product_detail shelf "65F000000000000000000003" = Detail item related
    /\ map (fun r => slug (body r)) related = ["velvet-matte"]
    /\ (List.length related <= 8)%nat.
Proof.
  eexists. eexists. split; [reflexivity|]. split; [reflexivity|].
  apply (CatalogViewsFacts.related_products_are_the_newest_of_the_category shelf
           "65F000000000000000000003" _ _ eq_refl).
Defined.

(** A number written with [07], and one written with a plus sign. *)
Lemma format_phone_accepts_the_two_forms_witness :
  Mpesa._format_phone "0712345678" = Some "254712345678"
  /\ (exists d e,
        PhoneForm.eight_digits d /\ PhoneForm.line_end e
        /\ ("0712345678" = ("07" ++ d ++ e)%string
            \/ "0712345678" = ("2547" ++ d ++ e)%string)
        /\ "254712345678" = ("2547" ++ d ++ e)%string)
  /\ (String.length "254712345678" = 12%nat
      \/ (String.length "254712345678" = 13%nat
          /\ endswith (String "010" "") "254712345678" = true))
  /\ Mpesa._format_phone "+254712345678" = None.
Proof.
  destruct (MpesaFacts.format_phone_accepts_the_two_forms "0712345678")
    as (Hin & Hascii & Hshape & _).
  split.
  - apply (Hin "12345678" EmptyString).
    + split; reflexivity.
    + left. reflexivity.
    + left. reflexivity.
  - split; [exact (Hascii eq_refl "254712345678" eq_refl)|].
    split; [apply (Hshape "254712345678" eq_refl)|].
    apply (MpesaFacts.format_phone_accepts_the_two_forms "+254712345678");
      reflexivity.
Defined.

(** The two ways of writing one number. *)
Lemma format_phone_witness :
  Mpesa._format_phone "0712345678" = Some "254712345678"
  /\ Mpesa._format_phone "254712345678" = Some "254712345678".
Proof.
  split; [reflexivity|].
  apply (MpesaFacts.format_phone_idempotent "0712345678" "254712345678").
  reflexivity.
Defined.

(** A link inside a text. *)
Lemma pick_jpg_gives_a_jpg_link_witness :
  pick_jpg "see https://cdn.example/a.JPG?w=200" = Some "https://cdn.example/a.JPG"
  /\ good_jpg "https://cdn.example/a.JPG"
  /\ plain_scheme "https://cdn.example/a.JPG".
Proof.
  split; [reflexivity|].
  destruct (ScraperFacts.pick_jpg_gives_a_jpg_link "see https://cdn.example/a.JPG?w=200"
              "https://cdn.example/a.JPG" eq_refl) as (_ & Hgood & Hplain & _).
  split; [exact Hgood|exact (Hplain eq_refl)].
Defined.

Lemma pick_jpg_idempotent_witness :
  pick_jpg "https://cdn.example/a.JPG" = Some "https://cdn.example/a.JPG".
Proof.
  apply (ScraperFacts.pick_jpg_idempotent "see https://cdn.example/a.JPG?w=200"
           "https://cdn.example/a.JPG" eq_refl).
Defined.

(** The link of a [srcset]. *)
Lemma extract_img_url_witness :
  extract_img_url join
    (tag None None (Some "/img/placeholder.png") (Some "/img/a.png 1x, /img/serum.jpg 2x"))
    "https://shop.example"
  = Returned (Some "https://shop.example/img/serum.jpg")
  /\ good_jpg "https://shop.example/img/serum.jpg".
Proof.
  split; [reflexivity|].
  apply (ScraperFacts.extract_img_url_returns_jpg_links_only join
           (tag None None (Some "/img/placeholder.png")
              (Some "/img/a.png 1x, /img/serum.jpg 2x"))
           "https://shop.example" _ eq_refl).
Defined.

(** Three tags, two links. *)
Lemma product_jpgs_witness :
  product_jpgs join tags "https://shop.example"
  = Returned ["https://shop.example/img/ruby.JPG"; "https://shop.example/img/serum.jpg"]
  /\ NoDup ["https://shop.example/img/ruby.JPG"; "https://shop.example/img/serum.jpg"].
Proof.
  split; [reflexivity|].
  apply (ScraperFacts.product_jpgs_are_the_distinct_links join tags
           "https://shop.example" _ eq_refl).
Defined.

(** A [srcset] that starts with a comma. *)
Lemma blank_srcset_entry_raises_witness :
  extract_img_url join (tag None None None (Some ", /img/b.jpg 2x")) "https://shop.example"
  = IndexError.
Proof.
  apply (ScraperFacts.blank_srcset_entry_raises join
           (tag None None None (Some ", /img/b.jpg 2x")) "https://shop.example"
           ", /img/b.jpg 2x"); try reflexivity.
  - discriminate.
  - right. exists EmptyString, " /img/b.jpg 2x". split; reflexivity.
Defined.

End MoreExamples.
